(** * 7Cav retention analytics: membership intervals, daily strength, cohort retention

    A shallow embedding of the Python scripts

      - [Milpacs/unitStrengthHistory.py]   (module [UnitStrengthHistory])
      - [cohortRetentionAnalysis.py]       (module [CohortRetentionAnalysis])
      - [CohortMovementTracker.py]         (module [CohortMovementTracker])

    Conventions of the embedding.

      - Python [str] values are Rocq [string]s; the [str] methods used by the
        scripts ([strip], [upper], [isalpha], [isdigit], [split], [replace])
        and the regular expressions are modelled on ASCII text.
      - A Python exception is a value [Raise e] of the [result] type; a
        function that cannot raise is a plain function.
      - [datetime] / [Timestamp] values are integers, in microseconds: the
        ordinal of the day in the proleptic Gregorian calendar times [DAY],
        plus the time of day, so that [timedelta(days=1)] is [DAY].
      - [None] is [None]: a dict entry or a data-frame cell holding [None]
        (or [NaT]) is an [option].
      - [datetime.now()] is a read of a clock that the run receives as an
        explicit argument.
      - A finite [float] (IEEE 754 binary64) is the rational number it
        stands for; an operation on floats is the exact operation followed
        by the rounding to the nearest float, a tie going to the float with
        the even significand. *)

From Stdlib Require Import ZArith List Bool Ascii String Lia QArith Sorted Permutation.
From Stdlib Require Import Qpower Qreduction Lqa SpecFloat.
From Stdlib Require Import DecimalString.
Import ListNotations.

Local Open Scope string_scope.
Local Open Scope list_scope.
Local Open Scope Z_scope.

(** ** Exceptions *)

Inductive exn : Type := ValueError | KeyError | TypeError | IndexError.

Inductive result (A : Type) : Type :=
| Ok (a : A)
| Raise (e : exn).

Arguments Ok {A} a.
Arguments Raise {A} e.

Definition bind {A B : Type} (r : result A) (k : A -> result B) : result B :=
  match r with
  | Ok a => k a
  | Raise e => Raise e
  end.

Notation "x <- r ;; k" := (bind r (fun x => k))
  (at level 61, r at next level, right associativity).

(** ** Text: the [str] methods the scripts call *)

Module Text.

Definition ord (c : ascii) : Z := Z.of_N (N_of_ascii c).

Definition is_ascii_char (c : ascii) : bool := ord c <? 128.

Definition is_digit (c : ascii) : bool := (48 <=? ord c) && (ord c <=? 57).

Definition is_upper (c : ascii) : bool := (65 <=? ord c) && (ord c <=? 90).

Definition is_lower (c : ascii) : bool := (97 <=? ord c) && (ord c <=? 122).

Definition is_alpha (c : ascii) : bool := is_upper c || is_lower c.

(** [\w] of [re] on ASCII text. *)
Definition is_word (c : ascii) : bool :=
  is_alpha c || is_digit c || (ord c =? 95).

(** Characters removed by [str.strip()]: tab, line feed, vertical tab, form
    feed, carriage return, the four separators 28..31 and the space. *)
Definition is_space (c : ascii) : bool :=
  ((9 <=? ord c) && (ord c <=? 13)) || ((28 <=? ord c) && (ord c <=? 32)).

Definition to_upper (c : ascii) : ascii :=
  if is_lower c then ascii_of_N (N_of_ascii c - 32) else c.

Definition to_lower (c : ascii) : ascii :=
  if is_upper c then ascii_of_N (N_of_ascii c + 32) else c.

Fixpoint all_chars (p : ascii -> bool) (s : string) : bool :=
  match s with
  | EmptyString => true
  | String c s' => p c && all_chars p s'
  end.

Definition nonempty (s : string) : bool :=
  match s with EmptyString => false | String _ _ => true end.

Definition is_ascii (s : string) : bool := all_chars is_ascii_char s.

(** [s.isalpha()], [s.isdigit()]: false on the empty string. *)
Definition isalpha (s : string) : bool := nonempty s && all_chars is_alpha s.
Definition isdigit (s : string) : bool := nonempty s && all_chars is_digit s.

Fixpoint map_chars (f : ascii -> ascii) (s : string) : string :=
  match s with
  | EmptyString => EmptyString
  | String c s' => String (f c) (map_chars f s')
  end.

Definition upper : string -> string := map_chars to_upper.
Definition lower : string -> string := map_chars to_lower.

Fixpoint lstrip (s : string) : string :=
  match s with
  | EmptyString => EmptyString
  | String c s' => if is_space c then lstrip s' else s
  end.

Fixpoint rstrip (s : string) : string :=
  match s with
  | EmptyString => EmptyString
  | String c s' =>
      match rstrip s' with
      | EmptyString => if is_space c then EmptyString else String c EmptyString
      | r => String c r
      end
  end.

Definition strip (s : string) : string := rstrip (lstrip s).

(** [s.replace(c, "")] for a one-character [c]. *)
Fixpoint remove_char (x : ascii) (s : string) : string :=
  match s with
  | EmptyString => EmptyString
  | String c s' =>
      if Ascii.eqb c x then remove_char x s' else String c (remove_char x s')
  end.

(** [s.split(c)] for a one-character separator. *)
Fixpoint split_char (sep : ascii) (s : string) : list string :=
  match s with
  | EmptyString => [EmptyString]
  | String c s' =>
      if Ascii.eqb c sep then EmptyString :: split_char sep s'
      else match split_char sep s' with
           | [] => [String c EmptyString]
           | p :: ps => String c p :: ps
           end
  end.

(** [sub in s]. *)
Fixpoint contains (sub s : string) : bool :=
  String.prefix sub s ||
  match s with
  | EmptyString => false
  | String _ s' => contains sub s'
  end.

(** [s.split(sep)] for a separator of one character or more: the pieces
    between the occurrences of [sep] found from left to right, each search
    resuming after the previous occurrence.  [skip] counts the characters of
    an occurrence still to be passed over, [cur] is the piece being read,
    last character first. *)
Fixpoint split_go (sep : string) (skip : nat) (cur : list ascii) (s : string)
  : list string :=
  match s with
  | EmptyString => [string_of_list_ascii (rev cur)]
  | String c s' =>
      match skip with
      | S k => split_go sep k cur s'
      | O =>
          if String.prefix sep s
          then string_of_list_ascii (rev cur)
                 :: split_go sep (String.length sep - 1) [] s'
          else split_go sep O (c :: cur) s'
      end
  end.

Definition split (sep s : string) : list string := split_go sep O [] s.

(** [str(n)]. *)
Definition str_of_Z (n : Z) : string := NilZero.string_of_int (Z.to_int n).

(** [s.split()]: the words of [s], the maximal runs of characters that are
    not white space.  [cur] is the word being read, last character first. *)
Fixpoint split_words_go (cur : list ascii) (s : string) : list string :=
  match s with
  | EmptyString =>
      match cur with
      | [] => []
      | _ :: _ => [string_of_list_ascii (rev cur)]
      end
  | String c s' =>
      if is_space c then
        match cur with
        | [] => split_words_go [] s'
        | _ :: _ => string_of_list_ascii (rev cur) :: split_words_go [] s'
        end
      else split_words_go (c :: cur) s'
  end.

Definition split_words (s : string) : list string := split_words_go [] s.

End Text.

(** ** Regular expressions of the scripts *)

Module Re.
Import Text.

(** [re.match] of a pattern that is a sequence of one-character classes:
    the pattern has to match at the start of the text, the text may go on. *)
Fixpoint match_classes (pat : list (ascii -> bool)) (s : string) : bool :=
  match pat with
  | [] => true
  | p :: pat' =>
      match s with
      | EmptyString => false
      | String c s' => p c && match_classes pat' s'
      end
  end.

Definition is_slash (c : ascii) : bool := Ascii.eqb c "/".

(** [r"\d{3}/\d{2}/\d{2}"] *)
Definition boot_camp_pattern : list (ascii -> bool) :=
  [is_digit; is_digit; is_digit; is_slash;
   is_digit; is_digit; is_slash; is_digit; is_digit].

(** [findall] of [\b(C)\b] for a class [C] of word characters: every
    character of the class that has no word character before it and none
    after it.  [prev] tells whether the character before [s] is a word
    character. *)
Fixpoint findall_lone (cls : ascii -> bool) (prev : bool) (s : string)
  : list string :=
  match s with
  | EmptyString => []
  | String c s' =>
      let next := match s' with
                  | EmptyString => false
                  | String d _ => is_word d
                  end in
      let rest := findall_lone cls (is_word c) s' in
      if cls c && negb prev && negb next
      then String c EmptyString :: rest
      else rest
  end.

(** The alternatives of [(1-7|2-7|3-7|ACD)], tried in this order. *)
Definition battalions : list string := ["1-7"; "2-7"; "3-7"; "ACD"].

(** [findall] of [(1-7|2-7|3-7|ACD)]: occurrences from left to right, the
    search resuming after each one ([skip] as in [Text.split_go]). *)
Fixpoint findall_battalion (skip : nat) (s : string) : list string :=
  match s with
  | EmptyString => []
  | String _ s' =>
      match skip with
      | S k => findall_battalion k s'
      | O =>
          match find (fun b => String.prefix b s) battalions with
          | Some b => b :: findall_battalion (String.length b - 1) s'
          | None => findall_battalion O s'
          end
      end
  end.

Definition battalion_pattern (s : string) : list string := findall_battalion O s.
Definition company_pattern (s : string) : list string := findall_lone is_upper false s.
Definition platoon_pattern (s : string) : list string := findall_lone is_digit false s.
Definition squad_pattern (s : string) : list string :=
  findall_lone (fun c => is_upper c || is_digit c) false s.

End Re.

(** ** [datetime]: timestamps, [timedelta], [strptime("%Y-%m-%d")] *)

Module Datetime.
Import Text.

Definition datetime : Type := Z.

Definition DAY : Z := 86400000000.

(** [timedelta(days=n)] *)
Definition timedelta (days : Z) : Z := days * DAY.

Definition is_leap (y : Z) : bool :=
  (y mod 4 =? 0) && (negb (y mod 100 =? 0) || (y mod 400 =? 0)).

Definition days_in_month (y m : Z) : Z :=
  if m =? 2 then (if is_leap y then 29 else 28)
  else if (m =? 4) || (m =? 6) || (m =? 9) || (m =? 11) then 30
  else 31.

Definition days_before_year (y : Z) : Z :=
  let y := y - 1 in y * 365 + y / 4 - y / 100 + y / 400.

Definition days_before_month (y m : Z) : Z :=
  fold_left Z.add
    (map (days_in_month y) (map Z.of_nat (seq 1 (Z.to_nat (m - 1))))) 0.

(** [date(y, m, d).toordinal()]: 1 for 0001-01-01. *)
Definition ymd2ord (y m d : Z) : Z :=
  days_before_year y + days_before_month y m + d.

(** [datetime(y, m, d)]: a [ValueError] for a date that is not in the
    calendar or a year outside 1..9999. *)
Definition make_date (y m d : Z) : result datetime :=
  if (1 <=? y) && (y <=? 9999) && (1 <=? m) && (m <=? 12)
     && (1 <=? d) && (d <=? days_in_month y m)
  then Ok (ymd2ord y m d * DAY)
  else Raise ValueError.

Definition digit_val (c : ascii) : Z := ord c - 48.

(** [%m], the alternatives [1[0-2]|0[1-9]|[1-9]] in this order: the number
    read and the text left. *)
Definition take_month (s : string) : option (Z * string) :=
  match s with
  | String a (String b rest) =>
      if (Ascii.eqb a "1" && (48 <=? ord b) && (ord b <=? 50))
         || (Ascii.eqb a "0" && (49 <=? ord b) && (ord b <=? 57))
      then Some (10 * digit_val a + digit_val b, rest)
      else if (49 <=? ord a) && (ord a <=? 57)
           then Some (digit_val a, String b rest) else None
  | String a rest =>
      if (49 <=? ord a) && (ord a <=? 57) then Some (digit_val a, rest) else None
  | EmptyString => None
  end.

(** [%d], the alternatives [3[01]|[12]\d|0[1-9]|[1-9]| [1-9]] in this order. *)
Definition take_day (s : string) : option (Z * string) :=
  match s with
  | String a (String b rest) =>
      if (Ascii.eqb a "3" && (48 <=? ord b) && (ord b <=? 49))
         || ((49 <=? ord a) && (ord a <=? 50) && is_digit b)
         || (Ascii.eqb a "0" && (49 <=? ord b) && (ord b <=? 57))
      then Some (10 * digit_val a + digit_val b, rest)
      else if (49 <=? ord a) && (ord a <=? 57)
           then Some (digit_val a, String b rest)
      else if Ascii.eqb a " " && (49 <=? ord b) && (ord b <=? 57)
           then Some (digit_val b, rest) else None
  | String a rest =>
      if (49 <=? ord a) && (ord a <=? 57) then Some (digit_val a, rest) else None
  | EmptyString => None
  end.

(** [datetime.strptime(s, "%Y-%m-%d")]: four digits, a dash, a month, a
    dash, a day and nothing after it; the three numbers have to name a date
    of the calendar.  Everything else is a [ValueError]. *)
Definition strptime (s : string) : result datetime :=
  match s with
  | String y1 (String y2 (String y3 (String y4 (String dash1 rest)))) =>
      if is_digit y1 && is_digit y2 && is_digit y3 && is_digit y4
         && Ascii.eqb dash1 "-"
      then
        match take_month rest with
        | Some (m, String dash2 rest') =>
            if Ascii.eqb dash2 "-" then
              match take_day rest' with
              | Some (d, EmptyString) =>
                  make_date (1000 * digit_val y1 + 100 * digit_val y2
                             + 10 * digit_val y3 + digit_val y4) m d
              | _ => Raise ValueError
              end
            else Raise ValueError
        | _ => Raise ValueError
        end
      else Raise ValueError
  | _ => Raise ValueError
  end.

(** The day a timestamp falls on, as an ordinal, and midnight of that day. *)
Definition toordinal (t : datetime) : Z := t / DAY.
Definition midnight (t : datetime) : bool := t mod DAY =? 0.

(** The year and the month of day [n] of the calendar (the steps of
    [_ord2ymd] of Python's [datetime]). *)
Definition ord2ym (n : Z) : Z * Z :=
  let n := n - 1 in
  let n400 := n / 146097 in
  let n := n mod 146097 in
  let n100 := n / 36524 in
  let n := n mod 36524 in
  let n4 := n / 1461 in
  let n := n mod 1461 in
  let n1 := n / 365 in
  let n := n mod 365 in
  let year := n400 * 400 + 1 + n100 * 100 + n4 * 4 + n1 in
  if (n1 =? 4) || (n100 =? 4) then (year - 1, 12)
  else
    let month := (n + 50) / 32 in
    if n <? days_before_month year month then (year, month - 1)
    else (year, month).

(** A number in decimal, with zeros on the left up to [width] digits. *)
Definition zero_pad (width : nat) (n : Z) : string :=
  let s := str_of_Z n in
  (string_of_list_ascii (repeat "0"%char (width - String.length s)) ++ s)%string.

(** [t.to_period('M').strftime('%Y-%m')] *)
Definition strftime_Ym (t : datetime) : string :=
  let (y, m) := ord2ym (toordinal t) in
  (zero_pad 4 y ++ "-" ++ zero_pad 2 m)%string.

End Datetime.

(** ** [float]: binary64 arithmetic

    The percentages of cohortRetentionAnalysis.py are computed on floats.
    No value of the scripts comes near [2^1024], so that the overflow to
    infinity is left out; the subnormal numbers are there. *)

Module Float64.

(** The significand has 53 bits; [emin] is the exponent of the least normal
    number. *)
Definition prec : Z := 53.
Definition emin : Z := -1022.

(** The nearest integer to [n / d], a tie going to the even neighbour. *)
Definition round_half_even (n d : Z) : Z :=
  let q := n / d in
  let r := n mod d in
  if 2 * r <? d then q
  else if d <? 2 * r then q + 1
  else if Z.even q then q else q + 1.

(** [rint]: the nearest integer, a tie going to the even one. *)
Definition rint (q : Q) : Z := round_half_even (Qnum q) (Zpos (Qden q)).

(** For [0 < q], the exponent [e] with [2^e <= q < 2^(e+1)]. *)
Definition floor_log2 (q : Q) : Z :=
  let e := Z.log2 (Qnum q) - Z.log2 (Zpos (Qden q)) in
  if Qle_bool (2 ^ e) q then e else e - 1.

(** The unit in the last place of the floats around [q]. *)
Definition ulp (q : Q) : Q := (2 ^ (Z.max (floor_log2 q) emin - (prec - 1)))%Q.

Definition round_pos (q : Q) : Q := (inject_Z (rint (q / ulp q)) * ulp q)%Q.

(** The float nearest to [q], as a reduced fraction. *)
Definition round (q : Q) : Q :=
  let q := Qred q in
  match (q ?= 0)%Q with
  | Eq => 0%Q
  | Gt => Qred (round_pos q)
  | Lt => Qred (- round_pos (- q))
  end.

(** [float(z)], [x / y] and [x * y]. *)
Definition of_int (z : Z) : Q := round (inject_Z z).
Definition div (x y : Q) : Q := round (x / y).
Definition mul (x y : Q) : Q := round (x * y).

(** [round(x, 2)] on a numpy [float64], which is [ndarray.round]: multiply
    by [10**2], [rint], divide by [10**2]. *)
Definition around2 (x : Q) : Q := div (inject_Z (rint (mul x 100))) 100.

End Float64.

(** ** Unit designators *)

(** The four cells [Squad], [Platoon], [Company], [Battalion] that
    [parse_unit] returns and that every event and membership row carries. *)
Record unit_fields : Type := mkUnit {
  Squad : option string;
  Platoon : option string;
  Company : option string;
  Battalion : option string
}.

Definition no_unit : unit_fields := mkUnit None None None None.

Definition option_eqb {A : Type} (eqb : A -> A -> bool) (x y : option A) : bool :=
  match x, y with
  | Some a, Some b => eqb a b
  | None, None => true
  | _, _ => false
  end.

Definition unit_eqb (u v : unit_fields) : bool :=
  option_eqb String.eqb (Squad u) (Squad v) &&
  option_eqb String.eqb (Platoon u) (Platoon v) &&
  option_eqb String.eqb (Company u) (Company v) &&
  option_eqb String.eqb (Battalion u) (Battalion v).

(** ** Input documents, events and memberships

    [extract_events] and [create_memberships] are the same text in
    [Milpacs/unitStrengthHistory.py] (lines 47-106) and in
    [cohortRetentionAnalysis.py] (lines 45-104); each script calls its own
    [parse_unit], which is the parameter of the section below. *)

(** One entry of a member's ["records"] list, read with
    [record["recordType"]], [record["recordDate"]] and
    [record["recordDetails"]].  The three keys are there and hold strings: an
    entry that lacks a key, or holds [null] under it (a [KeyError], a
    [TypeError] or an [AttributeError] in the scripts), is not a [record]. *)
Record record : Type := mkRecord {
  recordType : string;
  recordDate : string;
  recordDetails : string
}.

(** A member document; [records] is [None] when the key is missing. *)
Record document : Type := mkDocument {
  records : option (list record)
}.

Inductive event_tag : Type := transfer | discharge.

(** A row of [events_df]. *)
Record event_row : Type := mkEvent {
  date : Datetime.datetime;
  event : event_tag;
  fields : unit_fields
}.

(** A dict appended to [memberships]; [end_date] is [None] from the moment
    the dict is created until the statement that closes it. *)
Record membership : Type := mkMembership {
  start_date : Datetime.datetime;
  unit_of : unit_fields;
  end_date : option Datetime.datetime
}.

Definition set_end_date (m : membership) (e : Datetime.datetime) : membership :=
  mkMembership (start_date m) (unit_of m) (Some e).

(** The clock behind [datetime.now()]: [clk n] is what the [n]-th read
    returns.  Code that reads the clock gets the number of reads made so far
    and returns the new number. *)
Definition clock : Type := nat -> Datetime.datetime.

(** [sort_values('date')] followed by [reset_index(drop=True)]: rows in
    ascending date order.  Rows of one date are kept here in their order of
    arrival; pandas sorts with quicksort by default, which does not promise
    that order (it keeps it on short frames only).  The properties proved
    below rest on the dates of the sorted rows, on their order by date and
    on the rows being those of the input, not on the order of the rows of
    one date. *)
Fixpoint insert_by_date (e : event_row) (l : list event_row) : list event_row :=
  match l with
  | [] => [e]
  | x :: l' => if date e <=? date x then e :: l else x :: insert_by_date e l'
  end.

Definition sort_values_date (l : list event_row) : list event_row :=
  fold_right insert_by_date [] l.

Section Events.

Variable parse_unit : string -> result unit_fields.

(** The body of the [for record in ...] loop: the rows it appends. *)
Definition record_events (r : record) : result (list event_row) :=
  let record_type := recordType r in
  record_date <- Datetime.strptime (recordDate r) ;;
  let details := recordDetails r in
  if String.eqb record_type "RECORD_TYPE_TRANSFER" then
    let unit_str := Text.strip (last (Text.split "Assigned" details) "") in
    unit <- parse_unit unit_str ;;
    Ok [mkEvent record_date transfer unit]
  else if String.eqb record_type "RECORD_TYPE_DISCHARGE" then
    Ok [mkEvent record_date discharge no_unit]
  else Ok [].

Fixpoint extract_loop (rs : list record) (events : list event_row)
  : result (list event_row) :=
  match rs with
  | [] => Ok events
  | r :: rs' =>
      rows <- record_events r ;;
      extract_loop rs' (events ++ rows)
  end.

Definition extract_events (data : document) : result (list event_row) :=
  events <- extract_loop (match records data with Some rs => rs | None => [] end) [] ;;
  Ok (sort_values_date events).

End Events.

(** The state of the loop of [create_memberships]: the list [memberships]
    and [current_assignment]. *)
Definition builder : Type := (list membership * option membership)%type.

Definition create_step (st : builder) (ev : event_row) : builder :=
  let (memberships, current_assignment) := st in
  match event ev with
  | transfer =>
      let memberships :=
        match current_assignment with
        | Some c =>
            memberships ++ [set_end_date c (date ev - Datetime.timedelta 1)]
        | None => memberships
        end in
      (memberships, Some (mkMembership (date ev) (fields ev) None))
  | discharge =>
      match current_assignment with
      | Some c => (memberships ++ [set_end_date c (date ev)], None)
      | None => (memberships, None)
      end
  end.

Definition create_loop (events_df : list event_row) : builder :=
  fold_left create_step events_df ([], None).

(** [create_memberships] reads the clock once, after the loop, when an
    assignment is still open. *)
Definition create_memberships (clk : clock) (n : nat) (events_df : list event_row)
  : list membership * nat :=
  let (memberships, current_assignment) := create_loop events_df in
  match current_assignment with
  | Some c => (memberships ++ [set_end_date c (clk n)], S n)
  | None => (memberships, n)
  end.

(** ** [pandas]: the data-frame operations the scripts call

    A data frame is the list of its rows.  Timestamps are not bounded here
    (a [datetime64[ns]] column holds years 1678 to 2261 only). *)

Module Pandas.
Import Datetime.

(** [pd.date_range(start=s, end=e)]: [s], [s] + 1 day, ... up to [e]. *)
Definition date_range (s e : datetime) : list datetime :=
  if e <? s then []
  else map (fun k => s + timedelta (Z.of_nat k))
           (seq 0 (Z.to_nat ((e - s) / DAY) + 1)).

(** A unit none of whose four cells is null. *)
Definition notna (u : unit_fields) : bool :=
  match Squad u, Platoon u, Company u, Battalion u with
  | Some _, Some _, Some _, Some _ => true
  | _, _, _, _ => false
  end.

Definition lex (c1 c2 : comparison) : comparison :=
  match c1 with Eq => c2 | _ => c1 end.

Definition cell_compare (x y : option string) : comparison :=
  match x, y with
  | Some a, Some b => String.compare a b
  | None, None => Eq
  | None, Some _ => Gt
  | Some _, None => Lt
  end.

(** The column order of both [groupby] calls: Battalion, Company, Platoon,
    Squad. *)
Definition unit_compare (u v : unit_fields) : comparison :=
  lex (cell_compare (Battalion u) (Battalion v))
   (lex (cell_compare (Company u) (Company v))
     (lex (cell_compare (Platoon u) (Platoon v))
          (cell_compare (Squad u) (Squad v)))).

Definition leb_of {A : Type} (cmp : A -> A -> comparison) (x y : A) : bool :=
  match cmp x y with Gt => false | _ => true end.

Section Frames.

Context {R K : Type}.
Variable key : R -> K.
Variable key_eqb : K -> K -> bool.
Variable key_leb : K -> K -> bool.

Fixpoint insert_sorted (k : K) (l : list K) : list K :=
  match l with
  | [] => [k]
  | x :: l' => if key_leb k x then k :: l else x :: insert_sorted k l'
  end.

Definition sort_keys (l : list K) : list K := fold_right insert_sorted [] l.

Fixpoint unique (l : list K) : list K :=
  match l with
  | [] => []
  | k :: l' => if existsb (key_eqb k) l' then unique l' else k :: unique l'
  end.

(** [df.groupby(keys)] with the defaults [sort=True], [dropna=True], applied
    to rows whose key has no null cell: the distinct keys in ascending
    order, each with its rows in frame order. *)
Definition groupby (rows : list R) : list (K * list R) :=
  map (fun k => (k, filter (fun r => key_eqb (key r) k) rows))
      (sort_keys (unique (map key rows))).

End Frames.

End Pandas.

(** ** [Milpacs/unitStrengthHistory.py]: unit parsing *)

Module UnitStrengthHistory.
Import Text.

(** [ord(s)]: a [TypeError] unless [s] has exactly one character. *)
Definition ord_str (s : string) : result Z :=
  match s with
  | String c EmptyString => Ok (ord c)
  | _ => Raise TypeError
  end.

Definition normalize_squad (squad : option string) : result (option string) :=
  match squad with
  | None => Ok None
  | Some squad =>
      if isalpha squad then
        c <- ord_str (upper squad) ;;
        Ok (Some (str_of_Z (c - ord "A" + 1)))
      else Ok (Some squad)
  end.

Definition safe_extract (pattern : string -> list string) (text : string)
  : option string :=
  match pattern text with
  | m :: _ => Some m
  | [] => None
  end.

Definition parse_unit (title : string) : result unit_fields :=
  let parts := split_char "/" title in
  squad <- normalize_squad
             (if (0 <? List.length parts)%nat
              then safe_extract Re.squad_pattern (nth 0 parts "")
              else None) ;;
  let platoon := if (1 <? List.length parts)%nat
                 then safe_extract Re.platoon_pattern (nth 1 parts "") else None in
  let company := if (2 <? List.length parts)%nat
                 then safe_extract Re.company_pattern (nth 2 parts "") else None in
  let battalion := if (3 <? List.length parts)%nat
                   then safe_extract Re.battalion_pattern (nth 3 parts "") else None in
  Ok (mkUnit squad platoon company battalion).

Definition extract_events : document -> result (list event_row) :=
  extract_events parse_unit.

(** A dict appended to [daily_strength]: a date and the four unit cells. *)
Definition daily_key : Type := (Datetime.datetime * unit_fields)%type.

Definition daily_key_eqb (a b : daily_key) : bool :=
  (fst a =? fst b) && unit_eqb (snd a) (snd b).

Definition daily_key_compare (a b : daily_key) : comparison :=
  Pandas.lex (fst a ?= fst b) (Pandas.unit_compare (snd a) (snd b)).

(** A row of the daily strength table. *)
Record strength_row : Type := mkStrength {
  s_date : Datetime.datetime;
  s_unit : unit_fields;
  strength : Z
}.

(** The rows one membership adds to [daily_strength]; [pd.date_range]
    raises a [ValueError] when the end is [NaT]. *)
Definition membership_days (row : membership) : result (list daily_key) :=
  match end_date row with
  | Some e =>
      Ok (map (fun d => (d, unit_of row)) (Pandas.date_range (start_date row) e))
  | None => Raise ValueError
  end.

Fixpoint expand_days (memberships_df : list membership) (daily_strength : list daily_key)
  : result (list daily_key) :=
  match memberships_df with
  | [] => Ok daily_strength
  | row :: rest =>
      days <- membership_days row ;;
      expand_days rest (daily_strength ++ days)
  end.

Definition strength_row_leb (a b : strength_row) : bool :=
  Pandas.leb_of daily_key_compare (s_date a, s_unit a) (s_date b, s_unit b).

(** [groupby] looks the key columns up by name: a [KeyError] when
    [daily_strength] is empty, the frame built from it having no column. *)
Definition calculate_daily_strength (memberships_df : list membership)
  : result (list strength_row) :=
  daily_strength <- expand_days memberships_df [] ;;
  match daily_strength with
  | [] => Raise KeyError
  | _ :: _ =>
      let daily_strength_df := filter (fun k => Pandas.notna (snd k)) daily_strength in
      let daily_unit_strength :=
        map (fun g => mkStrength (fst (fst g)) (snd (fst g))
                                 (Z.of_nat (List.length (snd g))))
            (Pandas.groupby (fun k => k) daily_key_eqb
               (Pandas.leb_of daily_key_compare) daily_strength_df) in
      Ok (Pandas.sort_keys strength_row_leb daily_unit_strength)
  end.

(** The loop of [main] over the documents of the input folder, in listing
    order; [n] counts the reads of the clock. *)
Fixpoint main_loop (clk : clock) (n : nat) (files : list document)
         (all_memberships : list (list membership))
  : result (list (list membership)) :=
  match files with
  | [] => Ok all_memberships
  | data :: files' =>
      events_df <- extract_events data ;;
      match events_df with
      | [] => main_loop clk n files' all_memberships
      | _ :: _ =>
          let (memberships_df, n') := create_memberships clk n events_df in
          main_loop clk n' files' (all_memberships ++ [memberships_df])
      end
  end.

(** [main]: the table written to the CSV file, [None] when the run stops at
    "No relevant records found". *)
Definition main (clk : clock) (files : list document)
  : result (option (list strength_row)) :=
  all_memberships <- main_loop clk 0 files [] ;;
  match all_memberships with
  | [] => Ok None
  | _ :: _ =>
      daily_unit_strength <- calculate_daily_strength (List.concat all_memberships) ;;
      Ok (Some daily_unit_strength)
  end.

End UnitStrengthHistory.

(** ** [cohortRetentionAnalysis.py]: unit parsing *)

Module CohortRetentionAnalysis.
Import Text.

Definition normalize_squad (squad : option string) : option string :=
  match squad with
  | None => None
  | Some squad =>
      let squad := upper (strip squad) in
      if (String.length squad =? 1)%nat && isalpha squad then
        match squad with
        | String c _ => Some (str_of_Z (ord c - ord "A" + 1))
        | EmptyString => None
        end
      else if isdigit squad then Some squad
      else None
  end.

(** [next(iter(l), None)] *)
Definition next_iter {A : Type} (l : list A) : option A :=
  match l with
  | x :: _ => Some x
  | [] => None
  end.

(** [parts[0]] is read without a length test; [str.split] never returns an
    empty list, so the [IndexError] branch is the one of Python's indexing. *)
Definition parse_unit (title : string) : result unit_fields :=
  let parts := split_char "/" title in
  p0 <- match parts with p :: _ => Ok p | [] => Raise IndexError end ;;
  let squad := normalize_squad (next_iter (Re.squad_pattern p0)) in
  let platoon := if (1 <? List.length parts)%nat
                 then next_iter (Re.platoon_pattern (nth 1 parts "")) else None in
  let company := if (2 <? List.length parts)%nat
                 then next_iter (Re.company_pattern (nth 2 parts "")) else None in
  let battalion := if (3 <? List.length parts)%nat
                   then next_iter (Re.battalion_pattern (nth 3 parts "")) else None in
  Ok (mkUnit squad platoon company battalion).

Definition extract_events : document -> result (list event_row) :=
  extract_events parse_unit.

Definition assign_cohort (join_date : Datetime.datetime) : string :=
  Datetime.strftime_Ym join_date.

(** The key of [groupby(['cohort', 'Battalion', 'Company', 'Platoon',
    'Squad'])]. *)
Definition cohort_key : Type := (string * unit_fields)%type.

Definition cohort_key_of (m : membership) : cohort_key :=
  (assign_cohort (start_date m), unit_of m).

Definition cohort_key_eqb (a b : cohort_key) : bool :=
  String.eqb (fst a) (fst b) && unit_eqb (snd a) (snd b).

Definition cohort_key_compare (a b : cohort_key) : comparison :=
  Pandas.lex (String.compare (fst a) (fst b)) (Pandas.unit_compare (snd a) (snd b)).

(** [round((retained / cohort_info['Total Members']) * 100, 2)].  [retained]
    is a Python [int] and ['Total Members'] a numpy integer
    ([Series.count()]), so that the quotient, the product and the rounding
    are those of numpy [float64] scalars.  (No group is empty: the division
    by zero does not arise.) *)
Definition percentage (retained total : Z) : Q :=
  Float64.around2
    (Float64.mul (Float64.div (Float64.of_int retained) (Float64.of_int total)) 100).

(** [d[k] = v] on a dict kept as the list of its items in insertion order. *)
Fixpoint dict_set (d : list (Z * Q)) (k : Z) (v : Q) : list (Z * Q) :=
  match d with
  | [] => [(k, v)]
  | (k', v') :: d' => if k' =? k then (k, v) :: d' else (k', v') :: dict_set d' k v
  end.

(** A dict appended to [cohorts]; [Retention] holds the entries
    ['Retention @ H days'], keyed by [H]. *)
Record cohort_info : Type := mkCohort {
  Cohort : string;
  c_unit : unit_fields;
  Total_Members : Z;
  Retention : list (Z * Q)
}.

(** [group['start_date'].min()] *)
Definition min_start (group : list membership) : Datetime.datetime :=
  match group with
  | [] => 0
  | m :: group' => fold_left Z.min (map start_date group') (start_date m)
  end.

(** [group[group['end_date'] >= check_date].shape[0]]; a comparison with
    [NaT] is false. *)
Definition retained_at (group : list membership) (check_date : Datetime.datetime) : Z :=
  Z.of_nat (List.length
    (filter (fun m => match end_date m with
                      | Some e => check_date <=? e
                      | None => false
                      end) group)).

Definition cohort_row (intervals : list Z) (k : cohort_key) (group : list membership)
  : cohort_info :=
  let total := Z.of_nat (List.length group) in
  mkCohort (fst k) (snd k) total
    (fold_left
       (fun d interval =>
          let check_date := min_start group + Datetime.timedelta interval in
          let retained := retained_at group check_date in
          dict_set d interval (percentage retained total))
       intervals []).

Definition default_intervals : list Z := [30; 90; 180; 365].

(** The column ['start_date'] is looked up by name: a [KeyError] on the
    frame without columns that [pd.concat] returns when no member has a
    membership. *)
Definition calculate_retention (memberships_df : list membership) (intervals : list Z)
  : result (list cohort_info) :=
  match memberships_df with
  | [] => Raise KeyError
  | _ :: _ =>
      let grouped :=
        Pandas.groupby cohort_key_of cohort_key_eqb
          (Pandas.leb_of cohort_key_compare)
          (filter (fun m => Pandas.notna (unit_of m)) memberships_df) in
      Ok (map (fun g => cohort_row intervals (fst g) (snd g)) grouped)
  end.

Fixpoint main_loop (clk : clock) (n : nat) (files : list document)
         (all_memberships : list (list membership))
  : result (list (list membership)) :=
  match files with
  | [] => Ok all_memberships
  | data :: files' =>
      events_df <- extract_events data ;;
      match events_df with
      | [] => main_loop clk n files' all_memberships
      | _ :: _ =>
          let (memberships_df, n') := create_memberships clk n events_df in
          main_loop clk n' files' (all_memberships ++ [memberships_df])
      end
  end.

(** [main]: the table written to the CSV file; [pd.concat] of an empty list
    is a [ValueError]. *)
Definition main (clk : clock) (files : list document) : result (list cohort_info) :=
  all_memberships <- main_loop clk 0 files [] ;;
  match all_memberships with
  | [] => Raise ValueError
  | _ :: _ => calculate_retention (List.concat all_memberships) default_intervals
  end.

End CohortRetentionAnalysis.

(** ** [CohortMovementTracker.py]: cohort labels *)

Module CohortMovementTracker.
Import Text.

Definition letter_map : list (string * string) :=
  [("A", "1"); ("B", "2"); ("C", "3"); ("D", "4"); ("E", "5");
   ("F", "6"); ("G", "7"); ("H", "8"); ("I", "9")].

(** [d.get(k, default)] *)
Fixpoint dict_get (d : list (string * string)) (k default : string) : string :=
  match d with
  | [] => default
  | (k', v) :: d' => if String.eqb k k' then v else dict_get d' k default
  end.

Definition convert_letter_to_number (letter : string) : string :=
  dict_get letter_map letter letter.

Definition normalize_cohort_format (cohort : string) : string :=
  let cohort := remove_char "," cohort in
  if Re.match_classes Re.boot_camp_pattern cohort then "Boot Camp"
  else
    let parts := split_char "/" cohort in
    let parts :=
      match parts with
      | p0 :: rest =>
          if contains p0 "ABCDEFGHI"
          then convert_letter_to_number p0 :: rest
          else parts
      | [] => parts
      end in
    if (1 <? List.length parts)%nat then String.concat "/" parts else "Unknown".

(** A dict appended to [movements]. *)
Record movement : Type := mkMovement {
  m_date : Datetime.datetime;
  cohort : string
}.

(** [sorted(movements, key=lambda x: x["date"])]: ascending dates, the
    movements of one date in their order in the list ([sorted] is stable). *)
Fixpoint insert_movement (x : movement) (l : list movement) : list movement :=
  match l with
  | [] => [x]
  | y :: l' => if m_date x <=? m_date y then x :: l else y :: insert_movement x l'
  end.

Definition sorted_by_date (l : list movement) : list movement :=
  fold_right insert_movement [] l.

(** [next((word for word in words if "/" in word), "Unknown")] *)
Definition first_slash_word (words : list string) : string :=
  match find (fun word => contains "/" word) words with
  | Some word => word
  | None => "Unknown"
  end.

(** The body of the loop of [extract_cohort_movements]: the movements it
    appends for one record. *)
Definition record_movements (r : record) : result (list movement) :=
  date <- Datetime.strptime (recordDate r) ;;
  if String.eqb (recordType r) "RECORD_TYPE_TRANSFER" then
    let details := recordDetails r in
    let words := split_words details in
    let cohort_group := first_slash_word words in
    let cohort_group := normalize_cohort_format cohort_group in
    Ok [mkMovement date cohort_group]
  else if String.eqb (recordType r) "RECORD_TYPE_DISCHARGE" then
    let details := lower (recordDetails r) in
    let cohort_group :=
      if contains "retired" details then "Retired" else "Discharged" in
    Ok [mkMovement date cohort_group]
  else Ok [].

Fixpoint movements_loop (rs : list record) (movements : list movement)
  : result (list movement) :=
  match rs with
  | [] => Ok movements
  | r :: rs' =>
      rows <- record_movements r ;;
      movements_loop rs' (movements ++ rows)
  end.

Definition extract_cohort_movements (user_data : document) : result (list movement) :=
  movements <-
    movements_loop (match records user_data with Some rs => rs | None => [] end) [] ;;
  Ok (sorted_by_date movements).

End CohortMovementTracker.

(** * Notions used to state the properties *)

Module Shapes.
Import Text.

(** A text that is, from its first to its last character, three groups of
    digits [ddd/dd/dd]. *)
Definition three_group_numeric (t : string) : Prop :=
  exists a b c d e f g,
    is_digit a = true /\ is_digit b = true /\ is_digit c = true /\
    is_digit d = true /\ is_digit e = true /\
    is_digit f = true /\ is_digit g = true /\
    t = String a (String b (String c (String "/"
          (String d (String e (String "/" (String f (String g ""))))))))%string.





(** The date string of a record is accepted by [strptime]. *)
Definition date_parses (r : record) : Prop :=
  exists d, Datetime.strptime (recordDate r) = Ok d.

(** A record that [extract_events] turns into an event. *)
Definition is_event_record (r : record) : bool :=
  String.eqb (recordType r) "RECORD_TYPE_TRANSFER"
  || String.eqb (recordType r) "RECORD_TYPE_DISCHARGE".

(** Two memberships that follow each other in the output of
    [create_memberships]: the later does not start before the earlier, and
    the earlier either ends one day before the later starts or ends, not
    before its own start, on a date up to the later start. *)
Definition consecutive (m1 m2 : membership) : Prop :=
  start_date m1 <= start_date m2 /\
  (end_date m1 = Some (start_date m2 - Datetime.DAY) \/
   exists e, end_date m1 = Some e /\ start_date m1 <= e <= start_date m2).

(** The earlier membership is a non-empty span that ends before the later
    one starts. *)
Definition ends_before (m1 m2 : membership) : Prop :=
  exists e, end_date m1 = Some e /\ start_date m1 <= e < start_date m2.

(** The end date of a membership is there and is not before its start
    date. *)
Definition ends_after_start (m : membership) : Prop :=
  exists e, end_date m = Some e /\ start_date m <= e.

(** [m] was opened by the last event of [events], a transfer, and was still
    open when the events ran out: its end date is the clock reading
    [now]. *)
Definition closed_by_clock (now : Datetime.datetime) (events : list event_row)
           (m : membership) : Prop :=
  end_date m = Some now /\
  exists earlier ev,
    events = earlier ++ [ev] /\ event ev = transfer /\ start_date m = date ev.

(** Events in date order, and events that are a day or more apart. *)
Definition date_ordered (a b : event_row) : Prop := date a <= date b.
Definition days_apart (a b : event_row) : Prop := date a + Datetime.DAY <= date b.

(** [follows g m1 s2]: a membership that starts on [s2] may come right
    after [m1] when successive events are [g] or more apart. *)
Definition follows (g : Z) (m1 : membership) (s2 : Datetime.datetime) : Prop :=
  start_date m1 + g <= s2 /\
  (end_date m1 = Some (s2 - Datetime.DAY) \/
   exists e, end_date m1 = Some e /\ start_date m1 <= e /\ e + g <= s2).

Definition chained (g : Z) (m1 m2 : membership) : Prop :=
  follows g m1 (start_date m2).

(** What holds of [memberships] and [current_assignment] between two
    events, the next event being dated [lo] or later. *)
Definition invariant (g lo : Z) (st : builder) : Prop :=
  Sorted (chained g) (fst st) /\
  match snd st with
  | Some c =>
      start_date c + g <= lo /\
      forall l' m, fst st = l' ++ [m] -> follows g m (start_date c)
  | None =>
      forall l' m, fst st = l' ++ [m] ->
        exists e, end_date m = Some e /\ start_date m <= e /\ e + g <= lo
  end.

Definition gap_ordered (g : Z) (a b : event_row) : Prop := date a + g <= date b.

(** [D] is one of the dates [pd.date_range] lists for a membership: it lies
    between the start and the end, a whole number of days after the start. *)
Definition covers (m : membership) (D : Datetime.datetime) : bool :=
  match end_date m with
  | Some e =>
      (start_date m <=? D) && (D <=? e)
      && ((D - start_date m) mod Datetime.DAY =? 0)
  | None => false
  end.

(** The inclusive span from the start date to the end date holds [D]. *)
Definition span_contains (m : membership) (D : Datetime.datetime) : bool :=
  match end_date m with
  | Some e => (start_date m <=? D) && (D <=? e)
  | None => false
  end.

(** The number of memberships of unit [U] whose span holds [D]. *)
Definition strength_at (ms : list membership) (D : Datetime.datetime) (U : unit_fields)
  : Z :=
  Z.of_nat (List.length
    (filter (fun m => unit_eqb (unit_of m) U && span_contains m D) ms)).

Definition starts_at_midnight (m : membership) : Prop :=
  Datetime.midnight (start_date m) = true.

Definition has_end (m : membership) : Prop := end_date m <> None.

(** The memberships of a group that are retained at [check_date] in the
    words of the specification: the end date is absent, or it is
    [check_date] or later. *)
Definition retained_spec (group : list membership) (check_date : Datetime.datetime)
  : Z :=
  Z.of_nat (List.length
    (filter (fun m => match end_date m with
                      | Some e => check_date <=? e
                      | None => true
                      end) group)).

(** The memberships of a group that have no end date. *)
Definition without_end (group : list membership) : Z :=
  Z.of_nat (List.length
    (filter (fun m => match end_date m with
                      | Some _ => false
                      | None => true
                      end) group)).

(** The percentage in the words of the specification,
    [round(100 * retained / total, 2)]: the exact quotient, rounded to
    hundredths (a tie going to the even neighbour, as [round] does). *)
Definition percentage_exact (retained total : Z) : Q :=
  Float64.round_half_even (100 * retained * 100) total # 100.

(** The quotient of two integers in the Standard Library's specification
    of IEEE 754 arithmetic ([SpecFloat], binary64: 53 bits, [emax] 1024), as
    a reduced fraction; [None] for an infinity or a NaN. *)
Definition ieee_of_Z (z : Z) : spec_float :=
  match z with
  | Z0 => S754_zero false
  | _ => binary_normalize 53 1024 z 0 false
  end.

Definition ieee_value (x : spec_float) : option Q :=
  match x with
  | S754_zero _ => Some 0%Q
  | S754_finite s m e =>
      Some (Qred ((if s then -1 else 1) * inject_Z (Zpos m) * 2 ^ e))%Q
  | _ => None
  end.

Definition ieee_div (a b : Z) : option Q :=
  ieee_value (SFdiv 53 1024 (ieee_of_Z a) (ieee_of_Z b)).

(** [s] is the earliest start date of the group. *)
Definition earliest (group : list membership) (s : Datetime.datetime) : Prop :=
  In s (map start_date group) /\ forall m, In m group -> s <= start_date m.

(** [p] is [exact] moved by half a hundredth at most, up to the error of the
    float operations. *)
Definition tolerance : Q := (1 # 200) + (1 # 1000000000000).

Definition near (p exact : Q) : Prop :=
  (exact - tolerance <= p)%Q /\ (p <= exact + tolerance)%Q.

(** The events that [extract] finds in a document do not end with an open
    assignment: [create_memberships] will not read the clock for it. *)
Definition closed_member (extract : document -> result (list event_row))
  (d : document) : Prop :=
  forall evs, extract d = Ok evs -> snd (create_loop evs) = None.

(** The number of occurrences of the character [x] in [s]. *)
Fixpoint count_char (x : ascii) (s : string) : nat :=
  match s with
  | EmptyString => O
  | String c s' => if Ascii.eqb c x then S (count_char x s') else count_char x s'
  end.

(** What a field of [parse_unit] may hold: nothing, or a text of the shape
    the pattern of the field finds. *)
Definition squad_shape (v : option string) : Prop :=
  v = None \/
  exists c, (is_upper c = true /\ v = Some (str_of_Z (ord c - 64))) \/
            (is_digit c = true /\ v = Some (String c "")).

Definition one_char_shape (cls : ascii -> bool) (v : option string) : Prop :=
  v = None \/ exists c, cls c = true /\ v = Some (String c "").

Definition battalion_shape (v : option string) : Prop :=
  v = None \/ exists b, In b Re.battalions /\ v = Some b.

(** Transfer events, and what a transfer and a membership say about the
    start of an assignment: its date and its unit. *)
Definition is_transfer (ev : event_row) : bool :=
  match event ev with transfer => true | discharge => false end.

Definition opening (ev : event_row) : Datetime.datetime * unit_fields :=
  (date ev, fields ev).

Definition opened (m : membership) : Datetime.datetime * unit_fields :=
  (start_date m, unit_of m).

(** The part of the state of the loop of [create_memberships] that is still
    to be emitted. *)
Definition pending (current_assignment : option membership) : list membership :=
  match current_assignment with
  | Some c => [c]
  | None => []
  end.

(** Where the end date of a membership comes from: the transfer that opens
    the next one, a discharge, or the clock. *)
Definition end_from (events : list event_row) (now : Datetime.datetime)
  (m : membership) : Prop :=
  end_date m = Some now \/
  exists ev, In ev events /\
    ((event ev = transfer /\ end_date m = Some (date ev - Datetime.DAY)) \/
     (event ev = discharge /\ end_date m = Some (date ev))).

(** Events that are all discharges: they open no assignment. *)
Definition only_discharges (evs : list event_row) : Prop :=
  Forall (fun ev => event ev = discharge) evs.

Definition event_at_midnight (ev : event_row) : Prop :=
  Datetime.midnight (date ev) = true.

(** Rows in the order of [sort_values]: each row is followed by a row that
    is not smaller. *)
Definition rows_ascending (table : list UnitStrengthHistory.strength_row) : Prop :=
  Sorted (fun a b => UnitStrengthHistory.strength_row_leb a b = true) table.

Definition row_key (r : UnitStrengthHistory.strength_row)
  : UnitStrengthHistory.daily_key :=
  (UnitStrengthHistory.s_date r, UnitStrengthHistory.s_unit r).

(** The sum of the [strength] column. *)
Definition total_strength (table : list UnitStrengthHistory.strength_row) : Z :=
  fold_right Z.add 0 (map UnitStrengthHistory.strength table).

(** The number of days [pd.date_range] lists for the memberships of units
    with their four fields. *)
Definition member_days (ms : list membership) : Z :=
  fold_right Z.add 0
    (map (fun m =>
            if Pandas.notna (unit_of m) then
              match end_date m with
              | Some e => Z.of_nat (List.length (Pandas.date_range (start_date m) e))
              | None => 0
              end
            else 0) ms).

(** A comparison that answers the opposite when its arguments are
    exchanged. *)
Definition antisymmetric {A : Type} (cmp : A -> A -> comparison) : Prop :=
  forall x y, cmp y x = CompOpp (cmp x y).

(** The sum of the [Total Members] column. *)
Definition total_members (table : list CohortRetentionAnalysis.cohort_info) : Z :=
  fold_right Z.add 0 (map CohortRetentionAnalysis.Total_Members table).

Definition cohort_row_key (r : CohortRetentionAnalysis.cohort_info)
  : CohortRetentionAnalysis.cohort_key :=
  (CohortRetentionAnalysis.Cohort r, CohortRetentionAnalysis.c_unit r).

(** The memberships that [calculate_retention] puts in the group of a row. *)
Definition in_group (ms : list membership) (row : CohortRetentionAnalysis.cohort_info)
  (m : membership) : Prop :=
  In m ms /\
  CohortRetentionAnalysis.assign_cohort (start_date m)
    = CohortRetentionAnalysis.Cohort row /\
  unit_of m = CohortRetentionAnalysis.c_unit row.

(** The group of a row as a list: the memberships of units with their four
    fields that have the cohort and the unit of the row, in their order. *)
Definition members_of (ms : list membership) (row : CohortRetentionAnalysis.cohort_info)
  : list membership :=
  filter (fun m =>
            String.eqb (CohortRetentionAnalysis.assign_cohort (start_date m))
                       (CohortRetentionAnalysis.Cohort row)
            && unit_eqb (unit_of m) (CohortRetentionAnalysis.c_unit row))
         (filter (fun m => Pandas.notna (unit_of m)) ms).

(** What a cohort label of a movement may be. *)
Definition label_shape (c : string) : Prop :=
  c = "Retired" \/ c = "Discharged" \/ c = "Boot Camp" \/ c = "Unknown" \/
  contains "/" c = true.

Definition movement_ordered (a b : CohortMovementTracker.movement) : Prop :=
  CohortMovementTracker.m_date a <= CohortMovementTracker.m_date b.

(** The movements of a list that are dated [d], in the order of the list. *)
Definition movements_on (d : Datetime.datetime)
  (l : list CohortMovementTracker.movement) : list CohortMovementTracker.movement :=
  filter (fun x => CohortMovementTracker.m_date x =? d) l.

(** The records of a document ([data.get("records", [])]), and documents
    whose record dates all parse, or not. *)
Definition records_of (d : document) : list record :=
  match records d with Some rs => rs | None => [] end.

Definition dates_parse (d : document) : Prop := Forall date_parses (records_of d).

Definition bad_date (d : document) : Prop :=
  Exists (fun r => ~ date_parses r) (records_of d).

(** What holds of every membership that [main] hands to the aggregation. *)
Definition well_formed (m : membership) : Prop :=
  starts_at_midnight m /\ has_end m.

End Shapes.

(** * Sample inputs *)

Module Samples.
Import Datetime.

(** Midnight of a calendar day. *)
Definition day (y m d : Z) : datetime := ymd2ord y m d * DAY.

(** Clocks that stand still, at 14:30 on 2023-06-01 and on 2023-06-02. *)
Definition clock_06_01 : clock := fun _ => day 2023 6 1 + 52200000000.
Definition clock_06_02 : clock := fun _ => day 2023 6 2 + 52200000000.

Definition unit_2_3_B : unit_fields :=
  mkUnit (Some "2") (Some "3") (Some "B") (Some "2-7").
Definition unit_1_1_A : unit_fields :=
  mkUnit (Some "1") (Some "1") (Some "A") (Some "2-7").
(** ["S3 Staff"] as [parse_unit] reads it. *)
Definition unit_staff : unit_fields := no_unit.

(** A member with a transfer, a second transfer and a discharge. *)
Definition doc_closed : document := mkDocument (Some [
  mkRecord "RECORD_TYPE_TRANSFER" "2023-01-01" "Assigned 2/3/B/2-7";
  mkRecord "RECORD_TYPE_TRANSFER" "2023-02-01" "Reassigned; Assigned 1/1/A/2-7";
  mkRecord "RECORD_TYPE_DISCHARGE" "2023-03-01" "Retired"]).

(** A member with a single transfer, still assigned. *)
Definition doc_open : document := mkDocument (Some [
  mkRecord "RECORD_TYPE_TRANSFER" "2023-05-30" "Assigned 2/3/B/2-7"]).

(** A member whose first record carries a date in another format. *)
Definition doc_bad_date : document := mkDocument (Some [
  mkRecord "RECORD_TYPE_TRANSFER" "01/02/2023" "Assigned 2/3/B/2-7";
  mkRecord "RECORD_TYPE_TRANSFER" "2023-02-01" "Assigned 1/1/A/2-7"]).


(** Two transfers on one day. *)
Definition events_same_day : list event_row :=
  [mkEvent (day 2023 1 1) transfer unit_2_3_B;
   mkEvent (day 2023 1 1) transfer unit_1_1_A].

(** A transfer, a discharge a month later, a transfer a month after that. *)
Definition events_rejoin : list event_row :=
  [mkEvent (day 2023 1 1) transfer unit_2_3_B;
   mkEvent (day 2023 2 1) discharge no_unit;
   mkEvent (day 2023 3 1) transfer unit_1_1_A].

(** Two transfers and a discharge, a month apart. *)
Definition events_closed : list event_row :=
  [mkEvent (day 2023 1 1) transfer unit_2_3_B;
   mkEvent (day 2023 2 1) transfer unit_1_1_A;
   mkEvent (day 2023 3 1) discharge no_unit].

(** A clock that stands still at 14:30 on 2024-06-01. *)
Definition clock_2024 : clock := fun _ => day 2024 6 1 + 52200000000.

(** A membership of three days in a unit that [parse_unit] could not read,
    and one in a unit it could. *)
Definition membership_unknown : membership :=
  mkMembership (day 2023 1 1) unit_staff (Some (day 2023 1 3)).
Definition membership_known : membership :=
  mkMembership (day 2023 1 2) unit_2_3_B (Some (day 2023 1 3)).

(** Two members who joined a unit in January 2023: one left in February,
    the other is still there on 2023-06-01. *)
Definition cohort_of_two : list membership :=
  [mkMembership (day 2023 1 1) unit_2_3_B (Some (day 2023 2 15));
   mkMembership (day 2023 1 10) unit_2_3_B (Some (clock_06_01 0%nat))].

(** A membership with no end date. *)
Definition membership_open : membership :=
  mkMembership (day 2023 1 1) unit_2_3_B None.

(** 160 members who joined a unit on one day; 23 of them are still there
    after 30 days. *)
Definition cohort_of_160 : list membership :=
  repeat (mkMembership (day 2023 1 1) unit_2_3_B (Some (day 2023 6 1))) 23
  ++ repeat (mkMembership (day 2023 1 1) unit_2_3_B (Some (day 2023 1 15))) 137.

(** A document with no ["records"] key, and one whose only record is of a
    type the scripts do not read. *)
Definition doc_no_records : document := mkDocument None.
Definition doc_other_type : document := mkDocument (Some [
  mkRecord "RECORD_TYPE_PROMOTION" "2023-01-01" "Promoted to Corporal"]).

(** A member with a discharge and no transfer. *)
Definition doc_discharge_only : document := mkDocument (Some [
  mkRecord "RECORD_TYPE_DISCHARGE" "2023-03-01" "General discharge"]).

End Samples.

(** * Proofs *)

(** ** Characters and strings *)

Module TextFacts.
Import Text Shapes.


Lemma digit_is_word c : is_digit c = true -> is_word c = true.
Proof. unfold is_word. intros ->. now rewrite orb_true_r. Qed.

Lemma digit_not_upper c : is_digit c = true -> is_upper c = false.
Proof. unfold is_digit, is_upper. intros H. apply andb_true_iff in H as [H1 H2].
  apply Z.leb_le in H2. apply andb_false_iff. left. apply Z.leb_gt. lia. Qed.

Lemma digit_not_lower c : is_digit c = true -> is_lower c = false.
Proof. unfold is_digit, is_lower. intros H. apply andb_true_iff in H as [H1 H2].
  apply Z.leb_le in H2. apply andb_false_iff. left. apply Z.leb_gt. lia. Qed.

Lemma digit_not_alpha c : is_digit c = true -> is_alpha c = false.
Proof. intros H. unfold is_alpha. now rewrite digit_not_upper, digit_not_lower. Qed.

Lemma digit_not_space c : is_digit c = true -> is_space c = false.
Proof. unfold is_digit, is_space. intros H. apply andb_true_iff in H as [H1 H2].
  apply Z.leb_le in H1. apply orb_false_iff. split; apply andb_false_iff; right; apply Z.leb_gt; lia. Qed.

Lemma ord_inj c d : ord c = ord d -> c = d.
Proof. unfold ord. intros H. apply N2Z.inj in H.
  rewrite <- (ascii_N_embedding c), <- (ascii_N_embedding d). now rewrite H. Qed.

Lemma digit_not_slash c : is_digit c = true -> Ascii.eqb c "/" = false.
Proof. intros H. apply Ascii.eqb_neq. intros ->. discriminate H. Qed.

Lemma digit_upper c : is_digit c = true -> to_upper c = c.
Proof. intros H. unfold to_upper. now rewrite digit_not_lower. Qed.

Lemma all_digits_upper s : all_chars is_digit s = true -> upper s = s.
Proof.
  induction s as [|c s IH]; simpl; intros H; [reflexivity|].
  apply andb_true_iff in H as [Hc Hs].
  unfold upper in *. simpl. now rewrite (digit_upper c Hc), IH.
Qed.

Lemma all_digits_rstrip s : all_chars is_digit s = true -> rstrip s = s.
Proof.
  induction s as [|c s IH]; simpl; intros H; [reflexivity|].
  apply andb_true_iff in H as [Hc Hs].
  rewrite (IH Hs). destruct s; [now rewrite (digit_not_space c Hc)|reflexivity].
Qed.

Lemma isdigit_strip s : isdigit s = true -> strip s = s.
Proof.
  unfold isdigit, strip. intros H. apply andb_true_iff in H as [_ H].
  destruct s as [|c s]; [reflexivity|].
  simpl in H. apply andb_true_iff in H as [Hc Hs].
  cbn [lstrip]. rewrite (digit_not_space c Hc).
  apply all_digits_rstrip. simpl. now rewrite Hc, Hs.
Qed.

Lemma isdigit_not_isalpha s : isdigit s = true -> isalpha s = false.
Proof.
  unfold isdigit, isalpha. destruct s as [|c s]; [discriminate|]. simpl.
  intros H. apply andb_true_iff in H as [Hc _]. now rewrite (digit_not_alpha c Hc).
Qed.

Lemma isdigit_upper s : isdigit s = true -> upper s = s.
Proof. unfold isdigit. intros H. apply andb_true_iff in H as [_ H]. now apply all_digits_upper. Qed.

Lemma digits_pass_cra s :
  isdigit s = true -> CohortRetentionAnalysis.normalize_squad (Some s) = Some s.
Proof.
  intros H. unfold CohortRetentionAnalysis.normalize_squad.
  rewrite (isdigit_strip s H), (isdigit_upper s H), (isdigit_not_isalpha s H), H.
  now rewrite andb_false_r.
Qed.

Lemma digits_pass_ush s :
  isdigit s = true -> UnitStrengthHistory.normalize_squad (Some s) = Ok (Some s).
Proof.
  intros H. unfold UnitStrengthHistory.normalize_squad.
  now rewrite (isdigit_not_isalpha s H).
Qed.

Lemma single_letter_both c :
  is_alpha c = true ->
  CohortRetentionAnalysis.normalize_squad (Some (String c "")) =
    Some (str_of_Z (ord (to_upper c) - 64))
  /\ UnitStrengthHistory.normalize_squad (Some (String c "")) =
    Ok (Some (str_of_Z (ord (to_upper c) - 64)))
  /\ 1 <= ord (to_upper c) - 64 <= 26.
Proof.
  destruct c as [[] [] [] [] [] [] [] []]; intros H; try discriminate H;
    (split; [|split]; [reflexivity | reflexivity | vm_compute; split; discriminate]).
Qed.

Lemma upper_keeps_digit c : is_digit (to_upper c) = is_digit c.
Proof. destruct c as [[] [] [] [] [] [] [] []]; reflexivity. Qed.

Lemma upper_alpha c : is_alpha (to_upper c) = is_alpha c.
Proof. destruct c as [[] [] [] [] [] [] [] []]; reflexivity. Qed.

Lemma all_chars_upper_digit s : all_chars is_digit (upper s) = all_chars is_digit s.
Proof.
  induction s as [|c s IH]; [reflexivity|].
  unfold upper in *. simpl. now rewrite upper_keeps_digit, IH.
Qed.

Lemma isdigit_of_upper s : isdigit (upper s) = isdigit s.
Proof.
  unfold isdigit. rewrite all_chars_upper_digit. now destruct s.
Qed.

Lemma other_shapes_cra token :
  isdigit (strip token) = false ->
  (forall c, is_alpha c = true -> strip token <> String c "") ->
  CohortRetentionAnalysis.normalize_squad (Some token) = None.
Proof.
  intros Hd Hl. unfold CohortRetentionAnalysis.normalize_squad.
  rewrite isdigit_of_upper, Hd.
  destruct (strip token) as [|c [|d s]] eqn:E; try reflexivity.
  cbn. rewrite andb_true_r, upper_alpha.
  destruct (is_alpha c) eqn:Ha; [|reflexivity].
  exfalso. now apply (Hl c Ha).
Qed.

Ltac digit_facts :=
  repeat match goal with
  | H : is_digit ?c = true |- _ =>
      pose proof (digit_is_word c H);
      pose proof (digit_not_upper c H);
      pose proof (digit_not_slash c H);
      revert H
  end; intros.

Lemma boot_camp_match t :
  three_group_numeric t -> Re.match_classes Re.boot_camp_pattern t = true.
Proof.
  intros (a & b & c & d & e & f & g & Ha & Hb & Hc & Hd & He & Hf & Hg & ->).
  cbn. now rewrite Ha, Hb, Hc, Hd, He, Hf, Hg.
Qed.

Lemma three_groups_split t :
  three_group_numeric t ->
  exists a b c d e f g,
    is_digit a = true /\ is_digit b = true /\ is_digit c = true /\
    is_digit d = true /\ is_digit e = true /\
    is_digit f = true /\ is_digit g = true /\
    split_char "/" t =
      [String a (String b (String c "")); String d (String e ""); String f (String g "")].
Proof.
  intros (a & b & c & d & e & f & g & Ha & Hb & Hc & Hd & He & Hf & Hg & ->).
  exists a, b, c, d, e, f, g. repeat (split; [assumption|]).
  digit_facts. cbn [split_char].
  repeat match goal with H : Ascii.eqb _ "/" = false |- _ => rewrite H; clear H end.
  reflexivity.
Qed.

Lemma findall_lone_words cls s prev :
  all_chars is_word s = true ->
  (prev = true \/ 2 <= String.length s)%nat ->
  Re.findall_lone cls prev s = [].
Proof.
  revert prev. induction s as [|c s IH]; intros prev Hw Hp; [reflexivity|].
  simpl in Hw. apply andb_true_iff in Hw as [Hc Hs].
  cbn [Re.findall_lone].
  rewrite (IH (is_word c) Hs) by (left; exact Hc).
  destruct Hp as [-> | Hlen].
  - now rewrite andb_false_r.
  - destruct s as [|d s]; [simpl in Hlen; lia|].
    simpl in Hs. apply andb_true_iff in Hs as [Hd _]. rewrite Hd.
    now rewrite andb_false_r.
Qed.

Lemma parse_unit_three_groups t :
  three_group_numeric t ->
  UnitStrengthHistory.parse_unit t = Ok no_unit /\
  CohortRetentionAnalysis.parse_unit t = Ok no_unit.
Proof.
  intros H. destruct (three_groups_split t H)
    as (a & b & c & d & e & f & g & Ha & Hb & Hc & Hd & He & Hf & Hg & E).
  digit_facts.
  unfold UnitStrengthHistory.parse_unit, CohortRetentionAnalysis.parse_unit.
  rewrite E. cbn [List.length Nat.ltb Nat.leb nth bind].
  unfold UnitStrengthHistory.safe_extract, Re.squad_pattern, Re.platoon_pattern,
    Re.company_pattern.
  rewrite !findall_lone_words;
    try (right; simpl; lia);
    try (cbn [all_chars];
         repeat match goal with Hw : is_word _ = true |- _ => rewrite Hw; clear Hw end;
         reflexivity).
  split; reflexivity.
Qed.

Section SplitFacts.







Variable sep0 : ascii.
Variable sep' : string.
Let sep := String sep0 sep'.
Hypothesis sep_head_once : ~ In sep0 (list_ascii_of_string sep').










End SplitFacts.


End TextFacts.

(** ** Unit tokens and designators *)

(** C9 (amended).  For every ASCII token, both versions of [normalize_squad]
    send a single letter "A" to "I" to its ordinal "1" to "9" and return a
    token made of digits unchanged.  Every other single letter is sent to
    its ordinal in the alphabet as well, after upper-casing ("J" to "10",
    "z" to "26").  The version of cohortRetentionAnalysis.py returns [None]
    for every token that, once stripped, is neither one letter nor made of
    digits; the version of unitStrengthHistory.py returns unchanged every
    token that is not made of letters only. *)
Theorem normalize_squad_token_shapes (token : string) :
  Text.is_ascii token = true ->
  (forall digit,
     In (token, digit) CohortMovementTracker.letter_map ->
     CohortRetentionAnalysis.normalize_squad (Some token) = Some digit /\
     UnitStrengthHistory.normalize_squad (Some token) = Ok (Some digit))
  /\ (Text.isdigit token = true ->
      CohortRetentionAnalysis.normalize_squad (Some token) = Some token /\
      UnitStrengthHistory.normalize_squad (Some token) = Ok (Some token))
  /\ (forall c,
        token = String c "" -> Text.is_alpha c = true ->
        CohortRetentionAnalysis.normalize_squad (Some token)
          = Some (Text.str_of_Z (Text.ord (Text.to_upper c) - 64)) /\
        UnitStrengthHistory.normalize_squad (Some token)
          = Ok (Some (Text.str_of_Z (Text.ord (Text.to_upper c) - 64))) /\
        1 <= Text.ord (Text.to_upper c) - 64 <= 26)
  /\ (Text.isdigit (Text.strip token) = false ->
      (forall c, Text.is_alpha c = true -> Text.strip token <> String c "") ->
      CohortRetentionAnalysis.normalize_squad (Some token) = None)
  /\ (Text.isalpha token = false ->
      UnitStrengthHistory.normalize_squad (Some token) = Ok (Some token)).
Proof.
  intros _. repeat split.
  - simpl in H. repeat (destruct H as [H | H]; [injection H as <- <-; reflexivity|]).
    contradiction.
  - simpl in H. repeat (destruct H as [H | H]; [injection H as <- <-; reflexivity|]).
    contradiction.
  - now apply TextFacts.digits_pass_cra.
  - now apply TextFacts.digits_pass_ush.
  - subst token. now apply TextFacts.single_letter_both.
  - subst token. now apply TextFacts.single_letter_both.
  - now apply TextFacts.single_letter_both.
  - now apply TextFacts.single_letter_both.
  - intros Hd Hl. now apply TextFacts.other_shapes_cra.
  - intros Ha. unfold UnitStrengthHistory.normalize_squad. now rewrite Ha.
Qed.

Lemma normalize_squad_token_shapes_witness :
  CohortRetentionAnalysis.normalize_squad (Some "B") = Some "2" /\
  CohortRetentionAnalysis.normalize_squad (Some "2-7") = None.
Proof.
  destruct (normalize_squad_token_shapes "B" eq_refl) as (HB & _).
  destruct (normalize_squad_token_shapes "2-7" eq_refl) as (_ & _ & _ & Hother & _).
  split.
  - apply (HB "2"). simpl. right. left. reflexivity.
  - apply Hother; [reflexivity|]. intros c _. discriminate.
Defined.

(** C9, as stated, fails on the token "J": it is not one of the letters "A"
    to "I" and it is not numeric, yet both versions of [normalize_squad]
    return "10" for it; and on the token "AB" the version of
    unitStrengthHistory.py raises a [TypeError]. *)
Lemma normalize_squad_J_is_10 :
  (forall digit, ~ In ("J", digit) CohortMovementTracker.letter_map) /\
  Text.isdigit "J" = false /\
  CohortRetentionAnalysis.normalize_squad (Some "J") = Some "10" /\
  UnitStrengthHistory.normalize_squad (Some "J") = Ok (Some "10") /\
  UnitStrengthHistory.normalize_squad (Some "AB") = Raise TypeError.
Proof.
  repeat split; try reflexivity.
  intros digit H. simpl in H.
  repeat (destruct H as [H | H]; [discriminate H|]). exact H.
Qed.

(** C8 (amended).  For every designator that, once its commas are removed,
    is three groups of digits [ddd/dd/dd], [normalize_cohort_format] of
    CohortMovementTracker.py returns the label "Boot Camp"; [parse_unit] of
    the two analysis scripts has no such case: it parses the text field by
    field and finds none of the four fields. *)
Theorem boot_camp_designator (cohort t : string) :
  t = Text.remove_char "," cohort ->
  Shapes.three_group_numeric t ->
  CohortMovementTracker.normalize_cohort_format cohort = "Boot Camp" /\
  UnitStrengthHistory.parse_unit t = Ok no_unit /\
  CohortRetentionAnalysis.parse_unit t = Ok no_unit.
Proof.
  intros -> H. split.
  - unfold CohortMovementTracker.normalize_cohort_format.
    now rewrite (TextFacts.boot_camp_match _ H).
  - now apply TextFacts.parse_unit_three_groups.
Qed.

Lemma three_groups_005_02_03 : Shapes.three_group_numeric "005/02/03".
Proof.
  exists "0"%char, "0"%char, "5"%char, "0"%char, "2"%char, "0"%char, "3"%char.
  repeat split.
Qed.

Lemma boot_camp_designator_witness :
  CohortMovementTracker.normalize_cohort_format "0,05/02/03" = "Boot Camp" /\
  UnitStrengthHistory.parse_unit "005/02/03" = Ok no_unit /\
  CohortRetentionAnalysis.parse_unit "005/02/03" = Ok no_unit.
Proof.
  apply (boot_camp_designator "0,05/02/03" "005/02/03").
  - reflexivity.
  - exact three_groups_005_02_03.
Defined.

(** C8, as stated, fails on "005/02/03" for [parse_unit]: the text is three
    groups of digits, and [parse_unit] returns the four fields, all absent,
    none of them the label "Boot Camp". *)
Lemma parse_unit_005_02_03_fieldwise :
  Shapes.three_group_numeric "005/02/03" /\
  UnitStrengthHistory.parse_unit "005/02/03"
    = Ok (mkUnit None None None None) /\
  CohortRetentionAnalysis.parse_unit "005/02/03"
    = Ok (mkUnit None None None None).
Proof.
  split; [exact three_groups_005_02_03 | split; reflexivity].
Qed.

(** ** Event extraction *)

Module ExtractFacts.
Import Text Shapes.

Lemma findall_lone_single cls prev s m :
  In m (Re.findall_lone cls prev s) -> exists c, m = String c "".
Proof.
  revert prev. induction s as [|c s IH]; intros prev H; [contradiction|].
  cbn [Re.findall_lone] in H.
  destruct (cls c && negb prev && negb _).
  - destruct H as [<- | H]; [now exists c | now apply (IH _ H)].
  - now apply (IH _ H).
Qed.

Lemma normalize_squad_single_ok c :
  exists r, UnitStrengthHistory.normalize_squad (Some (String c "")) = Ok r.
Proof.
  unfold UnitStrengthHistory.normalize_squad.
  destruct (isalpha (String c "")); cbn; eauto.
Qed.

Lemma ush_parse_unit_total s : exists u, UnitStrengthHistory.parse_unit s = Ok u.
Proof.
  unfold UnitStrengthHistory.parse_unit.
  set (parts := split_char "/" s).
  assert (exists r, UnitStrengthHistory.normalize_squad
            (if (0 <? List.length parts)%nat
             then UnitStrengthHistory.safe_extract Re.squad_pattern (nth 0 parts "")
             else None) = Ok r) as [r ->].
  { destruct (0 <? List.length parts)%nat; [|now exists None].
    unfold UnitStrengthHistory.safe_extract.
    destruct (Re.squad_pattern (nth 0 parts "")) as [|m l] eqn:E; [now exists None|].
    destruct (findall_lone_single (fun c => is_upper c || is_digit c) false
                (nth 0 parts "") m) as [c ->].
    - fold (Re.squad_pattern (nth 0 parts "")). rewrite E. now left.
    - apply normalize_squad_single_ok. }
  cbn. eauto.
Qed.

Lemma split_char_nonempty sep s : split_char sep s <> [].
Proof.
  destruct s as [|c s]; [discriminate|]. simpl.
  destruct (Ascii.eqb c sep); [discriminate|].
  destruct (split_char sep s); discriminate.
Qed.

Lemma cra_parse_unit_total s : exists u, CohortRetentionAnalysis.parse_unit s = Ok u.
Proof.
  unfold CohortRetentionAnalysis.parse_unit.
  destruct (split_char "/" s) eqn:E; [now apply split_char_nonempty in E|].
  cbn. eauto.
Qed.

Lemma insert_by_date_In e x l : In e (insert_by_date x l) <-> e = x \/ In e l.
Proof.
  induction l as [|y l IH]; simpl; [intuition|].
  destruct (date x <=? date y); simpl; [intuition|].
  rewrite IH. intuition.
Qed.

Lemma sort_values_date_In e l : In e (sort_values_date l) <-> In e l.
Proof.
  induction l as [|x l IH]; simpl; [reflexivity|].
  rewrite insert_by_date_In, IH. intuition.
Qed.

Lemma insert_by_date_length x l :
  List.length (insert_by_date x l) = S (List.length l).
Proof.
  induction l as [|y l IH]; simpl; [reflexivity|].
  destruct (date x <=? date y); simpl; [reflexivity | now rewrite IH].
Qed.

Lemma sort_values_date_length l :
  List.length (sort_values_date l) = List.length l.
Proof.
  induction l as [|x l IH]; simpl; [reflexivity|].
  now rewrite insert_by_date_length, IH.
Qed.

Section Loop.

Variable parse_unit : string -> result unit_fields.
Hypothesis parse_total : forall s, exists u, parse_unit s = Ok u.

Lemma record_events_ok r :
  date_parses r -> exists rows, record_events parse_unit r = Ok rows.
Proof.
  intros [d Hd]. unfold record_events. rewrite Hd. cbn [bind].
  destruct (String.eqb _ "RECORD_TYPE_TRANSFER").
  - destruct (parse_total (strip (last (split "Assigned" (recordDetails r)) "")))
      as [u ->]. cbn. eauto.
  - destruct (String.eqb _ "RECORD_TYPE_DISCHARGE"); eauto.
Qed.

Lemma record_events_bad_date r :
  Datetime.strptime (recordDate r) = Raise ValueError ->
  record_events parse_unit r = Raise ValueError.
Proof. intros H. unfold record_events. now rewrite H. Qed.

Lemma extract_loop_ok rs : forall events,
  Forall date_parses rs -> exists evs, extract_loop parse_unit rs events = Ok evs.
Proof.
  induction rs as [|r rs IH]; intros events H; simpl; [eauto|].
  inversion H as [|? ? Hr Hrs]; subst.
  destruct (record_events_ok r Hr) as [rows ->]. cbn. now apply IH.
Qed.




End Loop.

End ExtractFacts.

Module AbortFacts.
Import Text Shapes ExtractFacts.

Lemma strptime_exn s e : Datetime.strptime s = Raise e -> e = ValueError.
Proof.
  unfold Datetime.strptime, Datetime.make_date.
  repeat match goal with
         | |- context [match ?x with _ => _ end] => destruct x
         end; intros H; congruence.
Qed.

Lemma unparsed_raises r :
  ~ date_parses r -> Datetime.strptime (recordDate r) = Raise ValueError.
Proof.
  intros H. destruct (Datetime.strptime (recordDate r)) as [d|e] eqn:E.
  - exfalso. apply H. now exists d.
  - now rewrite (strptime_exn _ _ E).
Qed.

Section Loop.

Variable parse_unit : string -> result unit_fields.
Hypothesis parse_total : forall s, exists u, parse_unit s = Ok u.

Lemma record_events_exn r e :
  record_events parse_unit r = Raise e -> e = ValueError.
Proof.
  unfold record_events.
  destruct (Datetime.strptime (recordDate r)) as [d|e'] eqn:E; cbn [bind].
  - destruct (String.eqb _ "RECORD_TYPE_TRANSFER").
    + destruct (parse_total (strip (last (split "Assigned" (recordDetails r)) "")))
        as [u ->]. discriminate.
    + destruct (String.eqb _ "RECORD_TYPE_DISCHARGE"); discriminate.
  - intros [= <-]. now apply strptime_exn in E.
Qed.

Lemma extract_loop_bad rs : forall events,
  Exists (fun r => ~ date_parses r) rs ->
  extract_loop parse_unit rs events = Raise ValueError.
Proof.
  induction rs as [|r rs IH]; intros events H; [inversion H|].
  simpl. destruct (record_events parse_unit r) as [rows|e] eqn:E; cbn [bind].
  - inversion H as [? ? Hr | ? ? Hrs]; subst.
    + rewrite (record_events_bad_date parse_unit r (unparsed_raises r Hr)) in E.
      discriminate.
    + now apply IH.
  - now rewrite (record_events_exn r e E).
Qed.

Lemma extract_events_bad rs :
  Exists (fun r => ~ date_parses r) rs ->
  extract_events parse_unit (mkDocument (Some rs)) = Raise ValueError.
Proof.
  intros H. unfold extract_events. cbn [records].
  now rewrite (extract_loop_bad rs [] H).
Qed.

Lemma extract_loop_exn rs : forall events e,
  extract_loop parse_unit rs events = Raise e -> e = ValueError.
Proof.
  induction rs as [|r rs IH]; intros events e H; [discriminate|].
  simpl in H. destruct (record_events parse_unit r) as [rows|e'] eqn:E; cbn [bind] in H.
  - now apply (IH _ _ H).
  - injection H as <-. now apply (record_events_exn r).
Qed.

Lemma extract_events_exn data e :
  extract_events parse_unit data = Raise e -> e = ValueError.
Proof.
  unfold extract_events.
  destruct (extract_loop parse_unit _ []) as [evs|e'] eqn:E; cbn [bind];
    [discriminate|].
  intros [= <-]. now apply (extract_loop_exn _ _ _ E).
Qed.

Lemma record_events_count r rows :
  record_events parse_unit r = Ok rows ->
  List.length rows = if is_event_record r then 1%nat else 0%nat.
Proof.
  unfold record_events, is_event_record.
  destruct (Datetime.strptime (recordDate r)) as [d|]; cbn [bind]; [|discriminate].
  destruct (String.eqb _ "RECORD_TYPE_TRANSFER"); cbn [orb].
  - destruct (parse_unit _); cbn [bind]; [|discriminate]. now intros [= <-].
  - destruct (String.eqb _ "RECORD_TYPE_DISCHARGE"); now intros [= <-].
Qed.

Lemma extract_loop_count rs : forall events evs,
  extract_loop parse_unit rs events = Ok evs ->
  List.length evs
  = (List.length events + List.length (filter is_event_record rs))%nat.
Proof.
  induction rs as [|r rs IH]; intros events evs H; simpl in H.
  - injection H as <-. simpl. lia.
  - destruct (record_events parse_unit r) as [rows|] eqn:E; cbn [bind] in H;
      [|discriminate].
    rewrite (IH _ _ H), length_app, (record_events_count r rows E). simpl.
    destruct (is_event_record r); simpl; lia.
Qed.

Lemma extract_events_all rs :
  Forall date_parses rs ->
  exists evs,
    extract_events parse_unit (mkDocument (Some rs)) = Ok evs /\
    List.length evs = List.length (filter is_event_record rs).
Proof.
  intros H. destruct (extract_loop_ok parse_unit parse_total rs [] H) as [evs E].
  exists (sort_values_date evs). unfold extract_events. cbn [records].
  rewrite E. split; [reflexivity|].
  now rewrite sort_values_date_length, (extract_loop_count _ _ _ E).
Qed.

End Loop.

Lemma ush_main_loop_bad clk d files : forall n acc,
  In d files ->
  UnitStrengthHistory.extract_events d = Raise ValueError ->
  UnitStrengthHistory.main_loop clk n files acc = Raise ValueError.
Proof.
  induction files as [|f files IH]; intros n acc Hin Hd; [contradiction|].
  cbn [UnitStrengthHistory.main_loop].
  destruct (UnitStrengthHistory.extract_events f) as [evs|e] eqn:E; cbn [bind].
  - destruct Hin as [-> | Hin]; [congruence|].
    destruct evs as [|ev evs]; [now apply IH|].
    destruct (create_memberships clk n (ev :: evs)). now apply IH.
  - now rewrite (extract_events_exn _ ush_parse_unit_total _ _ E).
Qed.

Lemma cra_main_loop_bad clk d files : forall n acc,
  In d files ->
  CohortRetentionAnalysis.extract_events d = Raise ValueError ->
  CohortRetentionAnalysis.main_loop clk n files acc = Raise ValueError.
Proof.
  induction files as [|f files IH]; intros n acc Hin Hd; [contradiction|].
  cbn [CohortRetentionAnalysis.main_loop].
  destruct (CohortRetentionAnalysis.extract_events f) as [evs|e] eqn:E; cbn [bind].
  - destruct Hin as [-> | Hin]; [congruence|].
    destruct evs as [|ev evs]; [now apply IH|].
    destruct (create_memberships clk n (ev :: evs)). now apply IH.
  - now rewrite (extract_events_exn _ cra_parse_unit_total _ _ E).
Qed.

End AbortFacts.




(** C2 (amended).  When the date string of a record of a member document is
    not accepted by [strptime], [extract_events] raises a [ValueError]: it
    returns no event for the member, and [main], which handles no
    exception, ends the run with that error, whatever the other documents
    are.  When every date string is accepted, no record is skipped:
    [extract_events] returns one event for each transfer or discharge
    record. *)
Theorem bad_date_aborts_run
  (clk : clock) (rs : list record) (before after : list document) :
  (Exists (fun r => ~ Shapes.date_parses r) rs ->
   UnitStrengthHistory.extract_events (mkDocument (Some rs)) = Raise ValueError /\
   CohortRetentionAnalysis.extract_events (mkDocument (Some rs)) = Raise ValueError /\
   UnitStrengthHistory.main clk (before ++ mkDocument (Some rs) :: after)
     = Raise ValueError /\
   CohortRetentionAnalysis.main clk (before ++ mkDocument (Some rs) :: after)
     = Raise ValueError)
  /\
  (Forall Shapes.date_parses rs ->
   (exists evs,
      UnitStrengthHistory.extract_events (mkDocument (Some rs)) = Ok evs /\
      List.length evs = List.length (filter Shapes.is_event_record rs)) /\
   (exists evs,
      CohortRetentionAnalysis.extract_events (mkDocument (Some rs)) = Ok evs /\
      List.length evs = List.length (filter Shapes.is_event_record rs))).
Proof.
  split.
  - intros H.
    pose proof (AbortFacts.extract_events_bad UnitStrengthHistory.parse_unit
                  ExtractFacts.ush_parse_unit_total rs H) as Hu.
    pose proof (AbortFacts.extract_events_bad CohortRetentionAnalysis.parse_unit
                  ExtractFacts.cra_parse_unit_total rs H) as Hc.
    repeat split; try assumption.
    + unfold UnitStrengthHistory.main.
      rewrite (AbortFacts.ush_main_loop_bad clk (mkDocument (Some rs)));
        [reflexivity | apply in_elt | exact Hu].
    + unfold CohortRetentionAnalysis.main.
      rewrite (AbortFacts.cra_main_loop_bad clk (mkDocument (Some rs)));
        [reflexivity | apply in_elt | exact Hc].
  - intros H. split.
    + apply AbortFacts.extract_events_all;
        [exact ExtractFacts.ush_parse_unit_total | exact H].
    + apply AbortFacts.extract_events_all;
        [exact ExtractFacts.cra_parse_unit_total | exact H].
Qed.

Lemma bad_date_aborts_run_witness :
  UnitStrengthHistory.main Samples.clock_06_01
    [Samples.doc_closed; Samples.doc_bad_date; Samples.doc_open] = Raise ValueError.
Proof.
  apply (proj1 (bad_date_aborts_run Samples.clock_06_01
                  [mkRecord "RECORD_TYPE_TRANSFER" "01/02/2023" "Assigned 2/3/B/2-7";
                   mkRecord "RECORD_TYPE_TRANSFER" "2023-02-01" "Assigned 1/1/A/2-7"]
                  [Samples.doc_closed] [Samples.doc_open])).
  apply Exists_cons_hd. intros [d H]. discriminate H.
Defined.

(** C2, as stated, fails on a document whose first record is dated
    "01/02/2023" and whose second record is well formed: [extract_events]
    returns no event for the second record, it raises; and a run over that
    document and two sound ones ends with the same error instead of a
    table. *)
Lemma bad_date_not_skipped :
  ~ Shapes.date_parses (mkRecord "RECORD_TYPE_TRANSFER" "01/02/2023" "Assigned 2/3/B/2-7") /\
  Shapes.date_parses (mkRecord "RECORD_TYPE_TRANSFER" "2023-02-01" "Assigned 1/1/A/2-7") /\
  UnitStrengthHistory.extract_events Samples.doc_bad_date = Raise ValueError /\
  CohortRetentionAnalysis.extract_events Samples.doc_bad_date = Raise ValueError /\
  UnitStrengthHistory.main Samples.clock_06_01
    [Samples.doc_closed; Samples.doc_bad_date; Samples.doc_open] = Raise ValueError /\
  CohortRetentionAnalysis.main Samples.clock_06_01
    [Samples.doc_closed; Samples.doc_bad_date; Samples.doc_open] = Raise ValueError.
Proof.
  split; [intros [d H]; discriminate H|].
  split; [eexists; reflexivity|].
  repeat split; reflexivity.
Qed.

(** ** Membership intervals *)

Module BuilderFacts.
Import Datetime Shapes.

Lemma Sorted_snoc {A} (R : A -> A -> Prop) (l : list A) (x : A) :
  Sorted R l ->
  (forall l' m, l = l' ++ [m] -> R m x) ->
  Sorted R (l ++ [x]).
Proof.
  induction l as [|a l IH]; intros Hs Hlast; simpl.
  - repeat constructor.
  - inversion Hs as [|? ? Hs' Hhd]; subst. constructor.
    + apply IH; [exact Hs'|]. intros l' m ->. apply (Hlast (a :: l') m). reflexivity.
    + destruct l as [|b l]; simpl.
      * constructor. apply (Hlast [] a). reflexivity.
      * inversion Hhd; subst. now constructor.
Qed.

Lemma Sorted_weaken {A} (R R' : A -> A -> Prop) (l : list A) :
  (forall a b, R a b -> R' a b) -> Sorted R l -> Sorted R' l.
Proof.
  intros HR. induction 1 as [|a l Hs IH Hhd]; constructor; [exact IH|].
  destruct Hhd; constructor. now apply HR.
Qed.

Lemma insert_by_date_hd a x l :
  date_ordered a x -> HdRel date_ordered a l -> HdRel date_ordered a (insert_by_date x l).
Proof.
  intros Hax Hl. destruct l as [|y l]; simpl; [now constructor|].
  destruct (date x <=? date y); constructor; [exact Hax|].
  now inversion Hl.
Qed.

Lemma insert_by_date_sorted x l :
  Sorted date_ordered l -> Sorted date_ordered (insert_by_date x l).
Proof.
  induction 1 as [|y l Hs IH Hhd]; simpl; [repeat constructor|].
  destruct (Z.leb_spec (date x) (date y)).
  - constructor; [now constructor|]. now constructor.
  - constructor; [exact IH|].
    apply insert_by_date_hd; [unfold date_ordered; lia | exact Hhd].
Qed.

(** The events that [extract_events] returns are in date order. *)
Lemma sort_values_date_sorted l : Sorted date_ordered (sort_values_date l).
Proof.
  induction l as [|x l IH]; simpl; [constructor|].
  now apply insert_by_date_sorted.
Qed.

Section Gap.

(** [g] is the least distance between the dates of two successive events. *)
Variable g : Z.
Hypothesis g_nonneg : 0 <= g.

Lemma step_invariant lo st ev :
  lo <= date ev -> invariant g lo st -> invariant g (date ev + g) (create_step st ev).
Proof.
  destruct st as [ms cur]. unfold invariant, create_step. cbn [fst snd].
  intros Hlo [Hs Hc]. destruct (event ev); destruct cur as [c|]; cbn [fst snd].
  - destruct Hc as [Hc Hlast]. split; [|split].
    + apply Sorted_snoc; [exact Hs|]. intros l' m E. exact (Hlast l' m E).
    + simpl. lia.
    + intros l' m E. apply app_inj_tail in E as [_ <-].
      unfold follows. cbn. split; [lia | now left].
  - split; [exact Hs|]. split; [simpl; lia|].
    intros l' m E. destruct (Hc l' m E) as (e & He & H1 & H2).
    unfold follows. cbn. split; [lia|]. right. exists e. repeat split; try assumption; lia.
  - destruct Hc as [Hc Hlast]. split.
    + apply Sorted_snoc; [exact Hs|]. intros l' m E. exact (Hlast l' m E).
    + intros l' m E. apply app_inj_tail in E as [_ <-].
      exists (date ev). cbn. repeat split; lia.
  - split; [exact Hs|]. intros l' m E.
    destruct (Hc l' m E) as (e & He & H1 & H2). exists e. repeat split; try assumption; lia.
Qed.

Lemma loop_invariant events : forall lo st,
  Sorted (gap_ordered g) events ->
  (forall ev rest, events = ev :: rest -> lo <= date ev) ->
  invariant g lo st ->
  exists lo', invariant g lo' (fold_left create_step events st).
Proof.
  induction events as [|ev events IH]; intros lo st Hs Hlo Hinv.
  - now exists lo.
  - inversion Hs as [|? ? Hs' Hhd]; subst. cbn [fold_left].
    apply (IH (date ev + g)); [exact Hs' | |].
    + intros ev' rest ->. inversion Hhd; subst. assumption.
    + apply (step_invariant lo); [now apply (Hlo ev events) | exact Hinv].
Qed.

Lemma create_memberships_chained clk n events :
  Sorted (gap_ordered g) events ->
  Sorted (chained g) (fst (create_memberships clk n events)).
Proof.
  intros Hs. unfold create_memberships, create_loop.
  destruct (loop_invariant events
              (match events with ev :: _ => date ev | [] => 0 end) ([], None) Hs)
    as [lo Hinv].
  - now intros ev rest ->.
  - split; [constructor|]. cbn. intros l' m E. now destruct l'.
  - destruct (fold_left create_step events ([], None)) as [ms [c|]];
      destruct Hinv as [H1 H2]; cbn [fst snd] in *; [|exact H1].
    apply Sorted_snoc; [exact H1|]. intros l' m E. exact (proj2 H2 l' m E).
Qed.

End Gap.

(** The assignment that is open after the loop was opened by the last
    event. *)
Lemma create_loop_open events c :
  snd (create_loop events) = Some c ->
  exists earlier ev,
    events = earlier ++ [ev] /\ event ev = transfer /\
    c = mkMembership (date ev) (fields ev) None.
Proof.
  unfold create_loop. destruct events as [|ev0 events] using rev_ind; [discriminate|].
  rewrite fold_left_app. cbn [fold_left].
  destruct (fold_left create_step events ([], None)) as [ms cur].
  unfold create_step. destruct (event ev0) eqn:E.
  - cbn [snd]. intros [= <-]. now exists events, ev0.
  - destruct cur; discriminate.
Qed.

(** The last membership of the output: closed by a discharge, on or after
    its start date, or left open and closed by the clock. *)
Lemma create_memberships_last clk n events pre m :
  Sorted date_ordered events ->
  fst (create_memberships clk n events) = pre ++ [m] ->
  ends_after_start m \/ closed_by_clock (clk n) events m.
Proof.
  intros Hs. unfold create_memberships.
  destruct (loop_invariant 0 ltac:(lia) events
              (match events with ev :: _ => date ev | [] => 0 end) ([], None))
    as [lo Hinv].
  - apply (Sorted_weaken date_ordered); [|exact Hs].
    unfold date_ordered, gap_ordered. intros a b H. lia.
  - now intros ev rest ->.
  - split; [constructor|]. cbn. intros l' m' E. now destruct l'.
  - pose proof (create_loop_open events) as Hopen. unfold create_loop in *.
    destruct (fold_left create_step events ([], None)) as [ms [c|]];
      destruct Hinv as [_ H2]; cbn [fst snd] in *.
    + intros E. apply app_inj_tail in E as [_ <-]. right.
      destruct (Hopen c eq_refl) as (earlier & ev & -> & Hev & ->).
      split; [reflexivity|]. now exists earlier, ev.
    + intros E. left. destruct (H2 pre m E) as (e & He & H1 & _). now exists e.
Qed.

Lemma Sorted_ends_after_start l :
  Sorted ends_before l ->
  (forall pre m, l = pre ++ [m] -> ends_after_start m) ->
  Forall ends_after_start l.
Proof.
  induction 1 as [|a l Hs IH Hhd]; intros Hlast; [constructor|].
  constructor.
  - destruct Hhd as [|b l Hab]; [exact (Hlast [] a eq_refl)|].
    destruct Hab as (e & He & H1). exists e. split; [exact He | lia].
  - apply IH. intros pre m ->. exact (Hlast (a :: pre) m eq_refl).
Qed.

Lemma chained_0_consecutive m1 m2 : chained 0 m1 m2 -> consecutive m1 m2.
Proof.
  unfold chained, follows, consecutive. intros [H1 H2]. split; [lia|].
  destruct H2 as [H2 | (e & He & H3 & H4)]; [now left|].
  right. exists e. split; [assumption | lia].
Qed.

Lemma chained_DAY_ends_before m1 m2 : chained DAY m1 m2 -> ends_before m1 m2.
Proof.
  unfold chained, follows, ends_before, DAY. intros [H1 H2].
  destruct H2 as [H2 | (e & He & H3 & H4)].
  - exists (start_date m2 - 86400000000). split; [assumption | lia].
  - exists e. split; [assumption | lia].
Qed.

Lemma ends_before_trans m1 m2 m3 :
  ends_before m1 m2 -> ends_before m2 m3 -> ends_before m1 m3.
Proof.
  intros (e1 & E1 & H1) (e2 & E2 & H2). exists e1. split; [assumption | lia].
Qed.

End BuilderFacts.

(** C1 (amended).  For every date-ordered event sequence, the memberships
    emitted by [create_memberships] are in order of start date, and of two
    consecutive ones the earlier either ends exactly one day before the
    later starts (it was closed by the transfer that opens the later one)
    or ends on a date from its own start up to the later start (it was
    closed by a discharge).  The last membership either was closed by a
    discharge, and then its end date is not before its start date, or was
    opened by the last event and left open, and then its end date is the
    reading of the clock.  When the events are a day or more apart, every
    membership that has a successor is a span with end date >= start date
    that ends before each later membership starts: the intervals do not
    overlap; and when, moreover, the clock is not behind the dates of the
    events, every membership has end date >= start date. *)
Theorem create_memberships_intervals
  (clk : clock) (n : nat) (events : list event_row) :
  Sorted Shapes.date_ordered events ->
  Sorted Shapes.consecutive (fst (create_memberships clk n events)) /\
  (forall earlier m,
     fst (create_memberships clk n events) = earlier ++ [m] ->
     Shapes.ends_after_start m \/ Shapes.closed_by_clock (clk n) events m) /\
  (Sorted Shapes.days_apart events ->
   StronglySorted Shapes.ends_before (fst (create_memberships clk n events)) /\
   (Forall (fun ev => date ev <= clk n) events ->
    Forall Shapes.ends_after_start (fst (create_memberships clk n events)))).
Proof.
  intros Hs.
  assert (Hday : Sorted Shapes.days_apart events ->
                 Sorted Shapes.ends_before (fst (create_memberships clk n events))).
  { intros Hd.
    apply (BuilderFacts.Sorted_weaken (Shapes.chained Datetime.DAY));
      [exact BuilderFacts.chained_DAY_ends_before|].
    apply BuilderFacts.create_memberships_chained; [unfold Datetime.DAY; lia|].
    exact Hd. }
  split; [|split].
  - apply (BuilderFacts.Sorted_weaken (Shapes.chained 0));
      [exact BuilderFacts.chained_0_consecutive|].
    apply BuilderFacts.create_memberships_chained; [lia|].
    apply (BuilderFacts.Sorted_weaken Shapes.date_ordered); [|exact Hs].
    unfold Shapes.date_ordered, Shapes.gap_ordered. intros a b H. lia.
  - intros earlier m E.
    exact (BuilderFacts.create_memberships_last clk n events earlier m Hs E).
  - intros Hd. split.
    + apply Sorted_StronglySorted; [|exact (Hday Hd)].
      intros m1 m2 m3. apply BuilderFacts.ends_before_trans.
    + intros Hclk. apply BuilderFacts.Sorted_ends_after_start; [exact (Hday Hd)|].
      intros earlier m E.
      destruct (BuilderFacts.create_memberships_last clk n events earlier m Hs E)
        as [H | [He (evs & ev & -> & _ & Hstart)]]; [exact H|].
      exists (clk n). split; [exact He|]. rewrite Hstart.
      apply (proj1 (Forall_forall _ _) Hclk ev). apply in_or_app. right. now left.
Qed.

Lemma create_memberships_intervals_witness :
  Sorted Shapes.consecutive
    (fst (create_memberships Samples.clock_06_01 0 Samples.events_rejoin)) /\
  StronglySorted Shapes.ends_before
    (fst (create_memberships Samples.clock_06_01 0 Samples.events_rejoin)) /\
  Forall Shapes.ends_after_start
    (fst (create_memberships Samples.clock_06_01 0 Samples.events_rejoin)) /\
  Shapes.closed_by_clock (Samples.clock_06_01 0%nat) Samples.events_rejoin
    (mkMembership (Samples.day 2023 3 1) Samples.unit_1_1_A
       (Some (Samples.clock_06_01 0%nat))).
Proof.
  assert (Sorted Shapes.date_ordered Samples.events_rejoin) as Ho
    by (repeat constructor; vm_compute; discriminate).
  assert (Sorted Shapes.days_apart Samples.events_rejoin) as Hd
    by (repeat constructor; vm_compute; discriminate).
  assert (Forall (fun ev => date ev <= Samples.clock_06_01 0%nat)
            Samples.events_rejoin) as Hc
    by (repeat constructor; vm_compute; discriminate).
  destruct (create_memberships_intervals Samples.clock_06_01 0
              Samples.events_rejoin Ho) as (H1 & H2 & H3).
  destruct (H3 Hd) as [H4 H5].
  split; [exact H1|]. split; [exact H4|]. split; [exact (H5 Hc)|].
  destruct (H2 [mkMembership (Samples.day 2023 1 1) Samples.unit_2_3_B
                  (Some (Samples.day 2023 2 1))]
               (mkMembership (Samples.day 2023 3 1) Samples.unit_1_1_A
                  (Some (Samples.clock_06_01 0%nat))) eq_refl)
    as [(e & He & Hle) | H]; [|exact H].
  split; [reflexivity|].
  exists [mkEvent (Samples.day 2023 1 1) transfer Samples.unit_2_3_B;
          mkEvent (Samples.day 2023 2 1) discharge no_unit],
         (mkEvent (Samples.day 2023 3 1) transfer Samples.unit_1_1_A).
  repeat split.
Defined.

(** C1, as stated, fails on two date-ordered sequences.  Two transfers on
    the same day: the first membership is closed on the day before it
    starts, so its end date is smaller than its start date.  A transfer, a
    discharge and a later transfer: the first membership ends on the
    discharge date, a month before the second one starts and not one day
    before it. *)
Lemma same_day_transfer_ends_before_start :
  Sorted Shapes.date_ordered Samples.events_same_day /\
  fst (create_memberships Samples.clock_06_01 0 Samples.events_same_day)
  = [mkMembership (Samples.day 2023 1 1) Samples.unit_2_3_B
       (Some (Samples.day 2022 12 31));
     mkMembership (Samples.day 2023 1 1) Samples.unit_1_1_A
       (Some (Samples.clock_06_01 0%nat))] /\
  Samples.day 2022 12 31 < Samples.day 2023 1 1 /\
  Sorted Shapes.date_ordered Samples.events_rejoin /\
  fst (create_memberships Samples.clock_06_01 0 Samples.events_rejoin)
  = [mkMembership (Samples.day 2023 1 1) Samples.unit_2_3_B
       (Some (Samples.day 2023 2 1));
     mkMembership (Samples.day 2023 3 1) Samples.unit_1_1_A
       (Some (Samples.clock_06_01 0%nat))] /\
  Samples.day 2023 2 1 <> Samples.day 2023 3 1 - Datetime.DAY.
Proof.
  split; [repeat constructor; vm_compute; discriminate|].
  split; [reflexivity|].
  split; [reflexivity|].
  split; [repeat constructor; vm_compute; discriminate|].
  split; [reflexivity|].
  vm_compute. discriminate.
Qed.

(** ** Data frames *)

Module PandasFacts.
Import Datetime Shapes.

Lemma count_in_seq (s D : Z) (n : nat) : forall a : nat,
  List.length (filter (fun d => d =? D)
                 (map (fun k => s + timedelta (Z.of_nat k)) (seq a n)))
  = if (s + Z.of_nat a * DAY <=? D) && (D <? s + Z.of_nat (a + n) * DAY)
       && ((D - s) mod DAY =? 0)
    then 1%nat else 0%nat.
Proof.
  unfold timedelta.
  induction n as [|n IH]; intros a.
  - simpl. replace (a + 0)%nat with a by lia.
    destruct (Z.leb_spec (s + Z.of_nat a * DAY) D);
      destruct (Z.ltb_spec D (s + Z.of_nat a * DAY)); try reflexivity. lia.
  - cbn [seq map filter].
    destruct (Z.eqb_spec (s + Z.of_nat a * DAY) D) as [E|E].
    + cbn [List.length]. rewrite (IH (S a)).
      assert (D - s = Z.of_nat a * DAY) as Hd by lia.
      rewrite Hd, Z.mod_mul by (unfold DAY; lia).
      destruct (Z.leb_spec (s + Z.of_nat (S a) * DAY) D);
        destruct (Z.leb_spec (s + Z.of_nat a * DAY) D);
        destruct (Z.ltb_spec D (s + Z.of_nat (a + S n) * DAY));
        cbn; try reflexivity; unfold DAY in *; lia.
    + rewrite (IH (S a)).
      replace (S a + n)%nat with (a + S n)%nat by lia.
      destruct (Z.eqb_spec ((D - s) mod DAY) 0) as [M|M];
        [|now rewrite !andb_false_r].
      rewrite !andb_true_r.
      apply Z.mod_divide in M; [|unfold DAY; lia].
      destruct M as [q Hq].
      destruct (Z.leb_spec (s + Z.of_nat (S a) * DAY) D);
        destruct (Z.leb_spec (s + Z.of_nat a * DAY) D);
        cbn; try reflexivity; unfold DAY in *; exfalso; nia.
Qed.

Lemma count_in_date_range (s e D : Z) :
  List.length (filter (fun d => d =? D) (Pandas.date_range s e))
  = if (s <=? D) && (D <=? e) && ((D - s) mod DAY =? 0) then 1%nat else 0%nat.
Proof.
  unfold Pandas.date_range.
  destruct (Z.ltb_spec e s) as [L|L].
  - simpl. destruct (Z.leb_spec s D); destruct (Z.leb_spec D e); try reflexivity. lia.
  - rewrite count_in_seq. cbn [Z.of_nat]. rewrite Z.mul_0_l, Z.add_0_r.
    destruct (Z.eqb_spec ((D - s) mod DAY) 0) as [M|M];
      [|now rewrite !andb_false_r].
    rewrite !andb_true_r.
    apply Z.mod_divide in M; [|unfold DAY; lia].
    destruct M as [q Hq].
    assert (0 <= (e - s) / DAY) by (apply Z.div_pos; unfold DAY; lia).
    replace (Z.of_nat (0 + (Z.to_nat ((e - s) / DAY) + 1)))
      with ((e - s) / DAY + 1) by lia.
    pose proof (Z.mul_div_le (e - s) DAY ltac:(unfold DAY; lia)) as B1.
    pose proof (Z.mul_succ_div_gt (e - s) DAY ltac:(unfold DAY; lia)) as B2.
    destruct (Z.leb_spec s D); cbn [andb]; [|reflexivity].
    destruct (Z.ltb_spec D (s + ((e - s) / DAY + 1) * DAY));
      destruct (Z.leb_spec D e); try reflexivity; exfalso;
      unfold DAY in *; nia.
Qed.

Section GroupFacts.

Context {R K : Type}.
Variable key : R -> K.
Variable key_eqb : K -> K -> bool.
Variable key_leb : K -> K -> bool.
Hypothesis key_eqb_eq : forall a b, key_eqb a b = true <-> a = b.

Lemma insert_sorted_In (leb : K -> K -> bool) k x l :
  In k (Pandas.insert_sorted leb x l) <-> k = x \/ In k l.
Proof.
  induction l as [|y l IH]; simpl; [intuition|].
  destruct (leb x y); simpl; [intuition|]. rewrite IH. intuition.
Qed.

Lemma sort_keys_In (leb : K -> K -> bool) k l :
  In k (Pandas.sort_keys leb l) <-> In k l.
Proof.
  induction l as [|x l IH]; simpl; [reflexivity|].
  rewrite insert_sorted_In, IH. intuition.
Qed.

Lemma unique_In k l : In k (Pandas.unique key_eqb l) <-> In k l.
Proof.
  induction l as [|x l IH]; simpl; [reflexivity|].
  destruct (existsb (key_eqb x) l) eqn:E.
  - rewrite IH. split; [now right|]. intros [<- | H]; [|exact H].
    apply existsb_exists in E as (y & Hy & Hxy).
    apply key_eqb_eq in Hxy. now subst.
  - simpl. rewrite IH. intuition.
Qed.

Lemma groupby_In k g rows :
  In (k, g) (Pandas.groupby key key_eqb key_leb rows) <->
  In k (map key rows) /\ g = filter (fun r => key_eqb (key r) k) rows.
Proof.
  unfold Pandas.groupby. rewrite in_map_iff. split.
  - intros (k' & [= <- <-] & H).
    apply (proj1 (sort_keys_In _ _ _)) in H. apply (proj1 (unique_In _ _)) in H.
    split; [exact H | reflexivity].
  - intros [H ->]. exists k. split; [reflexivity|].
    apply (proj2 (sort_keys_In _ _ _)). now apply (proj2 (unique_In _ _)).
Qed.

Lemma filter_eqb_filter (p : K -> bool) k l :
  List.length (filter (fun r => key_eqb r k) (filter p l))
  = if p k then List.length (filter (fun r => key_eqb r k) l) else 0%nat.
Proof.
  induction l as [|x l IH]; simpl; [now destruct (p k)|].
  destruct (p x) eqn:Px; simpl; destruct (key_eqb x k) eqn:E; simpl; rewrite IH.
  - apply key_eqb_eq in E. subst. now rewrite Px.
  - reflexivity.
  - apply key_eqb_eq in E. subst. now rewrite Px.
  - reflexivity.
Qed.

Lemma In_count k l :
  In k l <-> (1 <= List.length (filter (fun r => key_eqb r k) l))%nat.
Proof.
  induction l as [|x l IH]; simpl; [lia|].
  destruct (key_eqb x k) eqn:E; simpl.
  - apply key_eqb_eq in E. split; [lia | now left].
  - rewrite <- IH. split; [|now right]. intros [-> | H]; [|exact H].
    assert (key_eqb k k = true) by now apply key_eqb_eq. congruence.
Qed.

End GroupFacts.

Lemma option_eqb_eq (x y : option string) :
  option_eqb String.eqb x y = true <-> x = y.
Proof.
  destruct x as [a|], y as [b|]; simpl; try (split; congruence).
  rewrite String.eqb_eq. split; congruence.
Qed.

Lemma unit_eqb_eq u v : unit_eqb u v = true <-> u = v.
Proof.
  unfold unit_eqb. rewrite !andb_true_iff, !option_eqb_eq.
  destruct u, v; simpl. split.
  - intros [[[-> ->] ->] ->]. reflexivity.
  - intros [= -> -> -> ->]. auto.
Qed.

Lemma daily_key_eqb_eq (a b : UnitStrengthHistory.daily_key) :
  UnitStrengthHistory.daily_key_eqb a b = true <-> a = b.
Proof.
  unfold UnitStrengthHistory.daily_key_eqb. destruct a as [d u], b as [d' u'].
  cbn [fst snd]. rewrite andb_true_iff, Z.eqb_eq, unit_eqb_eq.
  split; [intros [-> ->]; reflexivity | intros [= -> ->]; auto].
Qed.

(** The rows of [daily_strength] that carry the date [D] and the unit [U]. *)
Lemma membership_days_count row days D U :
  UnitStrengthHistory.membership_days row = Ok days ->
  List.length (filter (fun r => UnitStrengthHistory.daily_key_eqb r (D, U)) days)
  = if unit_eqb (unit_of row) U && covers row D then 1%nat else 0%nat.
Proof.
  unfold UnitStrengthHistory.membership_days, covers.
  destruct (end_date row) as [e|]; [|discriminate]. intros [= <-].
  destruct (unit_eqb (unit_of row) U) eqn:Eu; cbn [andb].
  - rewrite <- (count_in_date_range (start_date row) e D).
    induction (Pandas.date_range (start_date row) e) as [|d l IH];
      [reflexivity|].
    cbn [map filter]. unfold UnitStrengthHistory.daily_key_eqb at 1.
    cbn [fst snd]. rewrite Eu, andb_true_r.
    destruct (d =? D); simpl; now rewrite IH.
  - induction (Pandas.date_range (start_date row) e) as [|d l IH];
      [reflexivity|].
    cbn [map filter]. unfold UnitStrengthHistory.daily_key_eqb at 1.
    cbn [fst snd]. rewrite Eu, andb_false_r. exact IH.
Qed.

Lemma expand_days_count ms : forall acc rows D U,
  UnitStrengthHistory.expand_days ms acc = Ok rows ->
  List.length (filter (fun r => UnitStrengthHistory.daily_key_eqb r (D, U)) rows)
  = (List.length (filter (fun r => UnitStrengthHistory.daily_key_eqb r (D, U)) acc)
     + List.length (filter (fun m => unit_eqb (unit_of m) U && covers m D) ms))%nat.
Proof.
  induction ms as [|m ms IH]; intros acc rows D U H; simpl in H.
  - injection H as <-. simpl. lia.
  - destruct (UnitStrengthHistory.membership_days m) as [days|] eqn:E;
      cbn [bind] in H; [|discriminate].
    rewrite (IH _ _ D U H), filter_app, length_app,
      (membership_days_count m days D U E).
    simpl. destruct (unit_eqb (unit_of m) U && covers m D); simpl; lia.
Qed.

Lemma expand_days_total ms : forall acc,
  Forall has_end ms -> exists rows, UnitStrengthHistory.expand_days ms acc = Ok rows.
Proof.
  induction ms as [|m ms IH]; intros acc H; simpl; [eauto|].
  inversion H as [|? ? Hm Hms]; subst.
  unfold UnitStrengthHistory.membership_days.
  destruct (end_date m) as [e|] eqn:E; [|now elim Hm].
  cbn [bind]. now apply IH.
Qed.

(** The daily strength table, row by row. *)
Lemma daily_table ms table D U n :
  UnitStrengthHistory.calculate_daily_strength ms = Ok table ->
  In (UnitStrengthHistory.mkStrength D U n) table <->
  Pandas.notna U = true /\
  n = Z.of_nat (List.length
        (filter (fun m => unit_eqb (unit_of m) U && covers m D) ms)) /\
  1 <= n.
Proof.
  unfold UnitStrengthHistory.calculate_daily_strength.
  destruct (UnitStrengthHistory.expand_days ms []) as [rows|] eqn:E;
    cbn [bind]; [|discriminate].
  destruct rows as [|r0 rows0] eqn:Er; [discriminate|]. rewrite <- Er in *.
  intros [= <-].
  pose proof (expand_days_count ms [] rows D U E) as Hc. simpl in Hc.
  rewrite (sort_keys_In UnitStrengthHistory.strength_row_leb), in_map_iff.
  set (rows' := filter (fun k => Pandas.notna (snd k)) rows).
  assert (Hlen : List.length
            (filter (fun r => UnitStrengthHistory.daily_key_eqb r (D, U)) rows')
          = if Pandas.notna U
            then List.length
                   (filter (fun m => unit_eqb (unit_of m) U && covers m D) ms)
            else 0%nat).
  { pose proof (filter_eqb_filter UnitStrengthHistory.daily_key_eqb
                  daily_key_eqb_eq (fun k => Pandas.notna (snd k)) (D, U) rows)
      as F.
    cbn [snd] in F. rewrite Hc in F. exact F. }
  split.
  - intros ([[d u] g] & Hrow & Hin). cbn [fst snd] in Hrow.
    injection Hrow as -> -> <-.
    apply (groupby_In (fun k => k) UnitStrengthHistory.daily_key_eqb _
             daily_key_eqb_eq) in Hin as [Hk ->].
    rewrite map_id in Hk.
    apply (In_count UnitStrengthHistory.daily_key_eqb daily_key_eqb_eq) in Hk.
    fold rows' in Hk |- *. rewrite Hlen in *. destruct (Pandas.notna U); [|lia].
    repeat split; lia.
  - intros (Hn & -> & H1). rewrite Hn in Hlen.
    exists ((D, U), filter (fun r => UnitStrengthHistory.daily_key_eqb r (D, U)) rows').
    cbn [fst snd]. split; [now rewrite Hlen|].
    apply (groupby_In (fun k => k) UnitStrengthHistory.daily_key_eqb _
             daily_key_eqb_eq).
    split; [|reflexivity]. rewrite map_id.
    apply (In_count UnitStrengthHistory.daily_key_eqb daily_key_eqb_eq). lia.
Qed.

Lemma covers_span m D :
  starts_at_midnight m -> midnight D = true ->
  covers m D = span_contains m D.
Proof.
  unfold starts_at_midnight, midnight, covers, span_contains.
  intros Hs HD. apply Z.eqb_eq in Hs, HD.
  destruct (end_date m) as [e|]; [|reflexivity].
  rewrite Zminus_mod, HD, Hs. cbn. now rewrite andb_true_r.
Qed.

Lemma strength_at_covers ms D U :
  Forall starts_at_midnight ms -> midnight D = true ->
  Z.of_nat (List.length
    (filter (fun m => unit_eqb (unit_of m) U && covers m D) ms))
  = strength_at ms D U.
Proof.
  intros Hms HD. unfold strength_at. f_equal. f_equal.
  induction Hms as [|m ms Hm Hms IH]; [reflexivity|].
  simpl. rewrite (covers_span m D Hm HD), IH. reflexivity.
Qed.

End PandasFacts.

(** ** Daily strength *)

Module StrengthFacts.
Import Datetime Shapes PandasFacts.

Local Abbreviation known_unit :=
  (fun k : UnitStrengthHistory.daily_key => Pandas.notna (snd k)).

Lemma filter_notna_twice (rows : list UnitStrengthHistory.daily_key) :
  filter known_unit (filter known_unit rows)
  = filter known_unit rows.
Proof.
  induction rows as [|r rows IH]; [reflexivity|]. simpl.
  destruct (Pandas.notna (snd r)) eqn:E; simpl; [now rewrite E, IH | exact IH].
Qed.

Lemma membership_days_units m days :
  UnitStrengthHistory.membership_days m = Ok days ->
  filter known_unit days
  = if Pandas.notna (unit_of m) then days else [].
Proof.
  unfold UnitStrengthHistory.membership_days.
  destruct (end_date m) as [e|]; [|discriminate]. intros [= <-].
  induction (Pandas.date_range (start_date m) e) as [|d l IH]; simpl.
  - now destruct (Pandas.notna (unit_of m)).
  - rewrite IH. now destruct (Pandas.notna (unit_of m)).
Qed.

Lemma expand_days_filter ms : forall acc rows,
  UnitStrengthHistory.expand_days ms acc = Ok rows ->
  UnitStrengthHistory.expand_days
    (filter (fun m => Pandas.notna (unit_of m)) ms)
    (filter known_unit acc)
  = Ok (filter known_unit rows).
Proof.
  induction ms as [|m ms IH]; intros acc rows H; simpl in H.
  - now injection H as <-.
  - destruct (UnitStrengthHistory.membership_days m) as [days|] eqn:E;
      cbn [bind] in H; [|discriminate].
    apply IH in H. rewrite filter_app, (membership_days_units m days E) in H.
    cbn [filter]. destruct (Pandas.notna (unit_of m)).
    + cbn [UnitStrengthHistory.expand_days]. rewrite E. exact H.
    + now rewrite app_nil_r in H.
Qed.

Lemma daily_strength_drops_unknown ms table :
  UnitStrengthHistory.calculate_daily_strength ms = Ok table ->
  Forall (fun r => Pandas.notna (UnitStrengthHistory.s_unit r) = true) table /\
  (UnitStrengthHistory.calculate_daily_strength
     (filter (fun m => Pandas.notna (unit_of m)) ms) = Ok table
   \/ (table = [] /\
       UnitStrengthHistory.calculate_daily_strength
         (filter (fun m => Pandas.notna (unit_of m)) ms) = Raise KeyError)).
Proof.
  intros H. split.
  - apply Forall_forall. intros [D U n] Hr.
    now apply (daily_table ms table D U n H) in Hr as [Hn _].
  - unfold UnitStrengthHistory.calculate_daily_strength in *.
    destruct (UnitStrengthHistory.expand_days ms []) as [rows|] eqn:E;
      cbn [bind] in H; [|discriminate].
    pose proof (expand_days_filter ms [] rows E) as F. cbn [filter] in F.
    rewrite F. cbn [bind].
    destruct rows as [|r0 rows0] eqn:Er; [discriminate|]. rewrite <- Er in *.
    injection H as <-.
    change (filter (fun k : datetime * unit_fields => Pandas.notna (snd k)) rows)
      with (filter known_unit rows).
    destruct (filter known_unit rows) as [|r1 rows1] eqn:Ef.
    + right. split; reflexivity.
    + left. rewrite <- Ef, filter_notna_twice. reflexivity.
Qed.

Lemma daily_strength_total ms :
  Forall has_end ms ->
  Exists (fun m => span_contains m (start_date m) = true) ms ->
  exists table, UnitStrengthHistory.calculate_daily_strength ms = Ok table.
Proof.
  intros He Hx. unfold UnitStrengthHistory.calculate_daily_strength.
  destruct (expand_days_total ms [] He) as [rows E]. rewrite E. cbn [bind].
  destruct rows as [|r rows]; [|eauto].
  exfalso. apply Exists_exists in Hx as (m & Hm & Hs).
  pose proof (expand_days_count ms [] [] (start_date m) (unit_of m) E) as Hc.
  simpl in Hc.
  assert (In m (filter (fun m' => unit_eqb (unit_of m') (unit_of m)
                                  && covers m' (start_date m)) ms)) as Hin.
  { apply filter_In. split; [exact Hm|].
    apply andb_true_iff. split; [now apply unit_eqb_eq|].
    unfold covers, span_contains in *. destruct (end_date m); [|discriminate].
    rewrite Hs, Z.sub_diag. reflexivity. }
  destruct (filter _ ms); [contradiction | discriminate].
Qed.

End StrengthFacts.

(** C6 (amended).  For every set of memberships that start at midnight and
    carry an end date, one of them at least not ending before it starts,
    [calculate_daily_strength] returns a table in which, for every date [D]
    and every unit [U] whose four fields are all present, the count at
    [(D, U)] is the number of memberships of unit [U] whose inclusive span
    from start date to end date holds [D], and a row for [(D, U)] is there
    exactly when that count is 1 or more.  (There is no horizon in the code,
    and a unit with an absent field has no row.) *)
Theorem daily_strength_counts (ms : list membership) :
  Forall Shapes.starts_at_midnight ms ->
  Forall Shapes.has_end ms ->
  Exists (fun m => Shapes.span_contains m (start_date m) = true) ms ->
  exists table,
    UnitStrengthHistory.calculate_daily_strength ms = Ok table /\
    forall D U,
      Datetime.midnight D = true ->
      Pandas.notna U = true ->
      forall n,
        In (UnitStrengthHistory.mkStrength D U n) table <->
        n = Shapes.strength_at ms D U /\ 1 <= n.
Proof.
  intros Hm He Hx.
  destruct (StrengthFacts.daily_strength_total ms He Hx) as [table Ht].
  exists table. split; [exact Ht|]. intros D U HD HU n.
  rewrite (PandasFacts.daily_table ms table D U n Ht),
    (PandasFacts.strength_at_covers ms D U Hm HD).
  intuition.
Qed.

Lemma daily_strength_counts_witness :
  exists table,
    UnitStrengthHistory.calculate_daily_strength [Samples.membership_known]
    = Ok table /\
    In (UnitStrengthHistory.mkStrength (Samples.day 2023 1 3) Samples.unit_2_3_B 1)
       table.
Proof.
  destruct (daily_strength_counts [Samples.membership_known]) as [table [Ht Hrows]].
  - repeat constructor.
  - repeat constructor. discriminate.
  - apply Exists_cons_hd. reflexivity.
  - exists table. split; [exact Ht|].
    apply (Hrows (Samples.day 2023 1 3) Samples.unit_2_3_B); [reflexivity..|].
    split; [reflexivity | lia].
Defined.

(** C6, as stated, fails for a unit with absent fields: one membership of
    the unit that [parse_unit] returns for "S3 Staff" spans 2023-01-01 to
    2023-01-03, so the count of memberships of that unit that hold
    2023-01-02 is 1; the table has no row at all. *)
Lemma unknown_unit_has_no_row :
  Shapes.strength_at [Samples.membership_unknown] (Samples.day 2023 1 2)
    Samples.unit_staff = 1 /\
  UnitStrengthHistory.calculate_daily_strength [Samples.membership_unknown] = Ok [].
Proof. split; reflexivity. Qed.

(** ** Open assignments and the clock *)

Module ClockFacts.
Import Datetime Shapes PandasFacts.

Lemma create_step_closed st ev :
  Forall has_end (fst st) -> Forall has_end (fst (create_step st ev)).
Proof.
  destruct st as [ms cur]. unfold create_step. cbn [fst].
  intros H. destruct (event ev); destruct cur as [c|]; cbn [fst]; try exact H;
    apply Forall_app; (split; [exact H|]); repeat constructor; discriminate.
Qed.

Lemma create_loop_closed events : forall st,
  Forall has_end (fst st) ->
  Forall has_end (fst (fold_left create_step events st)).
Proof.
  induction events as [|ev events IH]; intros st H; [exact H|].
  cbn [fold_left]. apply IH. now apply create_step_closed.
Qed.

(** Every membership that [create_memberships] returns carries an end
    date. *)
Lemma create_memberships_closed clk n events :
  Forall has_end (fst (create_memberships clk n events)).
Proof.
  unfold create_memberships, create_loop.
  pose proof (create_loop_closed events ([], None) (Forall_nil _)) as H.
  destruct (fold_left create_step events ([], None)) as [ms [c|]];
    cbn [fst] in *; [|exact H].
  apply Forall_app. split; [exact H|]. repeat constructor. discriminate.
Qed.

Lemma create_memberships_last_transfer clk n pre ev :
  event ev = transfer ->
  create_memberships clk n (pre ++ [ev])
  = (fst (create_step (create_loop pre) ev)
       ++ [mkMembership (date ev) (fields ev) (Some (clk n))], S n).
Proof.
  intros Ht. unfold create_memberships, create_loop.
  rewrite fold_left_app. cbn [fold_left].
  destruct (fold_left create_step pre ([], None)) as [ms cur].
  unfold create_step. rewrite Ht. destruct cur; reflexivity.
Qed.

Lemma count_with_final (f : membership -> bool) before earlier final after :
  f final = true ->
  Z.of_nat (List.length (filter f (before ++ (earlier ++ [final]) ++ after)))
  = Z.of_nat (List.length (filter f (before ++ earlier ++ after))) + 1.
Proof.
  intros Hf. rewrite !filter_app, !length_app. cbn [filter]. rewrite Hf.
  cbn [List.length]. lia.
Qed.

End ClockFacts.

(** C5 (amended).  For every member whose event sequence ends with a
    transfer, [create_memberships] emits the last membership with the
    reading of the clock ([datetime.now()]) as its end date, not with an
    absent one.  When the clock reads a time of day [asof] (2023-06-01 for
    instance), the membership starts at midnight of a day up to [asof] and
    its unit has its four fields, the daily strength table exists and the
    member adds one to the count of every day of that unit from the start
    date through [asof] inclusive. *)
Theorem open_interval_closed_by_clock
  (clk : clock) (n : nat) (pre : list event_row) (ev : event_row) :
  event ev = transfer ->
  exists earlier,
    create_memberships clk n (pre ++ [ev])
    = (earlier ++ [mkMembership (date ev) (fields ev) (Some (clk n))], S n) /\
    forall (asof : Z) (before after : list membership),
      Datetime.toordinal (clk n) = asof ->
      Datetime.midnight (date ev) = true ->
      date ev <= asof * Datetime.DAY ->
      Pandas.notna (fields ev) = true ->
      Forall Shapes.starts_at_midnight (before ++ earlier ++ after) ->
      Forall Shapes.has_end (before ++ after) ->
      exists table,
        UnitStrengthHistory.calculate_daily_strength
          (before
           ++ (earlier ++ [mkMembership (date ev) (fields ev) (Some (clk n))])
           ++ after) = Ok table /\
        forall D,
          Datetime.midnight D = true ->
          date ev <= D <= asof * Datetime.DAY ->
          In (UnitStrengthHistory.mkStrength D (fields ev)
                (Shapes.strength_at (before ++ earlier ++ after) D (fields ev) + 1))
             table.
Proof.
  intros Ht. exists (fst (create_step (create_loop pre) ev)).
  split; [now apply ClockFacts.create_memberships_last_transfer|].
  set (earlier := fst (create_step (create_loop pre) ev)).
  set (final := mkMembership (date ev) (fields ev) (Some (clk n))).
  intros asof before after Hclk Hmid Hstart Hu Hm He.
  assert (asof * Datetime.DAY <= clk n) as Hnow.
  { subst asof. unfold Datetime.toordinal. rewrite Z.mul_comm.
    apply Z.mul_div_le. unfold Datetime.DAY. lia. }
  assert (Hclosed : Forall Shapes.has_end earlier).
  { pose proof (ClockFacts.create_memberships_closed clk n (pre ++ [ev])) as Hc.
    rewrite (ClockFacts.create_memberships_last_transfer clk n pre ev Ht) in Hc.
    cbn [fst] in Hc. now apply Forall_app in Hc as [Hc _]. }
  destruct (StrengthFacts.daily_strength_total
              (before ++ (earlier ++ [final]) ++ after)) as [table Htable].
  - apply Forall_app in He as [Hb Ha].
    repeat (apply Forall_app; split); try assumption.
    repeat constructor. discriminate.
  - apply Exists_app. right. apply Exists_app. left. apply Exists_app. right.
    apply Exists_cons_hd. unfold Shapes.span_contains, final. cbn.
    apply andb_true_iff. split; [apply Z.leb_refl | apply Z.leb_le; lia].
  - exists table. split; [exact Htable|]. intros D HD [HD1 HD2].
    apply (PandasFacts.daily_table _ table D (fields ev) _ Htable).
    split; [exact Hu|].
    rewrite <- (PandasFacts.strength_at_covers _ D (fields ev) Hm HD).
    split.
    + symmetry. apply ClockFacts.count_with_final.
      apply andb_true_iff. split; [now apply PandasFacts.unit_eqb_eq|].
      rewrite (PandasFacts.covers_span final D Hmid HD).
      unfold Shapes.span_contains, final. cbn.
      apply andb_true_iff. split; apply Z.leb_le; lia.
    + lia.
Qed.

Lemma open_interval_closed_by_clock_witness :
  exists table,
    UnitStrengthHistory.calculate_daily_strength
      (fst (create_memberships Samples.clock_06_01 0
              [mkEvent (Samples.day 2023 5 30) transfer Samples.unit_2_3_B]))
    = Ok table /\
    In (UnitStrengthHistory.mkStrength (Samples.day 2023 6 1) Samples.unit_2_3_B 1)
       table.
Proof.
  destruct (open_interval_closed_by_clock Samples.clock_06_01 0 []
              (mkEvent (Samples.day 2023 5 30) transfer Samples.unit_2_3_B)
              eq_refl) as [earlier [Hc H]].
  assert (earlier = []) as ->.
  { cbn in Hc. injection Hc as Hc.
    now apply (app_inj_tail [] earlier) in Hc as [<- _]. }
  destruct (H (Datetime.ymd2ord 2023 6 1) [] []) as [table [Ht Hrow]].
  - reflexivity.
  - reflexivity.
  - vm_compute. discriminate.
  - reflexivity.
  - constructor.
  - constructor.
  - exists table. split; [exact Ht|].
    apply (Hrow (Samples.day 2023 6 1)); [reflexivity|].
    split; vm_compute; discriminate.
Defined.

(** C5, as stated, fails on a member with a single transfer on 2023-05-30,
    the clock reading 14:30 on 2023-06-01: the membership that
    [create_memberships] emits has that reading as its end date, it is not
    absent. *)
Lemma open_interval_end_date_is_now :
  map end_date
    (fst (create_memberships Samples.clock_06_01 0
            [mkEvent (Samples.day 2023 5 30) transfer Samples.unit_2_3_B]))
  = [Some (Samples.day 2023 6 1 + 52200000000)].
Proof. reflexivity. Qed.

(** ** Binary floating point *)

Module FloatFacts.
Import Float64.

Lemma round_half_even_mono (n1 n2 d : Z) :
  0 < d -> n1 <= n2 -> round_half_even n1 d <= round_half_even n2 d.
Proof.
  intros Hd Hn. unfold round_half_even.
  pose proof (Z.div_mod n1 d ltac:(lia)) as E1.
  pose proof (Z.div_mod n2 d ltac:(lia)) as E2.
  pose proof (Z.mod_pos_bound n1 d Hd) as B1.
  pose proof (Z.mod_pos_bound n2 d Hd) as B2.
  pose proof (Z.div_le_mono n1 n2 d Hd Hn) as Hq.
  set (q1 := n1 / d) in *. set (q2 := n2 / d) in *.
  set (r1 := n1 mod d) in *. set (r2 := n2 mod d) in *.
  destruct (Z.eq_dec q1 q2) as [Eq|Ne].
  - assert (r1 <= r2) by nia. rewrite Eq.
    destruct (Z.ltb_spec (2 * r1) d); destruct (Z.ltb_spec (2 * r2) d);
      destruct (Z.ltb_spec d (2 * r1)); destruct (Z.ltb_spec d (2 * r2));
      destruct (Z.even q2); lia.
  - assert (q1 + 1 <= q2) by lia.
    destruct (2 * r1 <? d); destruct (2 * r2 <? d);
      destruct (d <? 2 * r1); destruct (d <? 2 * r2);
      destruct (Z.even q1); destruct (Z.even q2); lia.
Qed.

Lemma round_half_even_exact (k d : Z) :
  0 < d -> round_half_even (k * d) d = k.
Proof.
  intros Hd. unfold round_half_even.
  rewrite Z.div_mul, Z.mod_mul by lia.
  destruct (Z.ltb_spec (2 * 0) d); [reflexivity | lia].
Qed.

Lemma round_half_even_scale (n d c : Z) :
  0 < d -> 0 < c -> round_half_even (n * c) (d * c) = round_half_even n d.
Proof.
  intros Hd Hc. unfold round_half_even.
  rewrite Z.div_mul_cancel_r by lia.
  rewrite Z.mul_mod_distr_r by lia.
  pose proof (Z.mod_pos_bound n d Hd) as B.
  set (q := n / d). set (r := n mod d) in *.
  assert ((2 * (r * c) <? d * c) = (2 * r <? d)) as ->
    by (destruct (Z.ltb_spec (2 * (r * c)) (d * c)); destruct (Z.ltb_spec (2 * r) d);
        try reflexivity; nia).
  assert ((d * c <? 2 * (r * c)) = (d <? 2 * r)) as ->
    by (destruct (Z.ltb_spec (d * c) (2 * (r * c))); destruct (Z.ltb_spec d (2 * r));
        try reflexivity; nia).
  reflexivity.
Qed.

Lemma round_half_even_near (n d : Z) :
  0 < d -> 2 * n - d <= 2 * (round_half_even n d * d) <= 2 * n + d.
Proof.
  intros Hd. unfold round_half_even.
  pose proof (Z.div_mod n d ltac:(lia)) as E.
  pose proof (Z.mod_pos_bound n d Hd) as B.
  set (q := n / d) in *. set (r := n mod d) in *.
  destruct (Z.ltb_spec (2 * r) d); [nia|].
  destruct (Z.ltb_spec d (2 * r)); [nia|].
  destruct (Z.even q); nia.
Qed.

Lemma rint_mono (q1 q2 : Q) : (q1 <= q2)%Q -> rint q1 <= rint q2.
Proof.
  destruct q1 as [n1 d1], q2 as [n2 d2]. unfold Qle, rint. cbn [Qnum Qden].
  intros H.
  rewrite <- (round_half_even_scale n1 (Zpos d1) (Zpos d2)) by lia.
  rewrite <- (round_half_even_scale n2 (Zpos d2) (Zpos d1)) by lia.
  rewrite (Z.mul_comm (Zpos d2) (Zpos d1)).
  apply round_half_even_mono; lia.
Qed.

Lemma rint_comp (q1 q2 : Q) : (q1 == q2)%Q -> rint q1 = rint q2.
Proof.
  intros H. apply Z.le_antisymm; apply rint_mono; rewrite H; apply Qle_refl.
Qed.

Lemma rint_Z (k : Z) : rint (inject_Z k) = k.
Proof.
  unfold rint, inject_Z. cbn [Qnum Qden].
  rewrite <- (Z.mul_1_r k) at 1. now apply round_half_even_exact.
Qed.

Lemma rint_near (q : Q) :
  (q - (1 # 2) <= inject_Z (rint q))%Q /\ (inject_Z (rint q) <= q + (1 # 2))%Q.
Proof.
  destruct q as [n d]. unfold rint. cbn [Qnum Qden].
  pose proof (round_half_even_near n (Zpos d) ltac:(lia)) as H.
  set (k := round_half_even n (Zpos d)) in *.
  unfold Qle, Qminus, Qplus, Qopp, inject_Z. cbn [Qnum Qden].
  split; nia.
Qed.

Lemma pow2_pos (e : Z) : (0 < 2 ^ e)%Q.
Proof. now apply Qpower_0_lt. Qed.

Lemma pow2_succ (e : Z) : (2 ^ (e + 1) == 2 * 2 ^ e)%Q.
Proof. rewrite Qpower_plus by discriminate. rewrite Qpower_1_r. ring. Qed.

Lemma pow2_le (a b : Z) : a <= b -> (2 ^ a <= 2 ^ b)%Q.
Proof. intros H. apply Qpower_le_compat_l; [exact H | discriminate]. Qed.

Lemma pow2_Z (a : Z) : 0 <= a -> (inject_Z (2 ^ a) == 2 ^ a)%Q.
Proof. intros H. now rewrite Zpower_Qpower. Qed.

(** [floor_log2 q] is the exponent of the binade of [q]. *)
Lemma floor_log2_spec (q : Q) :
  (0 < q)%Q ->
  (2 ^ floor_log2 q <= q)%Q /\ (q < 2 ^ (floor_log2 q + 1))%Q.
Proof.
  intros Hq. unfold floor_log2.
  destruct q as [n d]. cbn [Qnum Qden].
  assert (0 < n) as Hn by (unfold Qlt in Hq; cbn in Hq; lia).
  pose proof (Z.log2_spec n Hn) as [La Ua].
  pose proof (Z.log2_spec (Zpos d) ltac:(lia)) as [Lb Ub].
  pose proof (Z.log2_nonneg n) as Na.
  pose proof (Z.log2_nonneg (Zpos d)) as Nb.
  set (a := Z.log2 n) in *. set (b := Z.log2 (Zpos d)) in *.
  assert (HA : (inject_Z (2 ^ a) == 2 ^ a)%Q) by now apply pow2_Z.
  assert (HB : (inject_Z (2 ^ b) == 2 ^ b)%Q) by now apply pow2_Z.
  assert (HE : (2 ^ (a - b) * 2 ^ b == 2 ^ a)%Q).
  { rewrite <- Qpower_plus by discriminate. now replace (a - b + b) with a by lia. }
  assert (HQ : ((n # d) * inject_Z (Zpos d) == inject_Z n)%Q).
  { unfold Qeq, Qmult, inject_Z. cbn [Qnum Qden]. lia. }
  assert (LA : (2 ^ a <= inject_Z n)%Q) by (rewrite <- HA, <- Zle_Qle; exact La).
  assert (UA : (inject_Z n < 2 * 2 ^ a)%Q).
  { rewrite <- HA. change 2%Q with (inject_Z 2). rewrite <- inject_Z_mult, <- Zlt_Qlt.
    rewrite Z.pow_succ_r in Ua by lia. exact Ua. }
  assert (LB : (2 ^ b <= inject_Z (Zpos d))%Q) by (rewrite <- HB, <- Zle_Qle; exact Lb).
  assert (UB : (inject_Z (Zpos d) < 2 * 2 ^ b)%Q).
  { rewrite <- HB. change 2%Q with (inject_Z 2). rewrite <- inject_Z_mult, <- Zlt_Qlt.
    rewrite Z.pow_succ_r in Ub by lia. exact Ub. }
  pose proof (pow2_pos (a - b)) as PE. pose proof (pow2_pos b) as PB.
  pose proof (pow2_pos a) as PA.
  set (N := inject_Z n) in *. set (D := inject_Z (Zpos d)) in *.
  set (A := (2 ^ a)%Q) in *. set (B := (2 ^ b)%Q) in *.
  destruct (Qle_bool (2 ^ (a - b)) (n # d)) eqn:C.
  - apply Qle_bool_iff in C. split; [exact C|].
    rewrite pow2_succ. set (E := (2 ^ (a - b))%Q) in *.
    set (x := n # d) in *. nra.
  - assert (C' : (n # d < 2 ^ (a - b))%Q).
    { apply Qnot_le_lt. intros H. apply Qle_bool_iff in H. congruence. }
    replace (a - b - 1 + 1) with (a - b) by lia. split; [|exact C'].
    pose proof (pow2_succ (a - b - 1)) as S1.
    replace (a - b - 1 + 1) with (a - b) in S1 by lia.
    pose proof (pow2_pos (a - b - 1)) as PE1.
    set (E := (2 ^ (a - b))%Q) in *. set (E1 := (2 ^ (a - b - 1))%Q) in *.
    set (x := n # d) in *. nra.
Qed.

Lemma floor_log2_mono (q1 q2 : Q) :
  (0 < q1)%Q -> (q1 <= q2)%Q -> floor_log2 q1 <= floor_log2 q2.
Proof.
  intros H1 H12.
  destruct (floor_log2_spec q1 H1) as [L1 _].
  destruct (floor_log2_spec q2 ltac:(lra)) as [_ U2].
  assert (floor_log2 q1 < floor_log2 q2 + 1); [|lia].
  apply (Qpower_lt_compat_l_inv 2); [lra | reflexivity].
Qed.

Lemma ulp_pos (q : Q) : (0 < ulp q)%Q.
Proof. apply pow2_pos. Qed.

(** The significand [q / ulp q] of a positive [q] lies below [2^53], and
    from [2^52] on when [q] is a normal number. *)
Lemma significand_below (q : Q) (E : Z) :
  (0 < q)%Q -> floor_log2 q <= E ->
  (q / 2 ^ (E - (prec - 1)) <= inject_Z (2 ^ prec))%Q.
Proof.
  intros Hq HE. destruct (floor_log2_spec q Hq) as [_ U].
  pose proof (pow2_le (floor_log2 q + 1) (E + 1) ltac:(lia)) as M.
  pose proof (pow2_pos (E - (prec - 1))) as P.
  apply Qle_shift_div_r; [exact P|].
  rewrite pow2_Z by (unfold prec; lia).
  rewrite <- Qpower_plus by discriminate.
  replace (prec + (E - (prec - 1))) with (E + 1) by lia. lra.
Qed.

Lemma significand_above (q : Q) :
  (0 < q)%Q ->
  (inject_Z (2 ^ (prec - 1)) <= q / 2 ^ (floor_log2 q - (prec - 1)))%Q.
Proof.
  intros Hq. destruct (floor_log2_spec q Hq) as [L _].
  pose proof (pow2_pos (floor_log2 q - (prec - 1))) as P.
  apply Qle_shift_div_l; [exact P|].
  rewrite pow2_Z by (unfold prec; lia).
  rewrite <- Qpower_plus by discriminate.
  now replace (prec - 1 + (floor_log2 q - (prec - 1))) with (floor_log2 q) by lia.
Qed.

Lemma round_pos_mono (q1 q2 : Q) :
  (0 < q1)%Q -> (q1 <= q2)%Q -> (round_pos q1 <= round_pos q2)%Q.
Proof.
  intros H1 H12. assert (H2 : (0 < q2)%Q) by lra.
  pose proof (floor_log2_mono q1 q2 H1 H12) as Hm.
  unfold round_pos, ulp.
  set (E1 := Z.max (floor_log2 q1) emin). set (E2 := Z.max (floor_log2 q2) emin).
  assert (E1 <= E2) as HE by lia.
  pose proof (pow2_pos (E1 - (prec - 1))) as P1.
  pose proof (pow2_pos (E2 - (prec - 1))) as P2.
  destruct (Z.eq_dec E1 E2) as [Eq | Ne].
  - rewrite <- Eq. apply Qmult_le_compat_r; [|lra].
    rewrite <- Zle_Qle. apply rint_mono.
    apply Qmult_le_compat_r; [exact H12|]. apply Qlt_le_weak, Qinv_lt_0_compat, P1.
  - assert (E1 + 1 <= E2) as Hlt by lia.
    assert (E2 = floor_log2 q2) as HE2 by lia.
    apply (Qle_trans _ (2 ^ (E1 + 1))).
    + pose proof (significand_below q1 E1 H1 ltac:(lia)) as S1.
      apply rint_mono in S1. rewrite rint_Z in S1. rewrite Zle_Qle in S1.
      rewrite pow2_Z in S1 by (unfold prec; lia).
      apply (Qle_trans _ (2 ^ prec * 2 ^ (E1 - (prec - 1)))).
      * apply Qmult_le_compat_r; [exact S1 | lra].
      * rewrite <- Qpower_plus by discriminate.
        replace (prec + (E1 - (prec - 1))) with (E1 + 1) by lia. apply Qle_refl.
    + apply (Qle_trans _ (2 ^ E2)); [now apply pow2_le|].
      pose proof (significand_above q2 H2) as S2. rewrite <- HE2 in S2.
      apply rint_mono in S2. rewrite rint_Z in S2. rewrite Zle_Qle in S2.
      rewrite pow2_Z in S2 by (unfold prec; lia).
      apply (Qle_trans _ (2 ^ (prec - 1) * 2 ^ (E2 - (prec - 1)))).
      * rewrite <- Qpower_plus by discriminate.
        replace (prec - 1 + (E2 - (prec - 1))) with E2 by lia. apply Qle_refl.
      * apply Qmult_le_compat_r; [exact S2 | lra].
Qed.

Lemma round_pos_nonneg (q : Q) : (0 <= q)%Q -> (0 <= round_pos q)%Q.
Proof.
  intros Hq. unfold round_pos. pose proof (ulp_pos q) as P.
  apply Qmult_le_0_compat; [|lra].
  change 0%Q with (inject_Z 0). rewrite <- Zle_Qle.
  rewrite <- (rint_Z 0). apply rint_mono. change (inject_Z 0) with 0%Q.
  apply Qle_shift_div_l; [exact P | lra].
Qed.

(** Equal rationals round to the same float. *)
Lemma round_comp (q1 q2 : Q) : (q1 == q2)%Q -> round q1 = round q2.
Proof. intros H. unfold round. now rewrite (Qred_complete q1 q2 H). Qed.

Lemma round_of_pos (q : Q) : (0 < q)%Q -> (round q == round_pos (Qred q))%Q.
Proof.
  intros Hq. unfold round. cbn zeta.
  assert ((Qred q ?= 0)%Q = Gt) as ->.
  { apply Qgt_alt. now rewrite Qred_correct. }
  apply Qred_correct.
Qed.

Lemma round_of_0 (q : Q) : (q == 0)%Q -> round q = 0%Q.
Proof.
  intros Hq. unfold round. cbn zeta.
  assert ((Qred q ?= 0)%Q = Eq) as ->; [|reflexivity].
  apply Qeq_alt. now rewrite Qred_correct.
Qed.

(** Rounding is monotone (on the numbers that are not negative). *)
Lemma round_mono (q1 q2 : Q) :
  (0 <= q1)%Q -> (q1 <= q2)%Q -> (round q1 <= round q2)%Q.
Proof.
  intros H1 H12.
  destruct (Qlt_le_dec 0 q1) as [P1 | Z1].
  - rewrite (round_of_pos q1 P1), (round_of_pos q2) by lra.
    apply round_pos_mono; rewrite !Qred_correct; assumption.
  - rewrite (round_of_0 q1) by lra.
    destruct (Qlt_le_dec 0 q2) as [P2 | Z2].
    + rewrite (round_of_pos q2 P2). apply round_pos_nonneg.
      rewrite Qred_correct. lra.
    + rewrite (round_of_0 q2) by lra. apply Qle_refl.
Qed.

Lemma round_nonneg (q : Q) : (0 <= q)%Q -> (0 <= round q)%Q.
Proof.
  intros Hq. change 0%Q with (round 0) at 1. now apply round_mono; [apply Qle_refl|].
Qed.

(** A positive number below [2^(e+1)] moves by half a unit in the last
    place of its binade at most. *)
Lemma round_near (q : Q) (e : Z) :
  (0 <= q)%Q -> (q < 2 ^ (e + 1))%Q -> emin <= e ->
  (q - 2 ^ (e - prec) <= round q)%Q /\ (round q <= q + 2 ^ (e - prec))%Q.
Proof.
  intros Hq Hlt He. pose proof (pow2_pos (e - prec)) as Pe.
  destruct (Qlt_le_dec 0 q) as [P | Z].
  2:{ rewrite (round_of_0 q) by lra. split; lra. }
  rewrite (round_of_pos q P). unfold round_pos.
  assert (Hq' : (Qred q == q)%Q) by apply Qred_correct.
  assert (P' : (0 < Qred q)%Q) by now rewrite Hq'.
  destruct (floor_log2_spec (Qred q) P') as [L _].
  assert (floor_log2 (Qred q) <= e) as Hfl.
  { assert (floor_log2 (Qred q) < e + 1); [|lia].
    apply (Qpower_lt_compat_l_inv 2); [|reflexivity].
    apply (Qle_lt_trans _ (Qred q)); [exact L|]. rewrite Hq'. exact Hlt. }
  unfold ulp. set (E := Z.max (floor_log2 (Qred q)) emin).
  assert (E <= e) as HE by lia.
  pose proof (pow2_pos (E - (prec - 1))) as Pu.
  set (u := (2 ^ (E - (prec - 1)))%Q) in *.
  destruct (rint_near (Qred q / u)) as [N1 N2].
  set (k := inject_Z (rint (Qred q / u))) in *.
  assert (Hdiv : (Qred q / u * u == q)%Q).
  { rewrite Hq'. field. lra. }
  assert (Hu : (u == 2 * 2 ^ (E - prec))%Q).
  { unfold u. rewrite <- pow2_succ. now replace (E - prec + 1) with (E - (prec - 1)) by lia. }
  pose proof (pow2_le (E - prec) (e - prec) ltac:(lia)) as M.
  pose proof (pow2_pos (E - prec)) as Ph.
  set (h := (2 ^ (E - prec))%Q) in *. set (x := (Qred q / u)%Q) in *.
  split; nra.
Qed.

(** The rounding written out here against the Standard Library's
    specification of IEEE 754: the same quotient for all the fractions
    [a / b] with [1 <= b <= 32] and [-b <= a <= 2 * b]. *)
Lemma div_agrees_with_SpecFloat :
  forallb (fun b =>
             forallb (fun a =>
                        match Shapes.ieee_div a b with
                        | Some q => Qeq_bool q (div (of_int a) (of_int b))
                        | None => false
                        end)
                     (map (fun k => Z.of_nat k - b) (seq 0 (3 * Z.to_nat b + 1))))
          (map Z.of_nat (seq 1 32))
  = true.
Proof. vm_compute. reflexivity. Qed.

Lemma round_0 : round 0 = 0%Q. Proof. reflexivity. Qed.
Lemma round_1 : round 1 = 1%Q. Proof. vm_compute. reflexivity. Qed.
Lemma round_100 : round 100 = 100%Q. Proof. vm_compute. reflexivity. Qed.
Lemma round_10000 : round 10000 = 10000%Q. Proof. vm_compute. reflexivity. Qed.


Lemma Qred_inject_Z (z : Z) : Qred (inject_Z z) = inject_Z z.
Proof.
  unfold Qred, inject_Z.
  pose proof (Z.ggcd_gcd z 1) as G. pose proof (Z.ggcd_correct_divisors z 1) as D.
  destruct (Z.ggcd z 1) as [g [aa bb]]. cbn [fst snd] in *.
  rewrite Z.gcd_1_r in G. subst g. destruct D as [-> D].
  replace bb with 1 by lia. now rewrite Z.mul_1_l.
Qed.

(** An integer below [2^53] is a float. *)
Lemma of_int_exact (z : Z) : 0 <= z < 2 ^ prec -> of_int z = inject_Z z.
Proof.
  intros [H0 H1]. unfold of_int.
  destruct (Z.eq_dec z 0) as [-> | Hz]; [reflexivity|].
  assert (P : (0 < inject_Z z)%Q) by (change 0%Q with (inject_Z 0); rewrite <- Zlt_Qlt; lia).
  assert (R : Qred (inject_Z z) = inject_Z z).
  { apply Qred_inject_Z. }
  unfold round. cbn zeta. rewrite R.
  assert ((inject_Z z ?= 0)%Q = Gt) as -> by now apply Qgt_alt.
  rewrite <- R at 2. apply Qred_complete.
  destruct (floor_log2_spec (inject_Z z) P) as [L U].
  assert (0 <= floor_log2 (inject_Z z) < prec) as [F0 F1].
  { split.
    - assert (0 < floor_log2 (inject_Z z) + 1); [|lia].
      apply (Qpower_lt_compat_l_inv 2); [|reflexivity].
      apply (Qle_lt_trans _ (inject_Z z)); [|exact U].
      change (2 ^ 0)%Q with (inject_Z 1). rewrite <- Zle_Qle. lia.
    - apply (Qpower_lt_compat_l_inv 2); [|reflexivity].
      apply (Qle_lt_trans _ (inject_Z z)); [exact L|].
      rewrite <- pow2_Z by (unfold prec; lia). rewrite <- Zlt_Qlt. exact H1. }
  unfold round_pos, ulp. set (f := floor_log2 (inject_Z z)) in *.
  replace (Z.max f emin) with f by (unfold emin; lia).
  assert (Hu : (2 ^ (f - (prec - 1)) * inject_Z (2 ^ (prec - 1 - f)) == 1)%Q).
  { rewrite pow2_Z by lia. rewrite <- Qpower_plus by discriminate.
    now replace (f - (prec - 1) + (prec - 1 - f)) with 0 by lia. }
  pose proof (pow2_pos (f - (prec - 1))) as Pu.
  set (u := (2 ^ (f - (prec - 1)))%Q) in *.
  assert (Hs : (inject_Z z / u == inject_Z (z * 2 ^ (prec - 1 - f)))%Q).
  { rewrite inject_Z_mult. set (c := inject_Z (2 ^ (prec - 1 - f))) in *.
    assert (Hc : (c == / u)%Q).
    { rewrite <- (Qmult_1_l (/ u)), <- Hu. field. lra. }
    unfold Qdiv. now rewrite Hc. }
  rewrite (rint_comp _ _ Hs), rint_Z, inject_Z_mult.
  rewrite <- Qmult_assoc, (Qmult_comm _ u), Hu. ring.
Qed.

End FloatFacts.

Module PercentFacts.
Import Float64 FloatFacts.

Lemma of_int_mono (a b : Z) : 0 <= a <= b -> (of_int a <= of_int b)%Q.
Proof.
  intros [H0 H]. unfold of_int. apply round_mono.
  - change 0%Q with (inject_Z 0). now rewrite <- Zle_Qle.
  - now rewrite <- Zle_Qle.
Qed.

Lemma of_int_pos (t : Z) : 0 < t -> (1 <= of_int t)%Q.
Proof.
  intros Ht. change 1%Q with (of_int 1). apply of_int_mono. lia.
Qed.

(** The steps of [round((retained / total) * 100, 2)] keep the order and
    the bounds 0 and 100. *)
Lemma times_100_mono (x y : Q) :
  (0 <= x)%Q -> (x <= y)%Q -> (mul x 100 <= mul y 100)%Q.
Proof. intros Hx H. unfold mul. apply round_mono; lra. Qed.

Lemma around2_mono (x y : Q) :
  (0 <= x)%Q -> (x <= y)%Q -> (around2 x <= around2 y)%Q.
Proof.
  intros Hx H. unfold around2, div.
  pose proof (times_100_mono x y Hx H) as M.
  assert (0 <= mul x 100)%Q as M0 by (unfold mul; apply round_nonneg; lra).
  apply rint_mono in M. apply rint_mono in M0. change (rint 0) with 0 in M0.
  rewrite Zle_Qle in M, M0. change (inject_Z 0) with 0%Q in M0.
  apply round_mono.
  - apply Qle_shift_div_l; lra.
  - apply Qmult_le_compat_r; [exact M | discriminate].
Qed.

Lemma times_100_of_100 : mul 1 100 = 100%Q.
Proof. vm_compute. reflexivity. Qed.

Lemma around2_100 : around2 100 = 100%Q.
Proof. vm_compute. reflexivity. Qed.

Lemma around2_0 : around2 0 = 0%Q.
Proof. vm_compute. reflexivity. Qed.

Lemma ratio_range (r t : Z) :
  0 < t -> 0 <= r <= t ->
  (0 <= div (of_int r) (of_int t))%Q /\ (div (of_int r) (of_int t) <= 1)%Q.
Proof.
  intros Ht Hr. pose proof (of_int_pos t Ht) as Pt.
  pose proof (of_int_mono 0 r ltac:(lia)) as L. change (of_int 0) with 0%Q in L.
  pose proof (of_int_mono r t ltac:(lia)) as U.
  unfold div. split.
  - apply round_nonneg. apply Qle_shift_div_l; lra.
  - apply (Qle_trans _ (round 1)); [|rewrite round_1; apply Qle_refl].
    apply round_mono.
    + apply Qle_shift_div_l; lra.
    + apply Qle_shift_div_r; lra.
Qed.

Lemma ratio_mono (r1 r2 t : Z) :
  0 < t -> 0 <= r1 <= r2 ->
  (div (of_int r1) (of_int t) <= div (of_int r2) (of_int t))%Q.
Proof.
  intros Ht Hr. pose proof (of_int_pos t Ht) as Pt.
  pose proof (of_int_mono 0 r1 ltac:(lia)) as L. change (of_int 0) with 0%Q in L.
  pose proof (of_int_mono r1 r2 Hr) as M.
  unfold div. apply round_mono.
  - apply Qle_shift_div_l; lra.
  - apply Qmult_le_compat_r; [exact M|].
    apply Qlt_le_weak, Qinv_lt_0_compat. lra.
Qed.

Lemma percentage_mono (r1 r2 total : Z) :
  0 < total -> 0 <= r1 <= r2 ->
  (CohortRetentionAnalysis.percentage r1 total <= CohortRetentionAnalysis.percentage r2 total)%Q.
Proof.
  intros Ht Hr. unfold CohortRetentionAnalysis.percentage.
  pose proof (ratio_mono r1 r2 total Ht Hr) as M.
  pose proof (ratio_range r1 total Ht) as R.
  assert (0 <= div (of_int r1) (of_int total))%Q as R0.
  { pose proof (of_int_pos total Ht) as Pt.
    pose proof (of_int_mono 0 r1 ltac:(lia)) as L. change (of_int 0) with 0%Q in L.
    unfold div. apply round_nonneg. apply Qle_shift_div_l; lra. }
  apply around2_mono.
  - unfold mul. apply round_nonneg. lra.
  - now apply times_100_mono.
Qed.

Lemma percentage_all (total : Z) : 0 < total -> CohortRetentionAnalysis.percentage total total = 100%Q.
Proof.
  intros Ht. unfold CohortRetentionAnalysis.percentage. pose proof (of_int_pos total Ht) as Pt.
  assert (div (of_int total) (of_int total) = 1%Q) as ->.
  { unfold div. rewrite (round_comp _ 1); [apply round_1|]. field. lra. }
  rewrite times_100_of_100. apply around2_100.
Qed.

Lemma percentage_none (total : Z) : CohortRetentionAnalysis.percentage 0 total = 0%Q.
Proof.
  unfold CohortRetentionAnalysis.percentage. change (of_int 0) with 0%Q.
  assert (div 0 (of_int total) = 0%Q) as ->.
  { unfold div. apply round_of_0. unfold Qdiv. ring. }
  vm_compute. reflexivity.
Qed.

Lemma percentage_range (r total : Z) :
  0 < total -> 0 <= r <= total ->
  (0 <= CohortRetentionAnalysis.percentage r total)%Q /\ (CohortRetentionAnalysis.percentage r total <= 100)%Q.
Proof.
  intros Ht Hr. split.
  - rewrite <- (percentage_none total). apply percentage_mono; lia.
  - rewrite <- (percentage_all total Ht). apply percentage_mono; lia.
Qed.

(** The percentage is the exact one, [100 * retained / total], moved by
    half a hundredth at most, up to the rounding of the float operations. *)
Lemma percentage_near (r total : Z) :
  0 < total < 2 ^ prec -> 0 <= r <= total ->
  let exact := (100 * inject_Z r / inject_Z total)%Q in
  (exact - ((1 # 200) + (1 # 1000000000000)) <= CohortRetentionAnalysis.percentage r total)%Q /\
  (CohortRetentionAnalysis.percentage r total <= exact + ((1 # 200) + (1 # 1000000000000)))%Q.
Proof.
  intros Ht Hr exact. unfold CohortRetentionAnalysis.percentage.
  rewrite (of_int_exact r), (of_int_exact total) by lia.
  assert (Pt : (0 < inject_Z total)%Q)
    by (change 0%Q with (inject_Z 0); rewrite <- Zlt_Qlt; lia).
  assert (R0 : (0 <= inject_Z r)%Q)
    by (change 0%Q with (inject_Z 0); rewrite <- Zle_Qle; lia).
  assert (R1 : (inject_Z r <= inject_Z total)%Q) by (rewrite <- Zle_Qle; lia).
  set (x0 := (inject_Z r / inject_Z total)%Q).
  assert (X0 : (0 <= x0)%Q /\ (x0 <= 1)%Q).
  { unfold x0. split; [apply Qle_shift_div_l | apply Qle_shift_div_r]; lra. }
  assert (Hex : (exact == 100 * x0)%Q) by (unfold exact, x0; field; lra).
  unfold div. fold x0. set (x1 := round x0).
  destruct (round_near x0 0 ltac:(lra) ltac:(change (2 ^ (0 + 1))%Q with 2%Q; lra)
              ltac:(unfold emin; lia)) as [A1 B1].
  fold x1 in A1, B1. change (2 ^ (0 - prec))%Q with (1 # 9007199254740992)%Q in A1, B1.
  assert (X1 : (0 <= x1)%Q /\ (x1 <= 1)%Q).
  { split; [apply round_nonneg; lra|].
    apply (Qle_trans _ (round 1)); [|rewrite round_1; apply Qle_refl].
    apply round_mono; lra. }
  unfold around2, mul, div. set (x2 := round (x1 * 100)).
  destruct (round_near (x1 * 100) 6 ltac:(lra)
              ltac:(change (2 ^ (6 + 1))%Q with 128%Q; lra)
              ltac:(unfold emin; lia)) as [A2 B2].
  fold x2 in A2, B2. change (2 ^ (6 - prec))%Q with (1 # 140737488355328)%Q in A2, B2.
  assert (X2 : (0 <= x2)%Q /\ (x2 <= 100)%Q).
  { split; [apply round_nonneg; lra|].
    apply (Qle_trans _ (round 100)); [|rewrite round_100; apply Qle_refl].
    apply round_mono; lra. }
  set (x3 := round (x2 * 100)).
  destruct (round_near (x2 * 100) 13 ltac:(lra)
              ltac:(change (2 ^ (13 + 1))%Q with 16384%Q; lra)
              ltac:(unfold emin; lia)) as [A3 B3].
  fold x3 in A3, B3. change (2 ^ (13 - prec))%Q with (1 # 1099511627776)%Q in A3, B3.
  assert (X3 : (0 <= x3)%Q /\ (x3 <= 10000)%Q).
  { split; [apply round_nonneg; lra|].
    apply (Qle_trans _ (round 10000)); [|rewrite round_10000; apply Qle_refl].
    apply round_mono; lra. }
  destruct (rint_near x3) as [A4 B4].
  assert (K : (0 <= inject_Z (rint x3))%Q /\ (inject_Z (rint x3) <= 10000)%Q).
  { split.
    - change 0%Q with (inject_Z 0). rewrite <- Zle_Qle, <- (rint_Z 0).
      apply rint_mono. exact (proj1 X3).
    - change 10000%Q with (inject_Z 10000). rewrite <- Zle_Qle, <- (rint_Z 10000).
      apply rint_mono. exact (proj2 X3). }
  set (k := inject_Z (rint x3)) in *.
  destruct (round_near (k / 100) 6
              ltac:(apply Qle_shift_div_l; lra)
              ltac:(change (2 ^ (6 + 1))%Q with 128%Q; apply Qlt_shift_div_r; lra)
              ltac:(unfold emin; lia)) as [A5 B5].
  change (2 ^ (6 - prec))%Q with (1 # 140737488355328)%Q in A5, B5.
  set (p := round (k / 100)) in *.
  assert (W : (k / 100 == k * (1 # 100))%Q) by (field).
  rewrite W in A5, B5. rewrite Hex. split; lra.
Qed.

End PercentFacts.

(** ** Cohort retention *)

Module RetentionFacts.
Import Datetime Shapes PandasFacts.

Lemma cohort_key_eqb_eq (a b : CohortRetentionAnalysis.cohort_key) :
  CohortRetentionAnalysis.cohort_key_eqb a b = true <-> a = b.
Proof.
  unfold CohortRetentionAnalysis.cohort_key_eqb. destruct a as [c u], b as [c' u'].
  cbn [fst snd]. rewrite andb_true_iff, String.eqb_eq, unit_eqb_eq.
  split; [intros [-> ->]; reflexivity | intros [= -> ->]; auto].
Qed.

Lemma retained_at_range group c :
  0 <= CohortRetentionAnalysis.retained_at group c <= Z.of_nat (List.length group).
Proof.
  unfold CohortRetentionAnalysis.retained_at.
  pose proof (filter_length_le
                (fun m => match end_date m with
                          | Some e => c <=? e
                          | None => false
                          end) group).
  lia.
Qed.

Lemma retained_at_antitone group c1 c2 :
  c1 <= c2 ->
  CohortRetentionAnalysis.retained_at group c2
  <= CohortRetentionAnalysis.retained_at group c1.
Proof.
  intros Hc. unfold CohortRetentionAnalysis.retained_at.
  apply inj_le. induction group as [|m group IH]; [reflexivity|]. simpl.
  destruct (end_date m) as [e|]; [|exact IH].
  destruct (Z.leb_spec c2 e); destruct (Z.leb_spec c1 e); simpl; lia.
Qed.

Lemma dict_set_In d k v H p :
  In (H, p) (CohortRetentionAnalysis.dict_set d k v) ->
  (H, p) = (k, v) \/ In (H, p) d.
Proof.
  induction d as [|[k' v'] d IH]; simpl.
  - intros [E | []]. now left.
  - destruct (k' =? k); simpl; intros [E | HIn].
    + now left.
    + right. now right.
    + right. now left.
    + destruct (IH HIn) as [E | HIn']; [now left | right; now right].
Qed.

Lemma retention_entries (f : Z -> Q) intervals : forall d H p,
  (forall H' p', In (H', p') d -> p' = f H') ->
  In (H, p)
     (fold_left (fun d interval =>
                   CohortRetentionAnalysis.dict_set d interval (f interval))
                intervals d) ->
  p = f H.
Proof.
  induction intervals as [|i intervals IH]; intros d H p Hd HIn; simpl in HIn.
  - now apply Hd.
  - apply (IH _ H p) in HIn; [exact HIn|].
    intros H' p' HIn'. apply dict_set_In in HIn' as [E | HIn'];
      [now injection E as -> -> | now apply Hd].
Qed.

(** The count of the specification takes the memberships without an end
    date as retained; the code does not. *)
Lemma retained_spec_split group c :
  retained_spec group c
  = CohortRetentionAnalysis.retained_at group c + without_end group.
Proof.
  unfold CohortRetentionAnalysis.retained_at, retained_spec, without_end.
  induction group as [|m group IH]; [reflexivity|]. cbn [filter].
  destruct (end_date m) as [e|]; [destruct (c <=? e)|]; cbn [List.length];
    rewrite ?Nat2Z.inj_succ; lia.
Qed.

Lemma fold_min_le l : forall a, fold_left Z.min l a <= a.
Proof.
  induction l as [|x l IH]; intros a; simpl; [lia|].
  specialize (IH (Z.min a x)). lia.
Qed.

Lemma fold_min_lower l : forall a x, In x l -> fold_left Z.min l a <= x.
Proof.
  induction l as [|y l IH]; intros a x Hin; [contradiction|]. simpl.
  destruct Hin as [-> | Hin]; [|now apply IH].
  pose proof (fold_min_le l (Z.min a x)). lia.
Qed.

Lemma fold_min_attained l : forall a,
  fold_left Z.min l a = a \/ In (fold_left Z.min l a) l.
Proof.
  induction l as [|x l IH]; intros a; simpl; [now left|].
  destruct (IH (Z.min a x)) as [E | Hin]; [|right; now right].
  rewrite E. destruct (Z.min_spec a x) as [[_ ->] | [_ ->]]; [now left | right; now left].
Qed.

Lemma min_start_lower group m :
  In m group -> CohortRetentionAnalysis.min_start group <= start_date m.
Proof.
  destruct group as [|m0 group]; [contradiction|]. cbn [CohortRetentionAnalysis.min_start].
  intros [<- | Hin]; [apply fold_min_le|].
  apply fold_min_lower. now apply in_map.
Qed.

Lemma min_start_attained group :
  group <> [] ->
  exists m, In m group /\ start_date m = CohortRetentionAnalysis.min_start group.
Proof.
  destruct group as [|m0 group]; [congruence|]. intros _.
  cbn [CohortRetentionAnalysis.min_start].
  destruct (fold_min_attained (map start_date group) (start_date m0)) as [E | Hin].
  - exists m0. split; [now left | now rewrite E].
  - apply in_map_iff in Hin as (m & E & Hm). exists m. split; [now right | exact E].
Qed.

(** [group['start_date'].min()] is the earliest start date of the group. *)
Lemma min_start_earliest group :
  group <> [] -> earliest group (CohortRetentionAnalysis.min_start group).
Proof.
  intros Hne. split.
  - destruct (min_start_attained group Hne) as (m & Hm & <-). now apply in_map.
  - intros m. apply min_start_lower.
Qed.

Lemma earliest_unique group s1 s2 : earliest group s1 -> earliest group s2 -> s1 = s2.
Proof.
  intros [I1 L1] [I2 L2].
  apply in_map_iff in I1 as (m1 & <- & M1). apply in_map_iff in I2 as (m2 & <- & M2).
  pose proof (L1 m2 M2). pose proof (L2 m1 M1). lia.
Qed.

(** The rows of the cohort table and the groups they come from. *)
Lemma retention_rows ms intervals table row :
  CohortRetentionAnalysis.calculate_retention ms intervals = Ok table ->
  In row table ->
  exists k group,
    row = CohortRetentionAnalysis.cohort_row intervals k group /\
    group <> [] /\
    Pandas.notna (snd k) = true /\
    forall m, In m group ->
      In m ms /\ CohortRetentionAnalysis.cohort_key_of m = k.
Proof.
  unfold CohortRetentionAnalysis.calculate_retention.
  destruct ms as [|m0 ms0] eqn:Ems; [discriminate|]. rewrite <- Ems.
  intros [= <-] Hrow. apply in_map_iff in Hrow as ([k group] & <- & Hg).
  apply (groupby_In CohortRetentionAnalysis.cohort_key_of
           CohortRetentionAnalysis.cohort_key_eqb _ cohort_key_eqb_eq)
    in Hg as [Hk ->].
  apply in_map_iff in Hk as (m & Hmk & Hm). apply filter_In in Hm as [Hm Hn].
  exists k, (filter (fun r => CohortRetentionAnalysis.cohort_key_eqb
                                (CohortRetentionAnalysis.cohort_key_of r) k)
               (filter (fun m => Pandas.notna (unit_of m)) ms)).
  cbn [fst snd]. split; [reflexivity|]. split; [|split].
  - intros E.
    assert (In m (filter (fun r => CohortRetentionAnalysis.cohort_key_eqb
                                     (CohortRetentionAnalysis.cohort_key_of r) k)
                    (filter (fun m => Pandas.notna (unit_of m)) ms))) as HIn.
    { apply filter_In. split; [now apply filter_In|].
      now apply cohort_key_eqb_eq. }
    rewrite E in HIn. contradiction.
  - subst k. exact Hn.
  - intros m' Hm'. apply filter_In in Hm' as [Hm' Hk'].
    apply filter_In in Hm' as [Hm' _]. split; [exact Hm'|].
    now apply cohort_key_eqb_eq.
Qed.

End RetentionFacts.

(** C7 (amended).  For a population that is not empty,
    [calculate_retention] returns a table, and every row of it comes from a
    non-empty group of memberships of one cohort and one unit:
    [Total_Members] is the size of the group; the check date of a horizon
    [H] is the earliest start date of the group plus [H] days; [retained]
    is the number of memberships of the group whose end date is there and
    is the check date or later, which is the count of the specification
    (end date absent, or the check date or later) less the memberships
    without an end date; the entry is
    [round((retained / Total_Members) * 100, 2)] computed on floats, which
    lies between 0 and 100 and, for a group of fewer than [2^53]
    memberships, within half a hundredth (and the rounding error of the
    float operations) of [100 * retained / Total_Members]; and of two
    horizons the smaller has the greater or equal entry. *)
Theorem retention_range_and_monotone (ms : list membership) (intervals : list Z) :
  ms <> [] ->
  exists table,
    CohortRetentionAnalysis.calculate_retention ms intervals = Ok table /\
    forall row, In row table ->
      exists group,
        group <> [] /\
        (forall m, In m group ->
           In m ms /\
           CohortRetentionAnalysis.assign_cohort (start_date m)
             = CohortRetentionAnalysis.Cohort row /\
           unit_of m = CohortRetentionAnalysis.c_unit row) /\
        CohortRetentionAnalysis.Total_Members row = Z.of_nat (List.length group) /\
        Shapes.earliest group (CohortRetentionAnalysis.min_start group) /\
        (forall H p,
           In (H, p) (CohortRetentionAnalysis.Retention row) ->
           let check_date :=
             CohortRetentionAnalysis.min_start group + Datetime.timedelta H in
           let retained := CohortRetentionAnalysis.retained_at group check_date in
           let total := CohortRetentionAnalysis.Total_Members row in
           p = CohortRetentionAnalysis.percentage retained total /\
           Shapes.retained_spec group check_date
           = retained + Shapes.without_end group /\
           (0 <= p)%Q /\ (p <= 100)%Q /\
           (total < 2 ^ Float64.prec ->
            Shapes.near p (100 * inject_Z retained / inject_Z total))) /\
        (forall H1 H2 p1 p2,
           In (H1, p1) (CohortRetentionAnalysis.Retention row) ->
           In (H2, p2) (CohortRetentionAnalysis.Retention row) ->
           H1 < H2 -> (p2 <= p1)%Q).
Proof.
  intros Hne.
  assert (exists table,
            CohortRetentionAnalysis.calculate_retention ms intervals = Ok table)
    as [table Ht].
  { unfold CohortRetentionAnalysis.calculate_retention.
    destruct ms; [congruence | eauto]. }
  exists table. split; [exact Ht|]. intros row Hrow.
  destruct (RetentionFacts.retention_rows ms intervals table row Ht Hrow)
    as (k & group & -> & Hg & Hk & Hmem).
  exists group.
  assert (0 < Z.of_nat (List.length group)) as Hpos
    by (destruct group; [congruence | simpl; lia]).
  set (f := fun H =>
              CohortRetentionAnalysis.percentage
                (CohortRetentionAnalysis.retained_at group
                   (CohortRetentionAnalysis.min_start group + Datetime.timedelta H))
                (Z.of_nat (List.length group))).
  assert (Hentries : forall H p,
             In (H, p) (CohortRetentionAnalysis.Retention
                          (CohortRetentionAnalysis.cohort_row intervals k group)) ->
             p = f H).
  { intros H p HIn. unfold CohortRetentionAnalysis.cohort_row in HIn.
    cbn [CohortRetentionAnalysis.Retention] in HIn.
    apply (RetentionFacts.retention_entries f intervals [] H p); [|exact HIn].
    intros ? ? []. }
  split; [exact Hg|]. split; [|split; [reflexivity|split; [|split]]].
  - intros m Hm. destruct (Hmem m Hm) as [Hin Hkey]. split; [exact Hin|].
    unfold CohortRetentionAnalysis.cohort_key_of in Hkey. subst k. split; reflexivity.
  - now apply RetentionFacts.min_start_earliest.
  - intros H p HIn. cbn zeta.
    cbn [CohortRetentionAnalysis.Total_Members CohortRetentionAnalysis.cohort_row].
    pose proof (RetentionFacts.retained_at_range group
                  (CohortRetentionAnalysis.min_start group + Datetime.timedelta H))
      as Hr.
    split; [exact (Hentries H p HIn)|].
    split; [apply RetentionFacts.retained_spec_split|].
    rewrite (Hentries H p HIn). unfold f.
    split; [|split].
    + now apply PercentFacts.percentage_range.
    + now apply PercentFacts.percentage_range.
    + intros Hlt. apply PercentFacts.percentage_near; [lia | exact Hr].
  - intros H1 H2 p1 p2 HIn1 HIn2 Hlt.
    rewrite (Hentries H1 p1 HIn1), (Hentries H2 p2 HIn2). unfold f.
    apply PercentFacts.percentage_mono; [exact Hpos|]. split.
    + apply RetentionFacts.retained_at_range.
    + apply RetentionFacts.retained_at_antitone.
      unfold Datetime.timedelta, Datetime.DAY. lia.
Qed.

Lemma retention_range_and_monotone_witness :
  exists table,
    CohortRetentionAnalysis.calculate_retention
      Samples.cohort_of_two CohortRetentionAnalysis.default_intervals
    = Ok table /\
    forall row, In row table ->
      (forall H p,
         In (H, p) (CohortRetentionAnalysis.Retention row) ->
         (0 <= p)%Q /\ (p <= 100)%Q) /\
      (forall H1 H2 p1 p2,
         In (H1, p1) (CohortRetentionAnalysis.Retention row) ->
         In (H2, p2) (CohortRetentionAnalysis.Retention row) ->
         H1 < H2 -> (p2 <= p1)%Q).
Proof.
  destruct (retention_range_and_monotone Samples.cohort_of_two
              CohortRetentionAnalysis.default_intervals) as [table [Ht Hrows]].
  - discriminate.
  - exists table. split; [exact Ht|]. intros row Hrow.
    destruct (Hrows row Hrow) as (group & _ & _ & _ & _ & Hentry & Hmono).
    split; [|exact Hmono].
    intros H p Hin. destruct (Hentry H p Hin) as (_ & _ & H0 & H100 & _).
    now split.
Defined.

(** C7, as stated, gives the formulas of the entries, and the code follows
    neither.  A membership without an end date is retained in the words of
    the claim and not in the code: the one-member group has the entry 0
    where the claim has 100.  The percentage is computed on floats, the
    quotient first: of 160 members with 23 retained the code makes the
    float of 14.37, where [round(100 * 23 / 160, 2)] is 14.38. *)
Lemma retention_differs_from_formula :
  CohortRetentionAnalysis.calculate_retention [Samples.membership_open] [30]
  = Ok [CohortRetentionAnalysis.mkCohort "2023-01" Samples.unit_2_3_B 1 [(30, 0%Q)]] /\
  Shapes.retained_spec [Samples.membership_open]
    (Samples.day 2023 1 1 + Datetime.timedelta 30) = 1 /\
  Shapes.percentage_exact 1 1 = (10000 # 100)%Q /\
  CohortRetentionAnalysis.calculate_retention Samples.cohort_of_160 [30]
  = Ok [CohortRetentionAnalysis.mkCohort "2023-01" Samples.unit_2_3_B 160
          [(30, Float64.round (1437 # 100))]] /\
  Shapes.retained_spec Samples.cohort_of_160
    (Samples.day 2023 1 1 + Datetime.timedelta 30) = 23 /\
  Shapes.percentage_exact 23 160 = (1438 # 100)%Q /\
  (Float64.round (1437 # 100) < Float64.round (1438 # 100))%Q.
Proof.
  repeat split; vm_compute; reflexivity.
Qed.

(** ** Units with absent fields *)

Module UnknownFacts.
Import Datetime Shapes PandasFacts.

Lemma filter_known_twice ms :
  filter (fun m => Pandas.notna (unit_of m))
    (filter (fun m => Pandas.notna (unit_of m)) ms)
  = filter (fun m => Pandas.notna (unit_of m)) ms.
Proof.
  induction ms as [|m ms IH]; [reflexivity|]. simpl.
  destruct (Pandas.notna (unit_of m)) eqn:E; simpl; [now rewrite E, IH | exact IH].
Qed.

Lemma retention_drops_unknown ms intervals table :
  CohortRetentionAnalysis.calculate_retention ms intervals = Ok table ->
  Forall (fun r => Pandas.notna (CohortRetentionAnalysis.c_unit r) = true) table /\
  (CohortRetentionAnalysis.calculate_retention
     (filter (fun m => Pandas.notna (unit_of m)) ms) intervals = Ok table
   \/ (table = [] /\ filter (fun m => Pandas.notna (unit_of m)) ms = [])).
Proof.
  intros H. split.
  - apply Forall_forall. intros row Hrow.
    destruct (RetentionFacts.retention_rows ms intervals table row H Hrow)
      as (k & group & -> & _ & Hk & _).
    exact Hk.
  - unfold CohortRetentionAnalysis.calculate_retention in *.
    destruct ms as [|m0 ms0] eqn:Ems; [discriminate|]. rewrite <- Ems in *.
    injection H as <-.
    destruct (filter (fun m => Pandas.notna (unit_of m)) ms) as [|m1 ms1] eqn:Ef.
    + right. split; reflexivity.
    + left. rewrite <- Ef, filter_known_twice. reflexivity.
Qed.

End UnknownFacts.

(** C3 (amended).  In both aggregations a membership whose unit has an
    absent field is left out: [groupby] drops the rows whose key holds a
    null.  Every row of the daily strength table and of the cohort
    retention table has a unit with its four fields, and each table is the
    one computed from the population without the memberships of units with
    an absent field (an empty table when nothing is left). *)
Theorem unknown_units_left_out (ms : list membership) (intervals : list Z) :
  (forall table,
     UnitStrengthHistory.calculate_daily_strength ms = Ok table ->
     Forall (fun r => Pandas.notna (UnitStrengthHistory.s_unit r) = true) table /\
     (UnitStrengthHistory.calculate_daily_strength
        (filter (fun m => Pandas.notna (unit_of m)) ms) = Ok table
      \/ (table = [] /\
          UnitStrengthHistory.calculate_daily_strength
            (filter (fun m => Pandas.notna (unit_of m)) ms) = Raise KeyError)))
  /\
  (forall table,
     CohortRetentionAnalysis.calculate_retention ms intervals = Ok table ->
     Forall (fun r => Pandas.notna (CohortRetentionAnalysis.c_unit r) = true) table /\
     (CohortRetentionAnalysis.calculate_retention
        (filter (fun m => Pandas.notna (unit_of m)) ms) intervals = Ok table
      \/ (table = [] /\ filter (fun m => Pandas.notna (unit_of m)) ms = []))).
Proof.
  split; intros table H.
  - now apply StrengthFacts.daily_strength_drops_unknown.
  - now apply UnknownFacts.retention_drops_unknown.
Qed.

Lemma unknown_units_left_out_witness :
  UnitStrengthHistory.calculate_daily_strength [Samples.membership_known]
  = UnitStrengthHistory.calculate_daily_strength
      [Samples.membership_unknown; Samples.membership_known].
Proof.
  destruct (unknown_units_left_out
              [Samples.membership_unknown; Samples.membership_known]
              CohortRetentionAnalysis.default_intervals) as [Hd _].
  destruct (Hd [UnitStrengthHistory.mkStrength (Samples.day 2023 1 2)
                  Samples.unit_2_3_B 1;
                UnitStrengthHistory.mkStrength (Samples.day 2023 1 3)
                  Samples.unit_2_3_B 1] eq_refl) as [_ [Hf | [Hf _]]].
  - exact Hf.
  - discriminate Hf.
Defined.

(** C3, as stated, fails on a population of two memberships, one of the
    unit that [parse_unit] returns for "S3 Staff" (no field found), one of
    unit 2/3/B/2-7: the daily strength table and the cohort retention table
    hold rows of 2/3/B/2-7 only; the other membership is in no row, and a
    population of that membership alone gives two empty tables. *)
Lemma unknown_unit_rows_dropped :
  UnitStrengthHistory.calculate_daily_strength
    [Samples.membership_unknown; Samples.membership_known]
  = Ok [UnitStrengthHistory.mkStrength (Samples.day 2023 1 2) Samples.unit_2_3_B 1;
        UnitStrengthHistory.mkStrength (Samples.day 2023 1 3) Samples.unit_2_3_B 1]
  /\
  CohortRetentionAnalysis.calculate_retention
    [Samples.membership_unknown; Samples.membership_known]
    CohortRetentionAnalysis.default_intervals
  = Ok [CohortRetentionAnalysis.mkCohort "2023-01" Samples.unit_2_3_B 1
          [(30, 0%Q); (90, 0%Q); (180, 0%Q); (365, 0%Q)]]
  /\
  UnitStrengthHistory.calculate_daily_strength [Samples.membership_unknown] = Ok []
  /\
  CohortRetentionAnalysis.calculate_retention [Samples.membership_unknown]
    CohortRetentionAnalysis.default_intervals = Ok [].
Proof. repeat split; reflexivity. Qed.

(** ** The clock and repeated runs *)

Module RunFacts.
Import Datetime Shapes.

Lemma create_memberships_same_reading clk1 clk2 n evs :
  clk1 n = clk2 n ->
  create_memberships clk1 n evs = create_memberships clk2 n evs.
Proof.
  intros H. unfold create_memberships.
  destruct (create_loop evs) as [ms [c|]]; [now rewrite H | reflexivity].
Qed.

Lemma create_memberships_no_read clk n evs :
  snd (create_loop evs) = None ->
  create_memberships clk n evs = (fst (create_loop evs), n).
Proof.
  unfold create_memberships. destruct (create_loop evs) as [ms [c|]];
    [discriminate | reflexivity].
Qed.

Lemma ush_main_loop_same files clk1 clk2 : forall n acc,
  (forall k, clk1 k = clk2 k) ->
  UnitStrengthHistory.main_loop clk1 n files acc
  = UnitStrengthHistory.main_loop clk2 n files acc.
Proof.
  induction files as [|d files IH]; intros n acc H; [reflexivity|].
  cbn [UnitStrengthHistory.main_loop].
  destruct (UnitStrengthHistory.extract_events d) as [[|ev evs]|]; cbn [bind];
    [now apply IH | | reflexivity].
  rewrite (create_memberships_same_reading clk1 clk2 n (ev :: evs) (H n)).
  destruct (create_memberships clk2 n (ev :: evs)). now apply IH.
Qed.

Lemma cra_main_loop_same files clk1 clk2 : forall n acc,
  (forall k, clk1 k = clk2 k) ->
  CohortRetentionAnalysis.main_loop clk1 n files acc
  = CohortRetentionAnalysis.main_loop clk2 n files acc.
Proof.
  induction files as [|d files IH]; intros n acc H; [reflexivity|].
  cbn [CohortRetentionAnalysis.main_loop].
  destruct (CohortRetentionAnalysis.extract_events d) as [[|ev evs]|]; cbn [bind];
    [now apply IH | | reflexivity].
  rewrite (create_memberships_same_reading clk1 clk2 n (ev :: evs) (H n)).
  destruct (create_memberships clk2 n (ev :: evs)). now apply IH.
Qed.

Lemma ush_main_loop_closed files clk1 clk2 : forall n1 n2 acc,
  Forall (closed_member UnitStrengthHistory.extract_events) files ->
  UnitStrengthHistory.main_loop clk1 n1 files acc
  = UnitStrengthHistory.main_loop clk2 n2 files acc.
Proof.
  induction files as [|d files IH]; intros n1 n2 acc H; [reflexivity|].
  inversion H as [|? ? Hd Hfiles]; subst.
  cbn [UnitStrengthHistory.main_loop]. unfold closed_member in Hd.
  destruct (UnitStrengthHistory.extract_events d) as [[|ev evs]|]; cbn [bind];
    [now apply IH | | reflexivity].
  rewrite !create_memberships_no_read by now apply Hd. now apply IH.
Qed.

Lemma cra_main_loop_closed files clk1 clk2 : forall n1 n2 acc,
  Forall (closed_member CohortRetentionAnalysis.extract_events) files ->
  CohortRetentionAnalysis.main_loop clk1 n1 files acc
  = CohortRetentionAnalysis.main_loop clk2 n2 files acc.
Proof.
  induction files as [|d files IH]; intros n1 n2 acc H; [reflexivity|].
  inversion H as [|? ? Hd Hfiles]; subst.
  cbn [CohortRetentionAnalysis.main_loop]. unfold closed_member in Hd.
  destruct (CohortRetentionAnalysis.extract_events d) as [[|ev evs]|]; cbn [bind];
    [now apply IH | | reflexivity].
  rewrite !create_memberships_no_read by now apply Hd. now apply IH.
Qed.

End RunFacts.

(** C4 (amended).  The scripts take no "as-of" argument:
    [create_memberships] reads the clock ([datetime.now()]) for every member
    whose events end with an open assignment, and uses the reading as end
    date.  For a fixed collection of documents, two runs of either
    pipeline give the same table when the clock returns the same readings
    in both; and when no member's events end with an open assignment the
    table does not depend on the clock. *)
Theorem runs_agree_on_clock_readings (files : list document) (clk1 clk2 : clock) :
  ((forall k, clk1 k = clk2 k) ->
   UnitStrengthHistory.main clk1 files = UnitStrengthHistory.main clk2 files /\
   CohortRetentionAnalysis.main clk1 files = CohortRetentionAnalysis.main clk2 files)
  /\
  (Forall (Shapes.closed_member UnitStrengthHistory.extract_events) files ->
   UnitStrengthHistory.main clk1 files = UnitStrengthHistory.main clk2 files)
  /\
  (Forall (Shapes.closed_member CohortRetentionAnalysis.extract_events) files ->
   CohortRetentionAnalysis.main clk1 files = CohortRetentionAnalysis.main clk2 files).
Proof.
  split; [|split].
  - intros H. unfold UnitStrengthHistory.main, CohortRetentionAnalysis.main.
    now rewrite (RunFacts.ush_main_loop_same files clk1 clk2 0 [] H),
      (RunFacts.cra_main_loop_same files clk1 clk2 0 [] H).
  - intros H. unfold UnitStrengthHistory.main.
    now rewrite (RunFacts.ush_main_loop_closed files clk1 clk2 0 0 [] H).
  - intros H. unfold CohortRetentionAnalysis.main.
    now rewrite (RunFacts.cra_main_loop_closed files clk1 clk2 0 0 [] H).
Qed.

Lemma runs_agree_on_clock_readings_witness :
  UnitStrengthHistory.main Samples.clock_06_01 [Samples.doc_closed]
  = UnitStrengthHistory.main Samples.clock_2024 [Samples.doc_closed].
Proof.
  apply (proj1 (proj2 (runs_agree_on_clock_readings [Samples.doc_closed]
                         Samples.clock_06_01 Samples.clock_2024))).
  repeat constructor. intros evs H. vm_compute in H. injection H as <-.
  reflexivity.
Defined.

(** C4, as stated, fails on the document of a member with a single transfer
    on 2023-05-30: a run whose clock reads 2023-06-01 and a run whose clock
    reads 2023-06-02 give daily strength tables of three and of four rows;
    a run in 2023 and a run in 2024 give different retention tables. *)
Lemma runs_differ_with_the_clock :
  (exists t1 t2,
     UnitStrengthHistory.main Samples.clock_06_01 [Samples.doc_open] = Ok (Some t1) /\
     UnitStrengthHistory.main Samples.clock_06_02 [Samples.doc_open] = Ok (Some t2) /\
     List.length t1 = 3%nat /\ List.length t2 = 4%nat) /\
  CohortRetentionAnalysis.main Samples.clock_06_01 [Samples.doc_open]
  <> CohortRetentionAnalysis.main Samples.clock_2024 [Samples.doc_open].
Proof.
  split.
  - eexists. eexists. repeat split; reflexivity.
  - vm_compute. discriminate.
Qed.

(** * Further properties of the scripts *)

(** ** [parse_unit] *)

Module ParseFacts.
Import Text Shapes.

Lemma findall_lone_class cls prev s m :
  In m (Re.findall_lone cls prev s) -> exists c, m = String c "" /\ cls c = true.
Proof.
  revert prev. induction s as [|c s IH]; intros prev H; [contradiction|].
  cbn [Re.findall_lone] in H.
  destruct (cls c) eqn:Ec; cbn [andb] in H.
  - destruct (negb prev && negb _).
    + destruct H as [<- | H]; [now exists c | now apply (IH _ H)].
    + now apply (IH _ H).
  - now apply (IH _ H).
Qed.

Lemma findall_battalion_known skip s m :
  In m (Re.findall_battalion skip s) -> In m Re.battalions.
Proof.
  revert skip. induction s as [|c s IH]; intros skip H; [contradiction|].
  cbn [Re.findall_battalion] in H. destruct skip as [|k]; [|now apply (IH _ H)].
  destruct (find (fun b => String.prefix b (String c s)) Re.battalions) as [b|] eqn:E.
  - destruct H as [<- | H]; [|now apply (IH _ H)].
    now apply find_some in E as [E _].
  - now apply (IH _ H).
Qed.

Lemma squad_letter c :
  is_upper c = true ->
  CohortRetentionAnalysis.normalize_squad (Some (String c ""))
  = Some (str_of_Z (ord c - 64)) /\
  UnitStrengthHistory.normalize_squad (Some (String c ""))
  = Ok (Some (str_of_Z (ord c - 64))).
Proof.
  destruct c as [[] [] [] [] [] [] [] []]; intros H; try discriminate H;
    split; reflexivity.
Qed.

Lemma squad_digit c :
  is_digit c = true ->
  CohortRetentionAnalysis.normalize_squad (Some (String c "")) = Some (String c "") /\
  UnitStrengthHistory.normalize_squad (Some (String c "")) = Ok (Some (String c "")).
Proof.
  destruct c as [[] [] [] [] [] [] [] []]; intros H; try discriminate H;
    split; reflexivity.
Qed.

Lemma squad_token c :
  (is_upper c || is_digit c) = true ->
  UnitStrengthHistory.normalize_squad (Some (String c ""))
  = Ok (CohortRetentionAnalysis.normalize_squad (Some (String c ""))) /\
  squad_shape (CohortRetentionAnalysis.normalize_squad (Some (String c ""))).
Proof.
  intros H. apply orb_true_iff in H as [H | H].
  - destruct (squad_letter c H) as [-> ->]. split; [reflexivity|].
    right. exists c. left. now split.
  - destruct (squad_digit c H) as [-> ->]. split; [reflexivity|].
    right. exists c. right. now split.
Qed.

Lemma first_match_shape cls s :
  one_char_shape cls
    (CohortRetentionAnalysis.next_iter (Re.findall_lone cls false s)).
Proof.
  destruct (Re.findall_lone cls false s) as [|m l] eqn:E; [now left|].
  destruct (findall_lone_class cls false s m) as (c & -> & Hc);
    [rewrite E; now left|].
  right. now exists c.
Qed.

(** The squad cell of both scripts for one first segment. *)
Lemma squad_cell p0 :
  UnitStrengthHistory.normalize_squad
    (UnitStrengthHistory.safe_extract Re.squad_pattern p0)
  = Ok (CohortRetentionAnalysis.normalize_squad
          (CohortRetentionAnalysis.next_iter (Re.squad_pattern p0))) /\
  squad_shape (CohortRetentionAnalysis.normalize_squad
                 (CohortRetentionAnalysis.next_iter (Re.squad_pattern p0))).
Proof.
  unfold UnitStrengthHistory.safe_extract, CohortRetentionAnalysis.next_iter,
    Re.squad_pattern.
  destruct (Re.findall_lone (fun c => is_upper c || is_digit c) false p0)
    as [|m l] eqn:E.
  - split; [reflexivity | now left].
  - destruct (findall_lone_class (fun c => is_upper c || is_digit c) false p0 m)
      as (c & -> & Hc); [rewrite E; now left|].
    now apply squad_token.
Qed.

Lemma safe_extract_next_iter pattern text :
  UnitStrengthHistory.safe_extract pattern text
  = CohortRetentionAnalysis.next_iter (pattern text).
Proof. reflexivity. Qed.

Lemma split_char_cons sep s : exists p ps, split_char sep s = p :: ps.
Proof.
  destruct (split_char sep s) as [|p ps] eqn:E;
    [now apply ExtractFacts.split_char_nonempty in E | eauto].
Qed.

Lemma battalion_cell s :
  battalion_shape (CohortRetentionAnalysis.next_iter (Re.battalion_pattern s)).
Proof.
  unfold Re.battalion_pattern.
  destruct (Re.findall_battalion 0 s) as [|m l] eqn:E; [now left|].
  right. exists m. split; [|reflexivity].
  apply (findall_battalion_known 0 s). rewrite E. now left.
Qed.

End ParseFacts.

(** X1.  On every designator text the two versions of [parse_unit] return,
    without raising, the same four fields: the [TypeError] that
    [normalize_squad] of unitStrengthHistory.py raises on a token of several
    letters cannot occur, the token being one character. *)
Theorem parse_unit_versions_agree (title : string) :
  exists u,
    UnitStrengthHistory.parse_unit title = Ok u /\
    CohortRetentionAnalysis.parse_unit title = Ok u.
Proof.
  unfold UnitStrengthHistory.parse_unit, CohortRetentionAnalysis.parse_unit.
  destruct (ParseFacts.split_char_cons "/" title) as (p & ps & ->).
  cbn [List.length Nat.ltb Nat.leb nth bind].
  destruct (ParseFacts.squad_cell p) as [-> _]. cbn [bind].
  rewrite !ParseFacts.safe_extract_next_iter. eauto.
Qed.

(** X2.  The fields that [parse_unit] returns are absent or well formed: the
    squad is the ordinal of an upper-case letter or one digit, the platoon
    one digit, the company one upper-case letter, the battalion one of
    "1-7", "2-7", "3-7", "ACD". *)
Theorem parse_unit_field_shapes (title : string) (u : unit_fields) :
  CohortRetentionAnalysis.parse_unit title = Ok u ->
  Shapes.squad_shape (Squad u) /\
  Shapes.one_char_shape Text.is_digit (Platoon u) /\
  Shapes.one_char_shape Text.is_upper (Company u) /\
  Shapes.battalion_shape (Battalion u).
Proof.
  unfold CohortRetentionAnalysis.parse_unit.
  destruct (ParseFacts.split_char_cons "/" title) as (p & ps & ->).
  cbn [bind]. intros [= <-]. cbn [Squad Platoon Company Battalion].
  split; [apply ParseFacts.squad_cell|]. split; [|split].
  - match goal with |- context [if ?b then _ else _] => destruct b end;
      [apply ParseFacts.first_match_shape | now left].
  - match goal with |- context [if ?b then _ else _] => destruct b end;
      [apply ParseFacts.first_match_shape | now left].
  - match goal with |- context [if ?b then _ else _] => destruct b end;
      [apply ParseFacts.battalion_cell | now left].
Qed.

Lemma parse_unit_field_shapes_witness :
  Shapes.battalion_shape (Some "2-7").
Proof.
  exact (proj2 (proj2 (proj2
    (parse_unit_field_shapes "2/3/B/2-7" Samples.unit_2_3_B eq_refl)))).
Defined.

Module SegmentFacts.
Import Text Shapes.

Lemma split_char_length sep s :
  List.length (split_char sep s) = S (count_char sep s).
Proof.
  induction s as [|c s IH]; [reflexivity|]. simpl.
  destruct (Ascii.eqb c sep); simpl; [now rewrite IH|].
  destruct (split_char sep s); simpl in *; [discriminate | exact IH].
Qed.

Lemma split_char_app sep a b :
  split_char sep (a ++ String sep b)%string = split_char sep a ++ split_char sep b.
Proof.
  induction a as [|c a IH]; simpl.
  - now rewrite Ascii.eqb_refl.
  - rewrite IH. destruct (Ascii.eqb c sep); [reflexivity|].
    destruct (split_char sep a) as [|p ps] eqn:E;
      [now apply ExtractFacts.split_char_nonempty in E | reflexivity].
Qed.

Ltac split_ifs :=
  repeat match goal with
         | |- context [if (?a <? ?b)%nat then _ else _] =>
             destruct (Nat.ltb_spec a b)
         end.

End SegmentFacts.

(** X3.  [parse_unit] reads the segments between the slashes by position: a
    text with fewer than one, two or three slashes leaves the platoon, the
    company or the battalion absent, and what follows a fourth slash is not
    read at all. *)
Theorem parse_unit_by_position (title : string) (u : unit_fields) :
  CohortRetentionAnalysis.parse_unit title = Ok u ->
  ((Shapes.count_char "/" title < 1)%nat -> Platoon u = None) /\
  ((Shapes.count_char "/" title < 2)%nat -> Company u = None) /\
  ((Shapes.count_char "/" title < 3)%nat -> Battalion u = None) /\
  ((3 <= Shapes.count_char "/" title)%nat ->
   forall extra,
     CohortRetentionAnalysis.parse_unit (title ++ String "/" extra)%string = Ok u /\
     UnitStrengthHistory.parse_unit (title ++ String "/" extra)%string = Ok u).
Proof.
  intros H.
  pose proof (SegmentFacts.split_char_length "/" title) as Hlen.
  assert (Hsplit : forall extra,
             Text.split_char "/" (title ++ String "/" extra)%string
             = Text.split_char "/" title ++ Text.split_char "/" extra)
    by (intros; apply SegmentFacts.split_char_app).
  unfold CohortRetentionAnalysis.parse_unit in H.
  destruct (ParseFacts.split_char_cons "/" title) as (p & ps & E).
  rewrite E in H, Hlen, Hsplit. cbn [bind] in H. injection H as <-.
  cbn [Squad Platoon Company Battalion].
  repeat split.
  - intros Hc. SegmentFacts.split_ifs; [simpl in *; lia | reflexivity].
  - intros Hc. SegmentFacts.split_ifs; [simpl in *; lia | reflexivity].
  - intros Hc. SegmentFacts.split_ifs; [simpl in *; lia | reflexivity].
  - unfold CohortRetentionAnalysis.parse_unit. rewrite Hsplit.
    cbn [app nth bind]. rewrite !app_nth1 by (simpl in *; lia).
    cbn [List.length]. rewrite !length_app.
    SegmentFacts.split_ifs; simpl in *; try lia. reflexivity.
  - unfold UnitStrengthHistory.parse_unit. rewrite Hsplit.
    cbn [app nth]. rewrite !app_nth1 by (simpl in *; lia).
    cbn [List.length]. rewrite !length_app.
    destruct (ParseFacts.squad_cell p) as [Hs _].
    SegmentFacts.split_ifs; simpl in *; try lia.
    rewrite Hs. reflexivity.
Qed.

Lemma parse_unit_by_position_witness :
  CohortRetentionAnalysis.parse_unit "2/3/B/2-7/HQ" = Ok Samples.unit_2_3_B /\
  UnitStrengthHistory.parse_unit "2/3/B/2-7/HQ" = Ok Samples.unit_2_3_B.
Proof.
  apply (proj2 (proj2 (proj2
    (parse_unit_by_position "2/3/B/2-7" Samples.unit_2_3_B eq_refl)))).
  simpl. lia.
Defined.

(** ** Normalizers *)

Module NormalizeFacts.
Import Text Shapes.

Lemma ordinal_is_digits c :
  is_alpha c = true ->
  isdigit (str_of_Z (ord (to_upper c) - ord "A" + 1)) = true.
Proof.
  destruct c as [[] [] [] [] [] [] [] []]; intros H; try discriminate H;
    reflexivity.
Qed.

Lemma cra_output_is_digits x y :
  CohortRetentionAnalysis.normalize_squad x = Some y -> isdigit y = true.
Proof.
  unfold CohortRetentionAnalysis.normalize_squad.
  destruct x as [s|]; [|discriminate].
  destruct (upper (strip s)) as [|c [|d t]] eqn:E.
  - cbn. discriminate.
  - cbn [String.length Nat.eqb andb].
    destruct (isalpha (String c "")) eqn:Ea.
    + intros [= <-].
      assert (exists c0, is_alpha c0 = true /\ c = to_upper c0) as (c0 & H0 & ->).
      { destruct (strip s) as [|c0 [|? ?]]; try discriminate E.
        injection E as <-. exists c0. split; [|reflexivity].
        unfold isalpha in Ea. cbn in Ea. rewrite andb_true_r in Ea.
        now rewrite TextFacts.upper_alpha in Ea. }
      replace (to_upper (to_upper c0)) with (to_upper c0)
        by (clear; destruct c0 as [[] [] [] [] [] [] [] []]; reflexivity).
      now apply ordinal_is_digits.
    + destruct (isdigit (String c "")) eqn:Ed; [|discriminate].
      now intros [= <-].
  - cbn [String.length Nat.eqb andb].
    destruct (isdigit (String c (String d t))) eqn:Ed; [|discriminate].
    now intros [= <-].
Qed.

Lemma ush_letter_output s c :
  isalpha s = true -> UnitStrengthHistory.ord_str (upper s) = Ok c ->
  isalpha (str_of_Z (c - ord "A" + 1)) = false.
Proof.
  destruct s as [|a [|b t]]; try discriminate.
  unfold isalpha. cbn. rewrite andb_true_r. intros Ha [= <-].
  apply TextFacts.isdigit_not_isalpha.
  now apply ordinal_is_digits.
Qed.

End NormalizeFacts.

(** X4.  Normalizing a squad token twice is normalizing it once: what
    [normalize_squad] returns (a number, in cohortRetentionAnalysis.py
    always; in unitStrengthHistory.py a number or the unchanged token) is
    returned unchanged when it is normalized again. *)
Theorem normalize_squad_idempotent (squad : option string) :
  CohortRetentionAnalysis.normalize_squad
    (CohortRetentionAnalysis.normalize_squad squad)
  = CohortRetentionAnalysis.normalize_squad squad /\
  (forall y,
     UnitStrengthHistory.normalize_squad squad = Ok y ->
     UnitStrengthHistory.normalize_squad y = Ok y).
Proof.
  split.
  - destruct (CohortRetentionAnalysis.normalize_squad squad) as [y|] eqn:E;
      [|reflexivity].
    apply TextFacts.digits_pass_cra. now apply (NormalizeFacts.cra_output_is_digits squad).
  - intros y. unfold UnitStrengthHistory.normalize_squad at 1.
    destruct squad as [s|]; [|now intros [= <-]].
    destruct (Text.isalpha s) eqn:Ea.
    + destruct (UnitStrengthHistory.ord_str (Text.upper s)) as [c|] eqn:Ec;
        cbn [bind]; [|discriminate].
      intros [= <-]. unfold UnitStrengthHistory.normalize_squad.
      now rewrite (NormalizeFacts.ush_letter_output s c Ea Ec).
    + intros [= <-]. unfold UnitStrengthHistory.normalize_squad. now rewrite Ea.
Qed.

Lemma normalize_squad_idempotent_witness :
  UnitStrengthHistory.normalize_squad (Some "2") = Ok (Some "2").
Proof.
  exact (proj2 (normalize_squad_idempotent (Some "B")) (Some "2") eq_refl).
Defined.

(** ** Cohort labels *)

Module CohortFacts.
Import Text Shapes.

Lemma contains_char x c s :
  contains (String x "") (String c s)
  = Ascii.eqb c x || contains (String x "") s.
Proof.
  cbn [contains String.prefix].
  destruct (ascii_dec x c) as [->|N].
  - rewrite Ascii.eqb_refl. now destruct s.
  - assert (Ascii.eqb c x = false) as -> by (apply Ascii.eqb_neq; congruence).
    reflexivity.
Qed.

Lemma contains_char_nil x : contains (String x "") "" = false.
Proof. reflexivity. Qed.

Lemma contains_count x s :
  contains (String x "") s = true <-> (0 < count_char x s)%nat.
Proof.
  induction s as [|c s IH]; [simpl; split; [discriminate | lia]|].
  rewrite contains_char. simpl. destruct (Ascii.eqb c x); simpl; [split; [lia | reflexivity]|].
  exact IH.
Qed.

Lemma remove_char_absent x s :
  contains (String x "") s = false -> remove_char x s = s.
Proof.
  induction s as [|c s IH]; [reflexivity|].
  rewrite contains_char. intros H. apply orb_false_iff in H as [Hc Hs].
  simpl. now rewrite Hc, IH.
Qed.

Lemma split_char_absent x s :
  contains (String x "") s = false -> split_char x s = [s].
Proof.
  induction s as [|c s IH]; [reflexivity|].
  rewrite contains_char. intros H. apply orb_false_iff in H as [Hc Hs].
  simpl. now rewrite Hc, IH.
Qed.

Lemma concat_cons sep a b l :
  String.concat sep (a :: b :: l) = (a ++ sep ++ String.concat sep (b :: l))%string.
Proof. reflexivity. Qed.

Lemma concat_head sep c p ps :
  String.concat sep (String c p :: ps) = String c (String.concat sep (p :: ps)).
Proof. destruct ps; reflexivity. Qed.

Lemma join_split x s : String.concat (String x "") (split_char x s) = s.
Proof.
  induction s as [|c s IH]; [reflexivity|]. cbn [split_char].
  destruct (split_char x s) as [|p ps] eqn:E;
    [now apply ExtractFacts.split_char_nonempty in E|].
  destruct (Ascii.eqb_spec c x) as [->|N].
  - rewrite concat_cons, IH. reflexivity.
  - now rewrite concat_head, IH.
Qed.

Lemma contains_char_app x p s :
  contains (String x "") (p ++ String x s) = true.
Proof.
  induction p as [|c p IH].
  - cbn [append]. rewrite contains_char, Ascii.eqb_refl. reflexivity.
  - cbn [append]. rewrite contains_char, IH. apply orb_true_r.
Qed.

Lemma join_has_separator x p q ps :
  contains (String x "") (String.concat (String x "") (p :: q :: ps)) = true.
Proof. rewrite concat_cons. cbn [append]. apply contains_char_app. Qed.

Lemma boot_camp_has_slash s :
  Re.match_classes Re.boot_camp_pattern s = true -> contains "/" s = true.
Proof.
  destruct s as [|a [|b [|c [|d s]]]]; try (cbn; intros H; discriminate H);
    try (cbn; intros H; repeat (apply andb_true_iff in H as [? H]); discriminate).
  cbn [Re.match_classes Re.boot_camp_pattern]. intros H.
  apply andb_true_iff in H as [_ H]. apply andb_true_iff in H as [_ H].
  apply andb_true_iff in H as [_ H]. apply andb_true_iff in H as [H _].
  unfold Re.is_slash in H.
  rewrite !contains_char, H. now rewrite !orb_true_r.
Qed.

Lemma convert_outside s :
  contains s "ABCDEFGHI" = false ->
  CohortMovementTracker.convert_letter_to_number s = s.
Proof.
  intros H. unfold CohortMovementTracker.convert_letter_to_number,
    CohortMovementTracker.letter_map. cbn [CohortMovementTracker.dict_get].
  repeat match goal with
         | |- (if String.eqb s ?k then _ else _) = _ =>
             destruct (String.eqb_spec s k) as [->|_]; [discriminate H|]
         end.
  reflexivity.
Qed.

(** The list [parts] after the rewriting of its first element. *)
Lemma first_part_converted p ps :
  (if contains p "ABCDEFGHI"
   then CohortMovementTracker.convert_letter_to_number p :: ps
   else p :: ps)
  = CohortMovementTracker.convert_letter_to_number p :: ps.
Proof.
  destruct (contains p "ABCDEFGHI") eqn:E; [reflexivity|].
  now rewrite convert_outside.
Qed.

End CohortFacts.

(** X5.  [normalize_cohort_format] returns "Unknown" exactly for the texts
    that hold no slash once their commas are removed; every other text
    gives "Boot Camp" or a label with a slash. *)
Theorem normalize_cohort_unknown_iff (cohort : string) :
  CohortMovementTracker.normalize_cohort_format cohort = "Unknown" <->
  Text.contains "/" (Text.remove_char "," cohort) = false.
Proof.
  unfold CohortMovementTracker.normalize_cohort_format.
  set (t := Text.remove_char "," cohort).
  destruct (ParseFacts.split_char_cons "/" t) as (p & ps & E).
  rewrite E, CohortFacts.first_part_converted. split.
  - intros H. destruct (Text.contains "/" t) eqn:C; [exfalso | reflexivity].
    destruct (Re.match_classes Re.boot_camp_pattern t); [discriminate H|].
    destruct ps as [|q ps].
    + apply CohortFacts.contains_count in C.
      pose proof (SegmentFacts.split_char_length "/" t) as L.
      rewrite E in L. simpl in L. lia.
    + cbn [List.length Nat.ltb Nat.leb] in H.
      pose proof (CohortFacts.join_has_separator "/"
                    (CohortMovementTracker.convert_letter_to_number p) q ps) as J.
      rewrite H in J. discriminate J.
  - intros C.
    destruct (Re.match_classes Re.boot_camp_pattern t) eqn:B;
      [apply CohortFacts.boot_camp_has_slash in B; congruence|].
    rewrite (CohortFacts.split_char_absent "/" t C) in E. injection E as <- <-.
    reflexivity.
Qed.

(** X6.  On a text without commas that is not of the Boot Camp shape,
    [normalize_cohort_format] rewrites the segment before the first slash
    with [convert_letter_to_number] and returns the rest unchanged; the
    segment itself is unchanged unless it is one of the letters "A" to
    "I". *)
Theorem normalize_cohort_first_segment (seg rest : string) :
  Text.contains "/" seg = false ->
  Text.contains "," (seg ++ String "/" rest) = false ->
  Re.match_classes Re.boot_camp_pattern (seg ++ String "/" rest) = false ->
  CohortMovementTracker.normalize_cohort_format (seg ++ String "/" rest)
  = (CohortMovementTracker.convert_letter_to_number seg ++ String "/" rest)%string
  /\
  ((forall digit, ~ In (seg, digit) CohortMovementTracker.letter_map) ->
   CohortMovementTracker.normalize_cohort_format (seg ++ String "/" rest)
   = (seg ++ String "/" rest)%string).
Proof.
  intros Hseg Hcomma Hboot.
  assert (Hmain :
    CohortMovementTracker.normalize_cohort_format (seg ++ String "/" rest)
    = (CohortMovementTracker.convert_letter_to_number seg ++ String "/" rest)%string).
  { unfold CohortMovementTracker.normalize_cohort_format.
    rewrite (CohortFacts.remove_char_absent "," _ Hcomma), Hboot.
    rewrite SegmentFacts.split_char_app, (CohortFacts.split_char_absent "/" seg Hseg).
    cbn [app]. rewrite CohortFacts.first_part_converted.
    destruct (ParseFacts.split_char_cons "/" rest) as (q & qs & E).
    pose proof (CohortFacts.join_split "/" rest) as J. rewrite E in *.
    cbn [List.length Nat.ltb Nat.leb]. now rewrite CohortFacts.concat_cons, J. }
  split; [exact Hmain|].
  intros Hnot. rewrite Hmain. f_equal.
  unfold CohortMovementTracker.convert_letter_to_number,
    CohortMovementTracker.letter_map in *.
  cbn [CohortMovementTracker.dict_get].
  repeat match goal with
         | |- (if String.eqb seg ?k then ?v else _) = _ =>
             destruct (String.eqb_spec seg k) as [->|_];
             [exfalso; apply (Hnot v); simpl; tauto|]
         end.
  reflexivity.
Qed.

Lemma normalize_cohort_first_segment_witness :
  CohortMovementTracker.normalize_cohort_format "B/1/A/1-7" = "2/1/A/1-7".
Proof.
  exact (proj1 (normalize_cohort_first_segment "B" "1/A/1-7" eq_refl eq_refl eq_refl)).
Defined.

(** ** The membership builder *)

Module AssignmentFacts.
Import Datetime Shapes.

Lemma create_step_opened st ev :
  map opened (fst (create_step st ev) ++ pending (snd (create_step st ev)))
  = map opened (fst st ++ pending (snd st))
    ++ (if is_transfer ev then [opening ev] else []).
Proof.
  destruct st as [ms cur]. unfold create_step, is_transfer.
  destruct (event ev); destruct cur as [c|]; cbn [fst snd pending];
    rewrite ?map_app, ?app_nil_r, <- ?app_assoc; reflexivity.
Qed.

Lemma create_loop_opened events : forall st,
  map opened (fst (fold_left create_step events st)
              ++ pending (snd (fold_left create_step events st)))
  = map opened (fst st ++ pending (snd st))
    ++ map opening (filter is_transfer events).
Proof.
  induction events as [|ev events IH]; intros st; cbn [fold_left filter map].
  - now rewrite app_nil_r.
  - rewrite IH, create_step_opened, <- app_assoc. f_equal.
    now destruct (is_transfer ev).
Qed.

Lemma create_memberships_pending clk n events :
  map opened (fst (create_memberships clk n events))
  = map opened (fst (create_loop events) ++ pending (snd (create_loop events))).
Proof.
  unfold create_memberships. destruct (create_loop events) as [ms [c|]];
    cbn [fst snd pending]; [now rewrite !map_app | now rewrite app_nil_r].
Qed.

End AssignmentFacts.

(** X7.  [create_memberships] emits one membership for each transfer event,
    in the order of the transfers, with the date of the transfer as start
    date and its unit as unit; discharge events add no membership. *)
Theorem one_membership_per_transfer
  (clk : clock) (n : nat) (events : list event_row) :
  map Shapes.opened (fst (create_memberships clk n events))
  = map Shapes.opening (filter Shapes.is_transfer events).
Proof.
  rewrite AssignmentFacts.create_memberships_pending. unfold create_loop.
  now rewrite AssignmentFacts.create_loop_opened.
Qed.

Module StepFacts.
Import Datetime Shapes.

Lemma create_step_discharge_idle st d :
  event d = discharge -> snd st = None -> create_step st d = st.
Proof.
  destruct st as [ms cur]. cbn [snd]. intros Hd ->.
  unfold create_step. now rewrite Hd.
Qed.

Lemma create_step_discharge_closes st d :
  event d = discharge -> snd (create_step st d) = None.
Proof.
  destruct st as [ms cur]. intros Hd. unfold create_step. rewrite Hd.
  now destruct cur.
Qed.

Lemma create_step_end_from all now st ev :
  In ev all ->
  Forall (end_from all now) (fst st) ->
  Forall (end_from all now) (fst (create_step st ev)).
Proof.
  destruct st as [ms cur]. unfold create_step. cbn [fst]. intros Hin H.
  destruct (event ev) eqn:E; destruct cur as [c|]; cbn [fst]; try exact H;
    apply Forall_app; (split; [exact H|]); constructor; [|constructor| |constructor];
    right; exists ev; (split; [exact Hin|]); [left | right]; now split.
Qed.

Lemma create_loop_end_from all now events : forall st,
  (forall ev, In ev events -> In ev all) ->
  Forall (end_from all now) (fst st) ->
  Forall (end_from all now) (fst (fold_left create_step events st)).
Proof.
  induction events as [|ev events IH]; intros st Hall H; [exact H|].
  cbn [fold_left]. apply IH.
  - intros ev' Hin. apply Hall. now right.
  - apply create_step_end_from; [apply Hall; now left | exact H].
Qed.

End StepFacts.

(** X8.  [create_memberships] reads the clock at most once, and only when
    the last event is a transfer: after a last event that is a discharge,
    and for no event at all, the count of clock reads is unchanged and the
    memberships are those of the loop, whatever the clock. *)
Theorem clock_read_only_when_open (clk : clock) (n : nat) (events : list event_row) :
  (events = [] -> create_memberships clk n events = ([], n)) /\
  (forall pre ev,
     events = pre ++ [ev] ->
     snd (create_memberships clk n events)
     = (if Shapes.is_transfer ev then S n else n) /\
     (Shapes.is_transfer ev = false ->
      forall clk' n',
        fst (create_memberships clk' n' events)
        = fst (create_memberships clk n events))).
Proof.
  split; [now intros ->|].
  intros pre ev ->. unfold create_memberships, create_loop, Shapes.is_transfer.
  rewrite fold_left_app. cbn [fold_left].
  destruct (fold_left create_step pre ([], None)) as [ms cur].
  unfold create_step.
  destruct (event ev); destruct cur as [c|]; cbn [fst snd];
    (split; [reflexivity|]); intros H clk' n'; first [discriminate H | reflexivity].
Qed.

Lemma clock_read_only_when_open_witness :
  snd (create_memberships Samples.clock_06_01 0 Samples.events_closed) = 0%nat /\
  fst (create_memberships Samples.clock_2024 5 Samples.events_closed)
  = fst (create_memberships Samples.clock_06_01 0 Samples.events_closed).
Proof.
  destruct (proj2 (clock_read_only_when_open Samples.clock_06_01 0
                     Samples.events_closed)
              (removelast Samples.events_closed)
              (last Samples.events_closed (mkEvent 0 discharge no_unit))
              eq_refl) as [Hreads Hsame].
  split; [exact Hreads | exact (Hsame eq_refl Samples.clock_2024 5%nat)].
Defined.

(** X9.  A discharge that finds no open assignment changes nothing: a
    discharge at the head of the sequence, or right after another
    discharge, can be removed without changing what [create_memberships]
    returns. *)
Theorem discharge_without_assignment_ignored
  (clk : clock) (n : nat) (pre post : list event_row) (d1 d2 : event_row) :
  event d1 = discharge ->
  event d2 = discharge ->
  create_memberships clk n (d1 :: post) = create_memberships clk n post /\
  create_memberships clk n (pre ++ d1 :: d2 :: post)
  = create_memberships clk n (pre ++ d1 :: post).
Proof.
  intros H1 H2. unfold create_memberships, create_loop. split.
  - cbn [fold_left]. now rewrite (StepFacts.create_step_discharge_idle _ d1 H1).
  - rewrite !fold_left_app. cbn [fold_left].
    now rewrite (StepFacts.create_step_discharge_idle _ d2 H2
                   (StepFacts.create_step_discharge_closes _ d1 H1)).
Qed.

Lemma discharge_without_assignment_ignored_witness :
  create_memberships Samples.clock_06_01 0
    (mkEvent (Samples.day 2022 12 1) discharge no_unit :: Samples.events_closed)
  = create_memberships Samples.clock_06_01 0 Samples.events_closed.
Proof.
  exact (proj1 (discharge_without_assignment_ignored Samples.clock_06_01 0 []
                  Samples.events_closed
                  (mkEvent (Samples.day 2022 12 1) discharge no_unit)
                  (mkEvent (Samples.day 2022 12 1) discharge no_unit)
                  eq_refl eq_refl)).
Defined.

(** X10.  Every membership that [create_memberships] returns has an end
    date, and that date is the day before a transfer event, the date of a
    discharge event, or the reading of the clock. *)
Theorem end_dates_come_from_events
  (clk : clock) (n : nat) (events : list event_row) :
  Forall (Shapes.end_from events (clk n)) (fst (create_memberships clk n events)).
Proof.
  unfold create_memberships, create_loop.
  pose proof (StepFacts.create_loop_end_from events (clk n) events ([], None)
                (fun ev H => H) (Forall_nil _)) as H.
  destruct (fold_left create_step events ([], None)) as [ms [c|]];
    cbn [fst] in *; [|exact H].
  apply Forall_app. split; [exact H|]. repeat constructor.
Qed.

(** ** From documents to memberships *)

Module PipelineFacts.
Import Datetime Shapes.

Lemma make_date_midnight y m d t : make_date y m d = Ok t -> midnight t = true.
Proof.
  unfold make_date, midnight.
  destruct (_ && _); [|discriminate]. intros [= <-].
  rewrite Z.mod_mul by (unfold DAY; lia). reflexivity.
Qed.

Lemma strptime_midnight s t : strptime s = Ok t -> midnight t = true.
Proof.
  unfold strptime.
  repeat match goal with
         | |- context [match ?x with _ => _ end] => destruct x
         end; try discriminate; apply make_date_midnight.
Qed.

Section Extract.

Variable parse_unit : string -> result unit_fields.

Lemma record_events_midnight r rows :
  record_events parse_unit r = Ok rows -> Forall event_at_midnight rows.
Proof.
  unfold record_events.
  destruct (strptime (recordDate r)) as [t|] eqn:E; cbn [bind]; [|discriminate].
  apply strptime_midnight in E.
  destruct (String.eqb _ "RECORD_TYPE_TRANSFER").
  - destruct (parse_unit _); cbn [bind]; [|discriminate].
    intros [= <-]. now repeat constructor.
  - destruct (String.eqb _ "RECORD_TYPE_DISCHARGE"); intros [= <-];
      now repeat constructor.
Qed.

Lemma extract_loop_midnight rs : forall events evs,
  extract_loop parse_unit rs events = Ok evs ->
  Forall event_at_midnight events -> Forall event_at_midnight evs.
Proof.
  induction rs as [|r rs IH]; intros events evs H Hev; simpl in H.
  - now injection H as <-.
  - destruct (record_events parse_unit r) as [rows|] eqn:E; cbn [bind] in H;
      [|discriminate].
    apply (IH _ _ H). apply Forall_app. split; [exact Hev|].
    now apply (record_events_midnight r).
Qed.

Lemma extract_events_ordered data evs :
  extract_events parse_unit data = Ok evs ->
  Sorted date_ordered evs /\ Forall event_at_midnight evs.
Proof.
  unfold extract_events.
  destruct (extract_loop parse_unit _ []) as [rows|] eqn:E; cbn [bind];
    [|discriminate].
  intros [= <-]. split; [apply BuilderFacts.sort_values_date_sorted|].
  apply Forall_forall. intros ev Hin.
  apply (proj1 (ExtractFacts.sort_values_date_In _ _)) in Hin.
  pose proof (extract_loop_midnight _ _ _ E (Forall_nil _)) as H.
  now apply (proj1 (Forall_forall _ _) H).
Qed.

End Extract.

Lemma memberships_start_at_events clk n events m :
  In m (fst (create_memberships clk n events)) ->
  exists ev, In ev events /\ start_date m = date ev.
Proof.
  intros Hin.
  assert (map opened (fst (create_memberships clk n events))
          = map opening (filter is_transfer events)) as E.
  { rewrite AssignmentFacts.create_memberships_pending. unfold create_loop.
    now rewrite AssignmentFacts.create_loop_opened. }
  assert (In (opened m) (map opening (filter is_transfer events))) as H
    by (rewrite <- E; now apply in_map).
  clear E.
  apply in_map_iff in H as (ev & E & Hev). apply filter_In in Hev as [Hev _].
  exists ev. split; [exact Hev|]. unfold opened, opening in E. congruence.
Qed.

Lemma memberships_of_ordered_events clk n evs :
  Sorted date_ordered evs -> Forall event_at_midnight evs ->
  Sorted consecutive (fst (create_memberships clk n evs)) /\
  Forall starts_at_midnight (fst (create_memberships clk n evs)) /\
  Forall has_end (fst (create_memberships clk n evs)).
Proof.
  intros Hs Hm. split; [|split].
  - apply (BuilderFacts.Sorted_weaken (chained 0));
      [exact BuilderFacts.chained_0_consecutive|].
    apply BuilderFacts.create_memberships_chained; [lia|].
    apply (BuilderFacts.Sorted_weaken date_ordered); [|exact Hs].
    unfold date_ordered, gap_ordered. intros a b H. lia.
  - apply Forall_forall. intros m Hin.
    destruct (memberships_start_at_events clk n evs m Hin) as (ev & Hev & E).
    unfold starts_at_midnight. rewrite E.
    exact (proj1 (Forall_forall _ _) Hm ev Hev).
  - apply ClockFacts.create_memberships_closed.
Qed.

End PipelineFacts.

(** X11.  The events that [extract_events] returns for a document are in
    date order and dated at midnight, so that the memberships built from
    them are always in order of start date, each ending one day before the
    next starts or on a discharge date up to the next start, all starting
    at midnight and all carrying an end date. *)
Theorem memberships_of_a_document
  (data : document) (evs : list event_row) (clk : clock) (n : nat) :
  UnitStrengthHistory.extract_events data = Ok evs \/
  CohortRetentionAnalysis.extract_events data = Ok evs ->
  Sorted Shapes.date_ordered evs /\
  Forall Shapes.event_at_midnight evs /\
  Sorted Shapes.consecutive (fst (create_memberships clk n evs)) /\
  Forall Shapes.starts_at_midnight (fst (create_memberships clk n evs)) /\
  Forall Shapes.has_end (fst (create_memberships clk n evs)).
Proof.
  intros H.
  assert (Sorted Shapes.date_ordered evs /\ Forall Shapes.event_at_midnight evs)
    as [Hs Hm].
  { destruct H as [H | H];
      now apply (PipelineFacts.extract_events_ordered _ data evs) in H. }
  split; [exact Hs|]. split; [exact Hm|].
  now apply PipelineFacts.memberships_of_ordered_events.
Qed.

Lemma memberships_of_a_document_witness :
  Sorted Shapes.consecutive
    (fst (create_memberships Samples.clock_06_01 0 Samples.events_closed)).
Proof.
  exact (proj1 (proj2 (proj2
    (memberships_of_a_document Samples.doc_closed Samples.events_closed
       Samples.clock_06_01 0 (or_introl eq_refl))))).
Defined.

(** ** What [main] does when there is nothing to aggregate *)

Module EmptyRunFacts.
Import Datetime Shapes.

Lemma create_loop_only_discharges evs :
  only_discharges evs -> create_loop evs = ([], None).
Proof.
  unfold create_loop. induction 1 as [|ev evs Hev Hevs IH]; [reflexivity|].
  cbn [fold_left]. unfold create_step at 2. rewrite Hev. exact IH.
Qed.

Lemma create_memberships_only_discharges clk n evs :
  only_discharges evs -> create_memberships clk n evs = ([], n).
Proof.
  intros H. unfold create_memberships.
  now rewrite (create_loop_only_discharges evs H).
Qed.

Lemma concat_repeat_nil {A} k : List.concat (repeat (@nil A) k) = [].
Proof. induction k; [reflexivity | exact IHk]. Qed.

Lemma repeat_snoc {A} (x : A) k : repeat x k ++ [x] = repeat x (S k).
Proof. induction k; [reflexivity | simpl; now rewrite IHk]. Qed.

Lemma ush_main_loop_no_membership clk files : forall n k,
  Forall (fun d => exists evs,
            UnitStrengthHistory.extract_events d = Ok evs /\ only_discharges evs)
         files ->
  exists k',
    UnitStrengthHistory.main_loop clk n files (repeat [] k) = Ok (repeat [] k') /\
    (k <= k')%nat /\
    (Exists (fun d => UnitStrengthHistory.extract_events d <> Ok []) files ->
     (0 < k')%nat) /\
    (Forall (fun d => UnitStrengthHistory.extract_events d = Ok []) files ->
     k' = k).
Proof.
  induction files as [|d files IH]; intros n k H.
  - exists k. repeat split; [lia | intros Hx; inversion Hx].
  - inversion H as [|? ? (evs & E & Hd) Hfiles]; subst.
    cbn [UnitStrengthHistory.main_loop]. rewrite E. cbn [bind].
    destruct evs as [|ev evs].
    + destruct (IH n k Hfiles) as (k' & Hk' & Hle & Hpos & Hsame).
      exists k'. repeat split; try assumption.
      * intros Hx. inversion Hx as [? ? Hne | ? ? Hx']; subst;
          [congruence | now apply Hpos].
      * intros Hall. inversion Hall; subst. now apply Hsame.
    + rewrite (create_memberships_only_discharges clk n _ Hd), repeat_snoc.
      destruct (IH n (S k) Hfiles) as (k' & Hk' & Hle & _ & _).
      exists k'. repeat split; [exact Hk' | lia | lia |].
      intros Hall. inversion Hall; subst. congruence.
Qed.

Lemma cra_main_loop_no_membership clk files : forall n k,
  Forall (fun d => exists evs,
            CohortRetentionAnalysis.extract_events d = Ok evs /\ only_discharges evs)
         files ->
  exists k',
    CohortRetentionAnalysis.main_loop clk n files (repeat [] k) = Ok (repeat [] k') /\
    (k <= k')%nat /\
    (Exists (fun d => CohortRetentionAnalysis.extract_events d <> Ok []) files ->
     (0 < k')%nat) /\
    (Forall (fun d => CohortRetentionAnalysis.extract_events d = Ok []) files ->
     k' = k).
Proof.
  induction files as [|d files IH]; intros n k H.
  - exists k. repeat split; [lia | intros Hx; inversion Hx].
  - inversion H as [|? ? (evs & E & Hd) Hfiles]; subst.
    cbn [CohortRetentionAnalysis.main_loop]. rewrite E. cbn [bind].
    destruct evs as [|ev evs].
    + destruct (IH n k Hfiles) as (k' & Hk' & Hle & Hpos & Hsame).
      exists k'. repeat split; try assumption.
      * intros Hx. inversion Hx as [? ? Hne | ? ? Hx']; subst;
          [congruence | now apply Hpos].
      * intros Hall. inversion Hall; subst. now apply Hsame.
    + rewrite (create_memberships_only_discharges clk n _ Hd), repeat_snoc.
      destruct (IH n (S k) Hfiles) as (k' & Hk' & Hle & _ & _).
      exists k'. repeat split; [exact Hk' | lia | lia |].
      intros Hall. inversion Hall; subst. congruence.
Qed.

Lemma no_events_only_discharges (extract : document -> result (list event_row)) files :
  Forall (fun d => extract d = Ok []) files ->
  Forall (fun d => exists evs, extract d = Ok evs /\ only_discharges evs) files.
Proof.
  intros H. apply Forall_forall. intros d Hd.
  exists []. split; [exact (proj1 (Forall_forall _ _) H d Hd) | constructor].
Qed.

End EmptyRunFacts.

(** X12.  [main] of unitStrengthHistory.py ends quietly, writing no table,
    when no document yields an event (an empty folder, documents without
    records, records of other types only).  When documents yield events but
    no transfer among them, so that no membership is built, it does not end
    quietly: [calculate_daily_strength] raises a [KeyError]. *)
Theorem strength_run_without_memberships (clk : clock) (files : list document) :
  (Forall (fun d => UnitStrengthHistory.extract_events d = Ok []) files ->
   UnitStrengthHistory.main clk files = Ok None) /\
  (Forall (fun d => exists evs,
             UnitStrengthHistory.extract_events d = Ok evs /\
             Shapes.only_discharges evs) files ->
   Exists (fun d => UnitStrengthHistory.extract_events d <> Ok []) files ->
   UnitStrengthHistory.main clk files = Raise KeyError).
Proof.
  split.
  - intros H.
    destruct (EmptyRunFacts.ush_main_loop_no_membership clk files 0 0
                (EmptyRunFacts.no_events_only_discharges _ files H))
      as (k' & Hk' & _ & _ & Hsame).
    unfold UnitStrengthHistory.main. cbn [repeat] in Hk'. rewrite Hk'.
    rewrite (Hsame H). reflexivity.
  - intros H Hx.
    destruct (EmptyRunFacts.ush_main_loop_no_membership clk files 0 0 H)
      as (k' & Hk' & _ & Hpos & _).
    unfold UnitStrengthHistory.main. cbn [repeat] in Hk'. rewrite Hk'.
    specialize (Hpos Hx). destruct k' as [|k']; [lia|]. cbn [repeat bind].
    change ([] :: repeat [] k') with (repeat (@nil membership) (S k')).
    rewrite EmptyRunFacts.concat_repeat_nil. reflexivity.
Qed.

Lemma strength_run_without_memberships_witness :
  UnitStrengthHistory.main Samples.clock_06_01
    [Samples.doc_no_records; Samples.doc_other_type] = Ok None /\
  UnitStrengthHistory.main Samples.clock_06_01
    [Samples.doc_no_records; Samples.doc_discharge_only] = Raise KeyError.
Proof.
  split.
  - apply (proj1 (strength_run_without_memberships Samples.clock_06_01
                    [Samples.doc_no_records; Samples.doc_other_type])).
    repeat constructor.
  - apply (proj2 (strength_run_without_memberships Samples.clock_06_01
                    [Samples.doc_no_records; Samples.doc_discharge_only])).
    + constructor; [exists []; split; [reflexivity | constructor]|].
      constructor; [|constructor].
      eexists. split; [reflexivity|]. repeat constructor.
    + apply Exists_cons_tl. apply Exists_cons_hd. discriminate.
Defined.

(** X13.  [main] of cohortRetentionAnalysis.py has no guard for an empty
    run: when no document yields an event [pd.concat] raises a
    [ValueError], and when documents yield events but no transfer
    [calculate_retention] raises a [KeyError]. *)
Theorem retention_run_without_memberships (clk : clock) (files : list document) :
  (Forall (fun d => CohortRetentionAnalysis.extract_events d = Ok []) files ->
   CohortRetentionAnalysis.main clk files = Raise ValueError) /\
  (Forall (fun d => exists evs,
             CohortRetentionAnalysis.extract_events d = Ok evs /\
             Shapes.only_discharges evs) files ->
   Exists (fun d => CohortRetentionAnalysis.extract_events d <> Ok []) files ->
   CohortRetentionAnalysis.main clk files = Raise KeyError).
Proof.
  split.
  - intros H.
    destruct (EmptyRunFacts.cra_main_loop_no_membership clk files 0 0
                (EmptyRunFacts.no_events_only_discharges _ files H))
      as (k' & Hk' & _ & _ & Hsame).
    unfold CohortRetentionAnalysis.main. cbn [repeat] in Hk'. rewrite Hk'.
    rewrite (Hsame H). reflexivity.
  - intros H Hx.
    destruct (EmptyRunFacts.cra_main_loop_no_membership clk files 0 0 H)
      as (k' & Hk' & _ & Hpos & _).
    unfold CohortRetentionAnalysis.main. cbn [repeat] in Hk'. rewrite Hk'.
    specialize (Hpos Hx). destruct k' as [|k']; [lia|]. cbn [repeat bind].
    change ([] :: repeat [] k') with (repeat (@nil membership) (S k')).
    rewrite EmptyRunFacts.concat_repeat_nil. reflexivity.
Qed.

Lemma retention_run_without_memberships_witness :
  CohortRetentionAnalysis.main Samples.clock_06_01
    [Samples.doc_no_records; Samples.doc_other_type] = Raise ValueError /\
  CohortRetentionAnalysis.main Samples.clock_06_01
    [Samples.doc_no_records; Samples.doc_discharge_only] = Raise KeyError.
Proof.
  split.
  - apply (proj1 (retention_run_without_memberships Samples.clock_06_01
                    [Samples.doc_no_records; Samples.doc_other_type])).
    repeat constructor.
  - apply (proj2 (retention_run_without_memberships Samples.clock_06_01
                    [Samples.doc_no_records; Samples.doc_discharge_only])).
    + constructor; [exists []; split; [reflexivity | constructor]|].
      constructor; [|constructor].
      eexists. split; [reflexivity|]. repeat constructor.
    + apply Exists_cons_tl. apply Exists_cons_hd. discriminate.
Defined.

(** ** The daily strength table *)

Module TableFacts.
Import Datetime Shapes PandasFacts.

Lemma expand_days_app a b : forall acc,
  UnitStrengthHistory.expand_days (a ++ b) acc
  = (rows <- UnitStrengthHistory.expand_days a acc ;;
     UnitStrengthHistory.expand_days b rows).
Proof.
  induction a as [|m a IH]; intros acc; [reflexivity|].
  cbn [app UnitStrengthHistory.expand_days].
  destruct (UnitStrengthHistory.membership_days m) as [days|]; cbn [bind];
    [apply IH | reflexivity].
Qed.

Lemma membership_days_empty m e :
  end_date m = Some e -> e < start_date m ->
  UnitStrengthHistory.membership_days m = Ok [].
Proof.
  intros He Hlt. unfold UnitStrengthHistory.membership_days, Pandas.date_range.
  rewrite He. now rewrite (proj2 (Z.ltb_lt _ _) Hlt).
Qed.

Lemma expand_days_empty_spans ms : forall acc,
  Forall has_end ms ->
  Forall (fun m => span_contains m (start_date m) = false) ms ->
  UnitStrengthHistory.expand_days ms acc = Ok acc.
Proof.
  induction ms as [|m ms IH]; intros acc He Hs; [reflexivity|].
  inversion He as [|? ? Hm He']; inversion Hs as [|? ? Hsm Hs']; subst.
  cbn [UnitStrengthHistory.expand_days].
  unfold has_end in Hm. unfold span_contains in Hsm.
  destruct (end_date m) as [e|] eqn:E; [|congruence].
  rewrite Z.leb_refl in Hsm. cbn [andb] in Hsm. apply Z.leb_gt in Hsm.
  rewrite (membership_days_empty m e E Hsm). cbn [bind].
  rewrite app_nil_r. now apply IH.
Qed.

Lemma expand_days_missing_end ms : forall acc,
  Exists (fun m => end_date m = None) ms ->
  UnitStrengthHistory.expand_days ms acc = Raise ValueError.
Proof.
  induction ms as [|m ms IH]; intros acc H; [inversion H|].
  cbn [UnitStrengthHistory.expand_days].
  unfold UnitStrengthHistory.membership_days.
  destruct (end_date m) as [e|] eqn:E; cbn [bind]; [|reflexivity].
  inversion H as [? ? Hm | ? ? Hms]; subst; [congruence | now apply IH].
Qed.

End TableFacts.

(** X14.  [calculate_daily_strength] fails in two ways and no other: with a
    [ValueError] when a membership has no end date, and, every membership
    having one, with a [KeyError] exactly when every membership ends before
    it starts (in particular for no membership at all), there being no day
    to count. *)
Theorem daily_strength_failures (ms : list membership) :
  (Exists (fun m => end_date m = None) ms ->
   UnitStrengthHistory.calculate_daily_strength ms = Raise ValueError) /\
  (Forall Shapes.has_end ms ->
   (UnitStrengthHistory.calculate_daily_strength ms = Raise KeyError <->
    Forall (fun m => Shapes.span_contains m (start_date m) = false) ms) /\
   forall e, UnitStrengthHistory.calculate_daily_strength ms = Raise e ->
             e = KeyError).
Proof.
  split.
  - intros H. unfold UnitStrengthHistory.calculate_daily_strength.
    now rewrite (TableFacts.expand_days_missing_end ms [] H).
  - intros He.
    assert (Hdec : Forall (fun m => Shapes.span_contains m (start_date m) = false) ms
                   \/ Exists (fun m => Shapes.span_contains m (start_date m) = true) ms).
    { clear He. induction ms as [|m ms IH]; [left; constructor|].
      destruct (Shapes.span_contains m (start_date m)) eqn:E.
      - right. now apply Exists_cons_hd.
      - destruct IH as [IH | IH]; [left; now constructor | right; now apply Exists_cons_tl]. }
    assert (Hempty :
      Forall (fun m => Shapes.span_contains m (start_date m) = false) ms ->
      UnitStrengthHistory.calculate_daily_strength ms = Raise KeyError).
    { intros Hs. unfold UnitStrengthHistory.calculate_daily_strength.
      now rewrite (TableFacts.expand_days_empty_spans ms [] He Hs). }
    split; [split; [|exact Hempty]|].
    + intros Hk. destruct Hdec as [Hs | Hx]; [exact Hs|].
      destruct (StrengthFacts.daily_strength_total ms He Hx) as [table Ht].
      congruence.
    + intros e Hr. destruct Hdec as [Hs | Hx].
      * rewrite (Hempty Hs) in Hr. congruence.
      * destruct (StrengthFacts.daily_strength_total ms He Hx) as [table Ht].
        congruence.
Qed.

Lemma daily_strength_failures_witness :
  UnitStrengthHistory.calculate_daily_strength
    [mkMembership (Samples.day 2023 1 1) Samples.unit_2_3_B
       (Some (Samples.day 2022 12 31))] = Raise KeyError.
Proof.
  apply (proj2 (proj1 (proj2 (daily_strength_failures
           [mkMembership (Samples.day 2023 1 1) Samples.unit_2_3_B
              (Some (Samples.day 2022 12 31))])
           ltac:(repeat constructor; discriminate)))).
  repeat constructor.
Defined.

(** X15.  A membership that ends before it starts (the first of two
    assignments opened by transfers on one day) adds nothing to the daily
    strength: the table, or the error, is the one of the population without
    it. *)
Theorem empty_span_adds_nothing
  (before after : list membership) (m : membership) (e : Datetime.datetime) :
  end_date m = Some e ->
  e < start_date m ->
  UnitStrengthHistory.calculate_daily_strength (before ++ m :: after)
  = UnitStrengthHistory.calculate_daily_strength (before ++ after).
Proof.
  intros He Hlt. unfold UnitStrengthHistory.calculate_daily_strength.
  rewrite !TableFacts.expand_days_app.
  destruct (UnitStrengthHistory.expand_days before []) as [rows|]; cbn [bind];
    [|reflexivity].
  cbn [UnitStrengthHistory.expand_days].
  rewrite (TableFacts.membership_days_empty m e He Hlt). cbn [bind].
  now rewrite app_nil_r.
Qed.

Lemma empty_span_adds_nothing_witness :
  UnitStrengthHistory.calculate_daily_strength
    (fst (create_memberships Samples.clock_06_01 0 Samples.events_same_day))
  = UnitStrengthHistory.calculate_daily_strength
      [mkMembership (Samples.day 2023 1 1) Samples.unit_1_1_A
         (Some (Samples.clock_06_01 0%nat))].
Proof.
  exact (empty_span_adds_nothing []
           [mkMembership (Samples.day 2023 1 1) Samples.unit_1_1_A
              (Some (Samples.clock_06_01 0%nat))]
           (mkMembership (Samples.day 2023 1 1) Samples.unit_2_3_B
              (Some (Samples.day 2022 12 31)))
           (Samples.day 2022 12 31) eq_refl eq_refl).
Defined.

Module OrderFacts.
Import Datetime Shapes PandasFacts.

Lemma lex_opp a b : Pandas.lex (CompOpp a) (CompOpp b) = CompOpp (Pandas.lex a b).
Proof. now destruct a. Qed.

Lemma cell_compare_antisym : antisymmetric Pandas.cell_compare.
Proof.
  intros [a|] [b|]; simpl; try reflexivity. apply String.compare_antisym.
Qed.

Lemma unit_compare_antisym : antisymmetric Pandas.unit_compare.
Proof.
  intros u v. unfold Pandas.unit_compare.
  now rewrite <- !lex_opp, <- !cell_compare_antisym.
Qed.

Lemma daily_key_compare_antisym : antisymmetric UnitStrengthHistory.daily_key_compare.
Proof.
  intros a b. unfold UnitStrengthHistory.daily_key_compare.
  now rewrite <- lex_opp, <- unit_compare_antisym, <- Z.compare_antisym.
Qed.

Lemma leb_of_total {A} (cmp : A -> A -> comparison) x y :
  antisymmetric cmp ->
  Pandas.leb_of cmp x y = false -> Pandas.leb_of cmp y x = true.
Proof.
  intros Ha. unfold Pandas.leb_of. rewrite (Ha x y).
  now destruct (cmp x y).
Qed.

Section Sorting.

Context {K : Type}.
Variable leb : K -> K -> bool.
Hypothesis leb_total : forall x y, leb x y = false -> leb y x = true.

Let ascending := Sorted (fun a b => leb a b = true).

Lemma insert_sorted_hd a x l :
  leb a x = true -> HdRel (fun a b => leb a b = true) a l ->
  HdRel (fun a b => leb a b = true) a (Pandas.insert_sorted leb x l).
Proof.
  intros Hax Hl. destruct l as [|y l]; simpl; [now constructor|].
  destruct (leb x y); constructor; [exact Hax | now inversion Hl].
Qed.

Lemma insert_sorted_ascending x l :
  ascending l -> ascending (Pandas.insert_sorted leb x l).
Proof.
  induction 1 as [|y l Hs IH Hhd]; simpl; [repeat constructor|].
  destruct (leb x y) eqn:E.
  - constructor; [now constructor | now constructor].
  - constructor; [exact IH|].
    apply insert_sorted_hd; [now apply leb_total | exact Hhd].
Qed.

Lemma sort_keys_ascending l : ascending (Pandas.sort_keys leb l).
Proof.
  induction l as [|x l IH]; simpl; [constructor|].
  now apply insert_sorted_ascending.
Qed.

End Sorting.

Section Permuting.

Context {K : Type}.
Variable leb : K -> K -> bool.

Lemma insert_sorted_perm x l : Permutation (Pandas.insert_sorted leb x l) (x :: l).
Proof.
  induction l as [|y l IH]; simpl; [reflexivity|].
  destruct (leb x y); [reflexivity|].
  rewrite IH. apply perm_swap.
Qed.

Lemma sort_keys_perm l : Permutation (Pandas.sort_keys leb l) l.
Proof.
  induction l as [|x l IH]; simpl; [reflexivity|].
  now rewrite insert_sorted_perm, IH.
Qed.

End Permuting.

Lemma unique_NoDup {K} (eqb : K -> K -> bool) l :
  (forall a b, eqb a b = true <-> a = b) -> NoDup (Pandas.unique eqb l).
Proof.
  intros Heq. induction l as [|x l IH]; simpl; [constructor|].
  destruct (existsb (eqb x) l) eqn:E; [exact IH|].
  constructor; [|exact IH].
  intros Hin. apply (proj1 (unique_In eqb eqb Heq _ _)) in Hin.
  assert (existsb (eqb x) l = true) as E'.
  { apply existsb_exists. exists x. split; [exact Hin | now apply Heq]. }
  congruence.
Qed.

Lemma groupby_keys {R K} (key : R -> K) eqb leb rows :
  map fst (Pandas.groupby key eqb leb rows)
  = Pandas.sort_keys leb (Pandas.unique eqb (map key rows)).
Proof.
  unfold Pandas.groupby. rewrite map_map. cbn [fst]. apply map_id.
Qed.

Lemma groupby_keys_NoDup {R K} (key : R -> K) eqb leb rows :
  (forall a b, eqb a b = true <-> a = b) ->
  NoDup (map fst (Pandas.groupby key eqb leb rows)).
Proof.
  intros Heq. rewrite groupby_keys.
  apply (Permutation_NoDup (l := Pandas.unique eqb (map key rows)));
    [symmetry; apply sort_keys_perm | now apply unique_NoDup].
Qed.

Lemma strength_row_leb_total x y :
  UnitStrengthHistory.strength_row_leb x y = false ->
  UnitStrengthHistory.strength_row_leb y x = true.
Proof.
  unfold UnitStrengthHistory.strength_row_leb.
  apply leb_of_total. exact daily_key_compare_antisym.
Qed.

End OrderFacts.

(** X16.  The daily strength table is in ascending order of date, then
    Battalion, Company, Platoon and Squad, and it has one row at most for a
    date and a unit. *)
Theorem daily_table_sorted_one_row_per_key
  (ms : list membership) (table : list UnitStrengthHistory.strength_row) :
  UnitStrengthHistory.calculate_daily_strength ms = Ok table ->
  Shapes.rows_ascending table /\ NoDup (map Shapes.row_key table).
Proof.
  unfold UnitStrengthHistory.calculate_daily_strength.
  destruct (UnitStrengthHistory.expand_days ms []) as [[|r0 rows]|];
    cbn [bind]; try discriminate.
  intros [= <-]. split.
  - apply OrderFacts.sort_keys_ascending. exact OrderFacts.strength_row_leb_total.
  - match goal with
    | |- NoDup (map _ (Pandas.sort_keys _ (map ?mk ?groups))) =>
        apply (Permutation_NoDup (l := map Shapes.row_key (map mk groups)));
        [apply Permutation_map; symmetry; apply OrderFacts.sort_keys_perm|];
        rewrite map_map;
        rewrite (map_ext _ fst) by (intros [[d u] g]; reflexivity);
        apply (OrderFacts.groupby_keys_NoDup (fun k => k)
                 UnitStrengthHistory.daily_key_eqb
                 (Pandas.leb_of UnitStrengthHistory.daily_key_compare));
        exact PandasFacts.daily_key_eqb_eq
    end.
Qed.

Lemma daily_table_sorted_one_row_per_key_witness :
  Shapes.rows_ascending
    [UnitStrengthHistory.mkStrength (Samples.day 2023 1 2) Samples.unit_2_3_B 1;
     UnitStrengthHistory.mkStrength (Samples.day 2023 1 3) Samples.unit_2_3_B 1].
Proof.
  exact (proj1 (daily_table_sorted_one_row_per_key
                  [Samples.membership_unknown; Samples.membership_known] _ eq_refl)).
Defined.

Module CountFacts.
Import Datetime Shapes PandasFacts.

Section Groups.

Context {R K : Type}.
Variable key : R -> K.
Variable key_eqb : K -> K -> bool.
Hypothesis key_eqb_eq : forall a b, key_eqb a b = true <-> a = b.

Lemma key_eqb_refl k : key_eqb k k = true.
Proof. now apply key_eqb_eq. Qed.

Lemma one_key_matches x ks :
  NoDup ks -> In x ks ->
  fold_right Nat.add 0%nat (map (fun k => if key_eqb x k then 1 else 0)%nat ks) = 1%nat.
Proof.
  induction 1 as [|k ks Hnotin Hnd IH]; intros Hin; [contradiction|]. simpl.
  destruct Hin as [-> | Hin].
  - rewrite key_eqb_refl. f_equal.
    clear IH Hnd. induction ks as [|k ks IH]; [reflexivity|]. simpl.
    destruct (key_eqb x k) eqn:E.
    + apply key_eqb_eq in E. subst. elim Hnotin. now left.
    + apply IH. intros H. apply Hnotin. now right.
  - destruct (key_eqb x k) eqn:E.
    + apply key_eqb_eq in E. subst. contradiction.
    + now apply IH.
Qed.

Lemma sum_pointwise (f g h : K -> nat) ks :
  (forall k, f k = (g k + h k)%nat) ->
  fold_right Nat.add 0%nat (map f ks)
  = (fold_right Nat.add 0%nat (map g ks) + fold_right Nat.add 0%nat (map h ks))%nat.
Proof.
  intros H. induction ks as [|k ks IH]; [reflexivity|]. simpl.
  rewrite IH, H. lia.
Qed.

Lemma group_sizes_sum ks rows :
  NoDup ks -> (forall r, In r rows -> In (key r) ks) ->
  fold_right Nat.add 0%nat
    (map (fun k => List.length (filter (fun r => key_eqb (key r) k) rows)) ks)
  = List.length rows.
Proof.
  intros Hnd. induction rows as [|r rows IH]; intros Hall.
  - simpl. induction ks; [reflexivity | simpl; now rewrite IHks by now inversion Hnd].
  - rewrite (sum_pointwise _
               (fun k => if key_eqb (key r) k then 1 else 0)%nat
               (fun k => List.length (filter (fun r => key_eqb (key r) k) rows))).
    + rewrite (one_key_matches (key r) ks Hnd (Hall r (or_introl eq_refl))).
      now rewrite (IH (fun r' H => Hall r' (or_intror H))).
    + intros k. cbn [filter]. now destruct (key_eqb (key r) k).
Qed.

Lemma groupby_sizes key_leb rows :
  fold_right Nat.add 0%nat
    (map (fun g => List.length (snd g)) (Pandas.groupby key key_eqb key_leb rows))
  = List.length rows.
Proof.
  unfold Pandas.groupby. rewrite map_map. cbn [snd].
  apply group_sizes_sum.
  - apply (Permutation_NoDup (l := Pandas.unique key_eqb (map key rows)));
      [symmetry; apply OrderFacts.sort_keys_perm
      | now apply OrderFacts.unique_NoDup].
  - intros r Hr. apply (proj2 (sort_keys_In key_leb key_leb _ _)).
    apply (proj2 (unique_In key_eqb key_eqb key_eqb_eq _ _)). now apply in_map.
Qed.

End Groups.

Lemma sum_perm (l l' : list Z) :
  Permutation l l' -> fold_right Z.add 0 l = fold_right Z.add 0 l'.
Proof. induction 1; simpl; lia. Qed.

Lemma sum_of_nat (l : list nat) :
  fold_right Z.add 0 (map Z.of_nat l) = Z.of_nat (fold_right Nat.add 0%nat l).
Proof. induction l as [|x l IH]; simpl; [reflexivity | lia]. Qed.

Lemma expand_days_member_days ms : forall acc rows,
  UnitStrengthHistory.expand_days ms acc = Ok rows ->
  Z.of_nat (List.length
              (filter (fun k : UnitStrengthHistory.daily_key => Pandas.notna (snd k)) rows))
  = Z.of_nat (List.length
                (filter (fun k : UnitStrengthHistory.daily_key => Pandas.notna (snd k)) acc))
    + member_days ms.
Proof.
  induction ms as [|m ms IH]; intros acc rows H; simpl in H.
  - injection H as <-. unfold member_days. simpl. lia.
  - destruct (UnitStrengthHistory.membership_days m) as [days|] eqn:E;
      cbn [bind] in H; [|discriminate].
    rewrite (IH _ _ H), filter_app, length_app,
      (StrengthFacts.membership_days_units m days E).
    unfold member_days. cbn [map fold_right].
    unfold UnitStrengthHistory.membership_days in E.
    destruct (end_date m) as [e|]; [|discriminate]. injection E as <-.
    destruct (Pandas.notna (unit_of m)); rewrite ?length_map; cbn [List.length]; lia.
Qed.

End CountFacts.

(** X17.  The strengths of the daily table add up to the number of days
    that the memberships of units with their four fields span: every such
    member-day is counted once, in one row. *)
Theorem daily_strength_conserves_member_days
  (ms : list membership) (table : list UnitStrengthHistory.strength_row) :
  UnitStrengthHistory.calculate_daily_strength ms = Ok table ->
  Shapes.total_strength table = Shapes.member_days ms.
Proof.
  unfold UnitStrengthHistory.calculate_daily_strength.
  destruct (UnitStrengthHistory.expand_days ms []) as [rows|] eqn:E;
    cbn [bind]; [|discriminate].
  destruct rows as [|r0 rows0] eqn:Er; [discriminate|]. rewrite <- Er in *.
  intros [= <-].
  pose proof (CountFacts.expand_days_member_days ms [] rows E) as Hd.
  cbn [filter List.length Z.of_nat] in Hd.
  unfold Shapes.total_strength.
  rewrite (CountFacts.sum_perm _ _
             (Permutation_map _ (OrderFacts.sort_keys_perm _ _))).
  rewrite map_map. cbn [UnitStrengthHistory.strength].
  rewrite <- (map_map (fun g => List.length (snd g)) Z.of_nat).
  rewrite CountFacts.sum_of_nat.
  rewrite (CountFacts.groupby_sizes (fun k => k) UnitStrengthHistory.daily_key_eqb
             PandasFacts.daily_key_eqb_eq).
  exact Hd.
Qed.

Lemma daily_strength_conserves_member_days_witness :
  Shapes.total_strength
    [UnitStrengthHistory.mkStrength (Samples.day 2023 1 2) Samples.unit_2_3_B 1;
     UnitStrengthHistory.mkStrength (Samples.day 2023 1 3) Samples.unit_2_3_B 1]
  = Shapes.member_days [Samples.membership_unknown; Samples.membership_known].
Proof.
  exact (daily_strength_conserves_member_days
           [Samples.membership_unknown; Samples.membership_known] _ eq_refl).
Defined.

(** ** The cohort retention table *)

Module HorizonFacts.
Import Datetime Shapes PandasFacts.

Lemma dict_set_fresh d k v :
  ~ In k (map fst d) -> CohortRetentionAnalysis.dict_set d k v = d ++ [(k, v)].
Proof.
  induction d as [|[k' v'] d IH]; intros H; [reflexivity|]. simpl in *.
  destruct (Z.eqb_spec k' k) as [->|N]; [elim H; now left|].
  rewrite IH; [reflexivity|]. intros Hin. apply H. now right.
Qed.

Lemma retention_dict (f : Z -> Q) intervals : forall d,
  NoDup (map fst d ++ intervals) ->
  fold_left (fun d interval => CohortRetentionAnalysis.dict_set d interval (f interval))
            intervals d
  = d ++ map (fun interval => (interval, f interval)) intervals.
Proof.
  induction intervals as [|i intervals IH]; intros d H; cbn [fold_left map].
  - now rewrite app_nil_r.
  - rewrite dict_set_fresh.
    + rewrite IH; [now rewrite <- app_assoc|].
      rewrite map_app. cbn [map fst]. now rewrite <- app_assoc.
    + apply NoDup_remove_2 in H. intros Hin. apply H. apply in_or_app. now left.
Qed.

End HorizonFacts.

(** X18.  A row of the cohort retention table holds one entry for each
    horizon, in the order of the horizons, when no horizon is given twice
    (as for the default 30, 90, 180 and 365 days).  The entry of horizon
    [H] is, within half a hundredth (and the rounding error of the float
    operations), [100 * retained / total], where [total] is the number of
    memberships that have the cohort and the unit of the row and [retained]
    the number of those that end on the earliest start date among them plus
    [H] days, or later. *)
Theorem retention_entries_follow_horizons
  (ms : list membership) (intervals : list Z)
  (table : list CohortRetentionAnalysis.cohort_info)
  (row : CohortRetentionAnalysis.cohort_info) :
  CohortRetentionAnalysis.calculate_retention ms intervals = Ok table ->
  In row table ->
  NoDup intervals ->
  let group := Shapes.members_of ms row in
  let total := Z.of_nat (List.length group) in
  map fst (CohortRetentionAnalysis.Retention row) = intervals /\
  0 < total /\
  forall earliest_start H p,
    Shapes.earliest group earliest_start ->
    In (H, p) (CohortRetentionAnalysis.Retention row) ->
    let retained :=
      CohortRetentionAnalysis.retained_at group
        (earliest_start + Datetime.timedelta H) in
    0 <= retained <= total /\
    (total < 2 ^ Float64.prec ->
     Shapes.near p (100 * inject_Z retained / inject_Z total)).
Proof.
  unfold CohortRetentionAnalysis.calculate_retention.
  destruct ms as [|m0 ms0] eqn:Ems; [discriminate|]. rewrite <- Ems.
  intros [= <-] Hrow Hnd.
  apply in_map_iff in Hrow as ([k group] & <- & Hg). cbn [fst snd].
  apply (PandasFacts.groupby_In CohortRetentionAnalysis.cohort_key_of
           CohortRetentionAnalysis.cohort_key_eqb _ RetentionFacts.cohort_key_eqb_eq)
    in Hg as [Hk ->].
  set (group := filter _ (filter _ ms)).
  assert (Hgroup : Shapes.members_of ms
                     (CohortRetentionAnalysis.cohort_row intervals k group) = group)
    by reflexivity.
  rewrite Hgroup. cbn zeta.
  assert (Hne : group <> []).
  { apply in_map_iff in Hk as (m & Hmk & Hm). apply filter_In in Hm as [Hm Hn].
    intros E. assert (In m group) as Hin.
    { unfold group. apply filter_In. split; [now apply filter_In|].
      now apply RetentionFacts.cohort_key_eqb_eq. }
    rewrite E in Hin. contradiction. }
  assert (Hpos : 0 < Z.of_nat (List.length group))
    by (destruct group; [congruence | simpl; lia]).
  assert (HR : CohortRetentionAnalysis.Retention
                 (CohortRetentionAnalysis.cohort_row intervals k group)
               = map (fun H =>
                        (H, CohortRetentionAnalysis.percentage
                              (CohortRetentionAnalysis.retained_at group
                                 (CohortRetentionAnalysis.min_start group
                                  + Datetime.timedelta H))
                              (Z.of_nat (List.length group))))
                     intervals).
  { unfold CohortRetentionAnalysis.cohort_row.
    cbn [CohortRetentionAnalysis.Retention].
    now rewrite (HorizonFacts.retention_dict
                   (fun H => CohortRetentionAnalysis.percentage
                               (CohortRetentionAnalysis.retained_at group
                                  (CohortRetentionAnalysis.min_start group
                                   + Datetime.timedelta H))
                               (Z.of_nat (List.length group)))
                   intervals [] Hnd). }
  split; [|split; [exact Hpos|]].
  - rewrite HR, map_map. cbn [fst]. apply map_id.
  - intros s H p Hs Hin.
    rewrite (RetentionFacts.earliest_unique group s _ Hs
               (RetentionFacts.min_start_earliest group Hne)).
    pose proof (RetentionFacts.retained_at_range group
                  (CohortRetentionAnalysis.min_start group + Datetime.timedelta H))
      as Hr.
    split; [exact Hr|]. intros Hlt.
    rewrite HR in Hin. apply in_map_iff in Hin as (H' & [= -> <-] & _).
    apply PercentFacts.percentage_near; [lia | exact Hr].
Qed.

Lemma retention_entries_follow_horizons_witness :
  Shapes.near 50 (100 * inject_Z 1 / inject_Z 2).
Proof.
  assert (Ht : CohortRetentionAnalysis.calculate_retention
                 Samples.cohort_of_two CohortRetentionAnalysis.default_intervals
               = Ok [CohortRetentionAnalysis.mkCohort "2023-01" Samples.unit_2_3_B 2
                       [(30, 100%Q); (90, 50%Q); (180, 0%Q); (365, 0%Q)]])
    by (vm_compute; reflexivity).
  assert (Hnd : NoDup CohortRetentionAnalysis.default_intervals)
    by (repeat constructor; simpl; intuition discriminate).
  destruct (retention_entries_follow_horizons
              Samples.cohort_of_two CohortRetentionAnalysis.default_intervals
              _ _ Ht (or_introl eq_refl) Hnd) as (_ & _ & Hentry).
  assert (Hg : Shapes.members_of Samples.cohort_of_two
                 (CohortRetentionAnalysis.mkCohort "2023-01" Samples.unit_2_3_B 2
                    [(30, 100%Q); (90, 50%Q); (180, 0%Q); (365, 0%Q)])
               = Samples.cohort_of_two)
    by (vm_compute; reflexivity).
  rewrite Hg in Hentry.
  apply (Hentry (Samples.day 2023 1 1) 90 50%Q).
  - split; [now left|]. intros m [<- | [<- | []]]; vm_compute; discriminate.
  - right. now left.
  - vm_compute. reflexivity.
Defined.

(** X19.  The cohort retention table has one row at most for a cohort and
    a unit, and its [Total Members] add up to the number of memberships of
    units with their four fields: each of them is counted in one row. *)
Theorem retention_conserves_memberships
  (ms : list membership) (intervals : list Z)
  (table : list CohortRetentionAnalysis.cohort_info) :
  CohortRetentionAnalysis.calculate_retention ms intervals = Ok table ->
  NoDup (map Shapes.cohort_row_key table) /\
  Shapes.total_members table
  = Z.of_nat (List.length (filter (fun m => Pandas.notna (unit_of m)) ms)).
Proof.
  unfold CohortRetentionAnalysis.calculate_retention.
  destruct ms as [|m0 ms0] eqn:Ems; [discriminate|]. rewrite <- Ems.
  intros [= <-]. split.
  - rewrite map_map.
    rewrite (map_ext _ fst) by (intros [[c u] g]; reflexivity).
    apply OrderFacts.groupby_keys_NoDup. exact RetentionFacts.cohort_key_eqb_eq.
  - unfold Shapes.total_members. rewrite map_map.
    cbn [CohortRetentionAnalysis.Total_Members CohortRetentionAnalysis.cohort_row].
    rewrite <- (map_map (fun g => List.length (snd g)) Z.of_nat).
    rewrite CountFacts.sum_of_nat.
    now rewrite (CountFacts.groupby_sizes CohortRetentionAnalysis.cohort_key_of
                   CohortRetentionAnalysis.cohort_key_eqb
                   RetentionFacts.cohort_key_eqb_eq).
Qed.

Lemma retention_conserves_memberships_witness :
  Shapes.total_members
    [CohortRetentionAnalysis.mkCohort "2023-01" Samples.unit_2_3_B 1
       [(30, 0%Q); (90, 0%Q); (180, 0%Q); (365, 0%Q)]] = 1.
Proof.
  exact (proj2 (retention_conserves_memberships
                  [Samples.membership_unknown; Samples.membership_known]
                  CohortRetentionAnalysis.default_intervals _ eq_refl)).
Defined.

Module OpenCohortFacts.
Import Datetime Shapes PandasFacts.

Lemma retained_all group c :
  (forall m, In m group -> exists e, end_date m = Some e /\ c <= e) ->
  CohortRetentionAnalysis.retained_at group c = Z.of_nat (List.length group).
Proof.
  unfold CohortRetentionAnalysis.retained_at. intros H. f_equal. f_equal.
  induction group as [|m group IH]; [reflexivity|]. simpl.
  destruct (H m (or_introl eq_refl)) as (e & -> & Hle).
  rewrite (proj2 (Z.leb_le _ _) Hle). f_equal.
  apply IH. intros m' Hm'. apply H. now right.
Qed.

Lemma retained_none group c :
  (forall m, In m group -> exists e, end_date m = Some e /\ e < c) ->
  CohortRetentionAnalysis.retained_at group c = 0.
Proof.
  unfold CohortRetentionAnalysis.retained_at. intros H.
  replace (filter _ group) with (@nil membership); [reflexivity|].
  induction group as [|m group IH]; [reflexivity|]. simpl.
  destruct (H m (or_introl eq_refl)) as (e & -> & Hlt).
  rewrite (proj2 (Z.leb_gt _ _) Hlt).
  apply IH. intros m' Hm'. apply H. now right.
Qed.

End OpenCohortFacts.

(** X20.  Members who are still assigned are counted with the time of the
    run as end date.  For a group whose memberships all end at the clock
    reading [now], the retention at a horizon [H] is 100 when [H] days have
    passed at [now] since the start of a membership of the group, and 0
    when they have passed for none: a cohort of active members shows no
    retention at the horizons it has not reached yet. *)
Theorem retention_of_active_cohort
  (ms : list membership) (intervals : list Z)
  (table : list CohortRetentionAnalysis.cohort_info)
  (row : CohortRetentionAnalysis.cohort_info)
  (now : Datetime.datetime) (H : Z) (p : Q) :
  CohortRetentionAnalysis.calculate_retention ms intervals = Ok table ->
  In row table ->
  In (H, p) (CohortRetentionAnalysis.Retention row) ->
  (forall m, Shapes.in_group ms row m -> end_date m = Some now) ->
  ((exists m, Shapes.in_group ms row m /\
              start_date m + Datetime.timedelta H <= now) ->
   (p == 100)%Q) /\
  ((forall m, Shapes.in_group ms row m ->
              now < start_date m + Datetime.timedelta H) ->
   (p == 0)%Q).
Proof.
  unfold CohortRetentionAnalysis.calculate_retention.
  destruct ms as [|m0 ms0] eqn:Ems; [discriminate|]. rewrite <- Ems.
  intros [= <-] Hrow Hp Hopen.
  apply in_map_iff in Hrow as ([k group] & <- & Hg). cbn [fst snd] in *.
  apply (PandasFacts.groupby_In CohortRetentionAnalysis.cohort_key_of
           CohortRetentionAnalysis.cohort_key_eqb _ RetentionFacts.cohort_key_eqb_eq)
    in Hg as [Hk ->].
  set (group := filter _ (filter _ ms)) in *.
  assert (Hgroup : forall m, In m group <-> Shapes.in_group ms
                     (CohortRetentionAnalysis.cohort_row intervals k group) m
                     /\ Pandas.notna (unit_of m) = true).
  { intros m. unfold group, Shapes.in_group.
    cbn [CohortRetentionAnalysis.cohort_row CohortRetentionAnalysis.Cohort
         CohortRetentionAnalysis.c_unit].
    rewrite !filter_In, RetentionFacts.cohort_key_eqb_eq.
    unfold CohortRetentionAnalysis.cohort_key_of. destruct k as [c u]. cbn [fst snd].
    split.
    - intros [[Hm Hn] [= <- <-]]. auto.
    - intros [(Hm & <- & <-) Hn]. auto. }
  assert (Hne : group <> []).
  { apply in_map_iff in Hk as (m & Hmk & Hm). apply filter_In in Hm as [Hm Hn].
    intros E. assert (In m group) as Hin.
    { apply Hgroup. split; [|exact Hn]. unfold Shapes.in_group.
      cbn [CohortRetentionAnalysis.cohort_row CohortRetentionAnalysis.Cohort
           CohortRetentionAnalysis.c_unit].
      unfold CohortRetentionAnalysis.cohort_key_of in Hmk. subst k. auto. }
    rewrite E in Hin. contradiction. }
  assert (Hunit : forall m, Shapes.in_group ms
                    (CohortRetentionAnalysis.cohort_row intervals k group) m ->
                  In m group).
  { intros m Hm. apply Hgroup. split; [exact Hm|].
    destruct Hm as (_ & _ & Hu). rewrite Hu.
    cbn [CohortRetentionAnalysis.cohort_row CohortRetentionAnalysis.c_unit].
    apply in_map_iff in Hk as (m' & Hmk & Hm'). apply filter_In in Hm' as [_ Hn].
    unfold CohortRetentionAnalysis.cohort_key_of in Hmk. subst k. exact Hn. }
  assert (Hpos : 0 < Z.of_nat (List.length group))
    by (destruct group; [congruence | simpl; lia]).
  assert (Hval : p = CohortRetentionAnalysis.percentage
                       (CohortRetentionAnalysis.retained_at group
                          (CohortRetentionAnalysis.min_start group
                           + Datetime.timedelta H))
                       (Z.of_nat (List.length group))).
  { unfold CohortRetentionAnalysis.cohort_row in Hp.
    cbn [CohortRetentionAnalysis.Retention] in Hp.
    apply (RetentionFacts.retention_entries
             (fun H => CohortRetentionAnalysis.percentage
                         (CohortRetentionAnalysis.retained_at group
                            (CohortRetentionAnalysis.min_start group
                             + Datetime.timedelta H))
                         (Z.of_nat (List.length group)))
             intervals [] H p); [|exact Hp].
    intros ? ? []. }
  split.
  - intros (m & Hm & Hle). rewrite Hval.
    rewrite OpenCohortFacts.retained_all.
    + rewrite (PercentFacts.percentage_all _ Hpos). reflexivity.
    + intros m' Hm'. exists now. split; [apply Hopen; now apply Hgroup|].
      pose proof (RetentionFacts.min_start_lower group m (Hunit m Hm)). lia.
  - intros Hnone. rewrite Hval.
    rewrite OpenCohortFacts.retained_none.
    + rewrite PercentFacts.percentage_none. reflexivity.
    + destruct (RetentionFacts.min_start_attained group Hne) as (m1 & Hm1 & E1).
      intros m' Hm'. exists now. split; [apply Hopen; now apply Hgroup|].
      rewrite <- E1. apply Hnone. now apply Hgroup.
Qed.

Lemma retention_of_active_cohort_witness :
  (0 == 0)%Q.
Proof.
  apply (proj2 (retention_of_active_cohort
                  [mkMembership (Samples.day 2023 5 30) Samples.unit_2_3_B
                     (Some (Samples.clock_06_01 0%nat))]
                  CohortRetentionAnalysis.default_intervals
                  [CohortRetentionAnalysis.mkCohort "2023-05" Samples.unit_2_3_B 1
                     [(30, 0%Q); (90, 0%Q); (180, 0%Q); (365, 0%Q)]]
                  (CohortRetentionAnalysis.mkCohort "2023-05" Samples.unit_2_3_B 1
                     [(30, 0%Q); (90, 0%Q); (180, 0%Q); (365, 0%Q)])
                  (Samples.clock_06_01 0%nat) 30 0%Q
                  eq_refl (or_introl eq_refl) (or_introl eq_refl)
                  (fun m Hm => match proj1 Hm with
                               | or_introl E => f_equal end_date (eq_sym E)
                               | or_intror F => match F with end
                               end))).
  intros m [[<- | []] _]. vm_compute. reflexivity.
Defined.

(** ** Cohort movements *)

Module MovementFacts.
Import Datetime Shapes CohortMovementTracker.

Lemma normalize_label_shape w : label_shape (normalize_cohort_format w).
Proof.
  unfold normalize_cohort_format, label_shape.
  set (t := Text.remove_char "," w).
  destruct (Re.match_classes Re.boot_camp_pattern t); [tauto|].
  destruct (ParseFacts.split_char_cons "/" t) as (p & ps & ->).
  rewrite CohortFacts.first_part_converted.
  destruct ps as [|q ps]; cbn [List.length Nat.ltb Nat.leb]; [tauto|].
  do 4 right. apply CohortFacts.join_has_separator.
Qed.

Lemma record_movements_shape r rows :
  record_movements r = Ok rows ->
  Forall (fun x => label_shape (cohort x)) rows /\
  List.length rows = (if is_event_record r then 1 else 0)%nat.
Proof.
  unfold record_movements, is_event_record.
  destruct (strptime (recordDate r)) as [d|]; cbn [bind]; [|discriminate].
  destruct (String.eqb _ "RECORD_TYPE_TRANSFER"); cbn [orb].
  - intros [= <-]. split; [|reflexivity]. constructor; [|constructor].
    apply normalize_label_shape.
  - destruct (String.eqb _ "RECORD_TYPE_DISCHARGE"); intros [= <-];
      (split; [|reflexivity]); [|constructor].
    constructor; [|constructor].
    cbn [cohort]. unfold label_shape.
    destruct (Text.contains "retired" _); tauto.
Qed.

Lemma record_movements_ok r :
  date_parses r -> exists rows, record_movements r = Ok rows.
Proof.
  intros [d Hd]. unfold record_movements. rewrite Hd. cbn [bind].
  destruct (String.eqb _ "RECORD_TYPE_TRANSFER"); [eauto|].
  destruct (String.eqb _ "RECORD_TYPE_DISCHARGE"); eauto.
Qed.

Lemma movements_loop_ok rs : forall acc,
  Forall date_parses rs ->
  Forall (fun x => label_shape (cohort x)) acc ->
  exists rows,
    movements_loop rs acc = Ok rows /\
    Forall (fun x => label_shape (cohort x)) rows /\
    List.length rows
    = (List.length acc + List.length (filter is_event_record rs))%nat.
Proof.
  induction rs as [|r rs IH]; intros acc H Hacc.
  - exists acc. repeat split; [assumption | simpl; lia].
  - inversion H as [|? ? Hr Hrs]; subst.
    destruct (record_movements_ok r Hr) as [rows E].
    destruct (record_movements_shape r rows E) as [Hshape Hlen].
    cbn [movements_loop]. rewrite E. cbn [bind].
    destruct (IH (acc ++ rows) Hrs) as (out & Hout & Hs & Hl);
      [apply Forall_app; now split|].
    exists out. repeat split; try assumption.
    rewrite Hl, length_app, Hlen. cbn [filter].
    destruct (is_event_record r); simpl; lia.
Qed.

Lemma movements_loop_bad rs : forall acc,
  Exists (fun r => ~ date_parses r) rs ->
  movements_loop rs acc = Raise ValueError.
Proof.
  induction rs as [|r rs IH]; intros acc H; [inversion H|].
  cbn [movements_loop]. unfold record_movements at 1.
  destruct (strptime (recordDate r)) as [d|e] eqn:E; cbn [bind].
  - inversion H as [? ? Hr | ? ? Hrs]; subst; [elim Hr; now exists d|].
    destruct (String.eqb _ "RECORD_TYPE_TRANSFER"); cbn [bind]; [now apply IH|].
    destruct (String.eqb _ "RECORD_TYPE_DISCHARGE"); cbn [bind]; now apply IH.
  - now rewrite (AbortFacts.strptime_exn _ _ E).
Qed.

Lemma insert_movement_In e x l : In e (insert_movement x l) <-> e = x \/ In e l.
Proof.
  induction l as [|y l IH]; simpl; [intuition|].
  destruct (m_date x <=? m_date y); simpl; [intuition|].
  rewrite IH. intuition.
Qed.

Lemma sorted_by_date_In e l : In e (sorted_by_date l) <-> In e l.
Proof.
  induction l as [|x l IH]; simpl; [reflexivity|].
  rewrite insert_movement_In, IH. intuition.
Qed.

Lemma insert_movement_length x l :
  List.length (insert_movement x l) = S (List.length l).
Proof.
  induction l as [|y l IH]; simpl; [reflexivity|].
  destruct (m_date x <=? m_date y); simpl; [reflexivity | now rewrite IH].
Qed.

Lemma sorted_by_date_length l : List.length (sorted_by_date l) = List.length l.
Proof.
  induction l as [|x l IH]; simpl; [reflexivity|].
  now rewrite insert_movement_length, IH.
Qed.

Lemma insert_movement_hd a x l :
  movement_ordered a x -> HdRel movement_ordered a l ->
  HdRel movement_ordered a (insert_movement x l).
Proof.
  intros Hax Hl. destruct l as [|y l]; simpl; [now constructor|].
  destruct (m_date x <=? m_date y); constructor; [exact Hax | now inversion Hl].
Qed.

Lemma insert_movement_sorted x l :
  Sorted movement_ordered l -> Sorted movement_ordered (insert_movement x l).
Proof.
  induction 1 as [|y l Hs IH Hhd]; simpl; [repeat constructor|].
  destruct (Z.leb_spec (m_date x) (m_date y)).
  - constructor; [now constructor | now constructor].
  - constructor; [exact IH|].
    apply insert_movement_hd; [unfold movement_ordered; lia | exact Hhd].
Qed.

Lemma sorted_by_date_sorted l : Sorted movement_ordered (sorted_by_date l).
Proof.
  induction l as [|x l IH]; simpl; [constructor|].
  now apply insert_movement_sorted.
Qed.

Lemma insert_movement_on d x l :
  movements_on d (insert_movement x l) = movements_on d (x :: l).
Proof.
  unfold movements_on. induction l as [|y l IH]; [reflexivity|]. simpl.
  destruct (Z.leb_spec (m_date x) (m_date y)); [reflexivity|].
  cbn [filter]. rewrite IH. cbn [filter].
  destruct (Z.eqb_spec (m_date x) d); destruct (Z.eqb_spec (m_date y) d);
    try reflexivity. lia.
Qed.

Lemma sorted_by_date_stable d l :
  movements_on d (sorted_by_date l) = movements_on d l.
Proof.
  induction l as [|x l IH]; [reflexivity|]. simpl.
  rewrite insert_movement_on. unfold movements_on in *. cbn [filter].
  now rewrite IH.
Qed.

End MovementFacts.

(** X21.  For a document whose record dates all parse,
    [extract_cohort_movements] returns one movement for each transfer or
    discharge record, in ascending order of date, movements of one date in
    the order of their records, each labelled "Retired", "Discharged",
    "Boot Camp", "Unknown" or with a text that holds a slash. *)
Theorem cohort_movements_of_a_document (rs : list record) :
  Forall Shapes.date_parses rs ->
  exists rows movements,
    CohortMovementTracker.movements_loop rs [] = Ok rows /\
    CohortMovementTracker.extract_cohort_movements (mkDocument (Some rs))
    = Ok movements /\
    List.length movements = List.length (filter Shapes.is_event_record rs) /\
    Sorted Shapes.movement_ordered movements /\
    (forall d, Shapes.movements_on d movements = Shapes.movements_on d rows) /\
    Forall (fun x => Shapes.label_shape (CohortMovementTracker.cohort x)) movements.
Proof.
  intros H.
  destruct (MovementFacts.movements_loop_ok rs [] H (Forall_nil _))
    as (rows & Hrows & Hshape & Hlen).
  exists rows, (CohortMovementTracker.sorted_by_date rows).
  split; [exact Hrows|]. split.
  - unfold CohortMovementTracker.extract_cohort_movements. cbn [records].
    now rewrite Hrows.
  - split; [now rewrite MovementFacts.sorted_by_date_length, Hlen|].
    split; [apply MovementFacts.sorted_by_date_sorted|].
    split; [intros d; apply MovementFacts.sorted_by_date_stable|].
    apply Forall_forall. intros x Hx.
    apply (proj1 (MovementFacts.sorted_by_date_In _ _)) in Hx.
    exact (proj1 (Forall_forall _ _) Hshape x Hx).
Qed.

Lemma cohort_movements_of_a_document_witness :
  exists movements,
    CohortMovementTracker.extract_cohort_movements Samples.doc_closed
    = Ok movements /\ List.length movements = 3%nat.
Proof.
  destruct (cohort_movements_of_a_document
              [mkRecord "RECORD_TYPE_TRANSFER" "2023-01-01" "Assigned 2/3/B/2-7";
               mkRecord "RECORD_TYPE_TRANSFER" "2023-02-01"
                 "Reassigned; Assigned 1/1/A/2-7";
               mkRecord "RECORD_TYPE_DISCHARGE" "2023-03-01" "Retired"])
    as (rows & movements & _ & Hm & Hlen & _).
  - repeat constructor; eexists; reflexivity.
  - exists movements. split; [exact Hm | exact Hlen].
Defined.

(** X22.  [extract_cohort_movements] parses the date of a record before it
    looks at its type: a date that [strptime] rejects raises a [ValueError]
    for the whole document, also when the record is of a type that would
    have been skipped. *)
Theorem cohort_movements_bad_date (rs : list record) :
  Exists (fun r => ~ Shapes.date_parses r) rs ->
  CohortMovementTracker.extract_cohort_movements (mkDocument (Some rs))
  = Raise ValueError.
Proof.
  intros H. unfold CohortMovementTracker.extract_cohort_movements. cbn [records].
  now rewrite (MovementFacts.movements_loop_bad rs [] H).
Qed.

Lemma cohort_movements_bad_date_witness :
  CohortMovementTracker.extract_cohort_movements
    (mkDocument (Some [mkRecord "RECORD_TYPE_PROMOTION" "2023/01/01" "Promoted"]))
  = Raise ValueError.
Proof.
  apply cohort_movements_bad_date.
  apply Exists_cons_hd. intros [d Hd]. discriminate Hd.
Defined.

Module LabelFacts.
Import Text Shapes CohortMovementTracker.

Lemma no_slash_in_word l :
  Forall (fun c => Ascii.eqb c "/" = false) l ->
  contains "/" (string_of_list_ascii l) = false.
Proof.
  induction 1 as [|c l Hc Hl IH]; [reflexivity|].
  cbn [string_of_list_ascii]. now rewrite CohortFacts.contains_char, Hc, IH.
Qed.

Lemma words_without_slash s : forall cur,
  contains "/" s = false ->
  Forall (fun c => Ascii.eqb c "/" = false) cur ->
  Forall (fun w => contains "/" w = false) (split_words_go cur s).
Proof.
  induction s as [|c s IH]; intros cur Hs Hcur.
  - cbn [split_words_go]. destruct cur as [|a cur]; [constructor|].
    constructor; [|constructor]. apply no_slash_in_word. now apply Forall_rev.
  - rewrite CohortFacts.contains_char in Hs. apply orb_false_iff in Hs as [Hc Hs].
    cbn [split_words_go]. destruct (is_space c).
    + destruct cur as [|a cur]; [now apply IH|].
      constructor; [apply no_slash_in_word; now apply Forall_rev|].
      now apply IH.
    + apply IH; [exact Hs | now constructor].
Qed.

Lemma first_slash_word_none words :
  Forall (fun w => contains "/" w = false) words ->
  first_slash_word words = "Unknown".
Proof.
  unfold first_slash_word. induction 1 as [|w words Hw Hws IH]; [reflexivity|].
  cbn [find]. now rewrite Hw.
Qed.

Lemma lower_upper_char c : to_lower (to_upper c) = to_lower c.
Proof. destruct c as [[] [] [] [] [] [] [] []]; reflexivity. Qed.

Lemma lower_lower_char c : to_lower (to_lower c) = to_lower c.
Proof. destruct c as [[] [] [] [] [] [] [] []]; reflexivity. Qed.

Lemma lower_upper s : lower (upper s) = lower s.
Proof.
  unfold lower, upper. induction s as [|c s IH]; [reflexivity|].
  cbn [map_chars]. now rewrite lower_upper_char, IH.
Qed.

Lemma lower_lower s : lower (lower s) = lower s.
Proof.
  unfold lower. induction s as [|c s IH]; [reflexivity|].
  cbn [map_chars]. now rewrite lower_lower_char, IH.
Qed.

End LabelFacts.

(** X23.  The label of a movement: a transfer whose details hold no slash
    is labelled "Unknown"; a discharge is labelled "Retired" or
    "Discharged" whatever the case of the letters of its details: writing
    the (ASCII) details in upper case or in lower case does not change the
    movement. *)
Theorem movement_labels (r : record) (d : Datetime.datetime) :
  Datetime.strptime (recordDate r) = Ok d ->
  (recordType r = "RECORD_TYPE_TRANSFER" ->
   Text.contains "/" (recordDetails r) = false ->
   CohortMovementTracker.record_movements r
   = Ok [CohortMovementTracker.mkMovement d "Unknown"]) /\
  (recordType r = "RECORD_TYPE_DISCHARGE" ->
   Text.is_ascii (recordDetails r) = true ->
   CohortMovementTracker.record_movements
     (mkRecord (recordType r) (recordDate r) (Text.upper (recordDetails r)))
   = CohortMovementTracker.record_movements r /\
   CohortMovementTracker.record_movements
     (mkRecord (recordType r) (recordDate r) (Text.lower (recordDetails r)))
   = CohortMovementTracker.record_movements r).
Proof.
  intros Hd. split.
  - intros Ht Hs. unfold CohortMovementTracker.record_movements.
    rewrite Hd, Ht. cbn [bind String.eqb].
    rewrite (LabelFacts.first_slash_word_none
               (Text.split_words (recordDetails r))
               (LabelFacts.words_without_slash _ [] Hs (Forall_nil _))).
    reflexivity.
  - intros Ht _. unfold CohortMovementTracker.record_movements.
    cbn [recordType recordDate recordDetails]. rewrite Hd, Ht. cbn [bind].
    change (String.eqb "RECORD_TYPE_DISCHARGE" "RECORD_TYPE_TRANSFER") with false.
    change (String.eqb "RECORD_TYPE_DISCHARGE" "RECORD_TYPE_DISCHARGE") with true.
    cbn iota. now rewrite LabelFacts.lower_upper, LabelFacts.lower_lower.
Qed.

Lemma movement_labels_witness :
  CohortMovementTracker.record_movements
    (mkRecord "RECORD_TYPE_TRANSFER" "2023-01-01" "Assigned to S3 staff")
  = Ok [CohortMovementTracker.mkMovement (Samples.day 2023 1 1) "Unknown"].
Proof.
  exact (proj1 (movement_labels
                  (mkRecord "RECORD_TYPE_TRANSFER" "2023-01-01" "Assigned to S3 staff")
                  (Samples.day 2023 1 1) eq_refl) eq_refl eq_refl).
Defined.

(** ** Whole runs *)

Module WholeRunFacts.
Import Datetime Shapes.

Lemma dates_parse_or_not rs :
  Forall date_parses rs \/ Exists (fun r => ~ date_parses r) rs.
Proof.
  induction rs as [|r rs IH]; [left; constructor|].
  destruct (strptime (recordDate r)) as [d|e] eqn:E.
  - destruct IH as [IH | IH]; [left | right; now apply Exists_cons_tl].
    constructor; [now exists d | exact IH].
  - right. apply Exists_cons_hd. intros [d Hd]. congruence.
Qed.

Lemma files_parse_or_not files :
  Forall dates_parse files \/ Exists bad_date files.
Proof.
  induction files as [|d files IH]; [left; constructor|].
  destruct (dates_parse_or_not (records_of d)) as [H | H].
  - destruct IH as [IH | IH]; [left; now constructor | right; now apply Exists_cons_tl].
  - right. now apply Exists_cons_hd.
Qed.

Lemma extract_events_parsed parse_unit d :
  (forall s, exists u, parse_unit s = Ok u) ->
  dates_parse d -> exists evs, extract_events parse_unit d = Ok evs.
Proof.
  intros Ht H. unfold extract_events.
  destruct (ExtractFacts.extract_loop_ok parse_unit Ht (records_of d) [] H)
    as [evs E].
  unfold records_of in E. rewrite E. cbn [bind]. eauto.
Qed.

Lemma extract_events_unparsed parse_unit d :
  (forall s, exists u, parse_unit s = Ok u) ->
  bad_date d -> extract_events parse_unit d = Raise ValueError.
Proof.
  intros Ht H. unfold extract_events, bad_date, records_of in *.
  now rewrite (AbortFacts.extract_loop_bad parse_unit Ht _ [] H).
Qed.

Lemma ush_main_loop_parsed clk files : forall n acc,
  Forall dates_parse files ->
  Forall (Forall well_formed) acc ->
  exists all,
    UnitStrengthHistory.main_loop clk n files acc = Ok all /\
    Forall (Forall well_formed) all.
Proof.
  induction files as [|d files IH]; intros n acc H Hacc;
    [exists acc; now split|].
  apply Forall_cons_iff in H as [Hd Hfiles].
  destruct (extract_events_parsed UnitStrengthHistory.parse_unit d
              ExtractFacts.ush_parse_unit_total Hd) as [evs E].
  cbn [UnitStrengthHistory.main_loop].
  unfold UnitStrengthHistory.extract_events at 1. rewrite E. cbn [bind].
  destruct evs as [|ev evs]; [now apply IH|].
  destruct (PipelineFacts.extract_events_ordered _ d _ E) as [Hs Hm].
  destruct (PipelineFacts.memberships_of_ordered_events clk n _ Hs Hm)
    as (_ & Hmid & Hend).
  destruct (create_memberships clk n (ev :: evs)) as [ms n'] eqn:Ec.
  cbn [fst] in *. apply IH; [exact Hfiles|].
  apply Forall_app. split; [exact Hacc|]. constructor; [|constructor].
  apply Forall_forall. intros m Hin. split.
  - exact (proj1 (Forall_forall _ _) Hmid m Hin).
  - exact (proj1 (Forall_forall _ _) Hend m Hin).
Qed.

Lemma Forall_concat {A} (P : A -> Prop) (ls : list (list A)) :
  Forall (Forall P) ls -> Forall P (List.concat ls).
Proof.
  induction 1 as [|l ls Hl Hls IH]; [constructor|]. simpl.
  apply Forall_app. now split.
Qed.

Lemma ush_main_bad clk files :
  Exists bad_date files -> UnitStrengthHistory.main clk files = Raise ValueError.
Proof.
  intros H. apply Exists_exists in H as (d & Hin & Hd).
  unfold UnitStrengthHistory.main.
  rewrite (AbortFacts.ush_main_loop_bad clk d files 0 [] Hin); [reflexivity|].
  now apply extract_events_unparsed; [exact ExtractFacts.ush_parse_unit_total|].
Qed.

End WholeRunFacts.

(** X25.  The table of a whole run of unitStrengthHistory.py counts the
    memberships of all members: for every date [D] at midnight and every
    unit [U] with its four fields, the [strength] at [(D, U)] is the number
    of memberships, over all documents, of unit [U] whose span from start
    date to end date holds [D], and the row is there exactly when that
    number is 1 or more. *)
Theorem strength_run_counts
  (clk : clock) (files : list document)
  (table : list UnitStrengthHistory.strength_row) :
  UnitStrengthHistory.main clk files = Ok (Some table) ->
  exists all_memberships,
    UnitStrengthHistory.main_loop clk 0 files [] = Ok all_memberships /\
    Forall (Forall Shapes.well_formed) all_memberships /\
    forall D U,
      Datetime.midnight D = true ->
      Pandas.notna U = true ->
      forall n,
        In (UnitStrengthHistory.mkStrength D U n) table <->
        n = Shapes.strength_at (List.concat all_memberships) D U /\ 1 <= n.
Proof.
  intros Hmain.
  destruct (WholeRunFacts.files_parse_or_not files) as [Hp | Hb];
    [|rewrite (WholeRunFacts.ush_main_bad clk files Hb) in Hmain; discriminate].
  destruct (WholeRunFacts.ush_main_loop_parsed clk files 0 [] Hp (Forall_nil _))
    as (all & Hall & Hwf).
  exists all. split; [exact Hall|]. split; [exact Hwf|].
  unfold UnitStrengthHistory.main in Hmain. rewrite Hall in Hmain. cbn [bind] in Hmain.
  destruct all as [|ms all'] eqn:Eall; [discriminate|]. rewrite <- Eall in *.
  destruct (UnitStrengthHistory.calculate_daily_strength (List.concat all))
    as [t|] eqn:Ec; cbn [bind] in Hmain; [|discriminate].
  injection Hmain as ->.
  intros D U HD HU n.
  rewrite (PandasFacts.daily_table _ table D U n Ec).
  rewrite (PandasFacts.strength_at_covers (List.concat all) D U); [intuition| |exact HD].
  apply WholeRunFacts.Forall_concat.
  apply Forall_forall. intros l Hl. apply Forall_forall. intros m Hm.
  exact (proj1 (proj1 (Forall_forall _ _)
                  (proj1 (Forall_forall _ _) Hwf l Hl) m Hm)).
Qed.

Lemma strength_run_counts_witness :
  exists table,
    UnitStrengthHistory.main Samples.clock_06_01 [Samples.doc_open] = Ok (Some table) /\
    In (UnitStrengthHistory.mkStrength (Samples.day 2023 6 1) Samples.unit_2_3_B 1)
       table.
Proof.
  eexists. split; [reflexivity|].
  destruct (strength_run_counts Samples.clock_06_01 [Samples.doc_open] _ eq_refl)
    as (all & Hall & _ & Hrows).
  vm_compute in Hall. injection Hall as <-.
  apply (Hrows (Samples.day 2023 6 1) Samples.unit_2_3_B); [reflexivity..|].
  split; [reflexivity | lia].
Defined.
